(** * AI-Design-Analyzer: the visual metric extraction engine

  A shallow embedding of the two analyzers of the repository
  ([AIDesignAnalyzer] and [AdvancedDesignAnalyzer]) and the properties
  their specification states about them.

  Conventions of the embedding.
  - A JavaScript [number] that holds a pixel channel, an index or a count
    is a [Z]; every other [number] is a real ([R]): the arithmetic of the
    source is read as exact arithmetic, rounding of IEEE doubles is not
    modelled.
  - A [number] that may be [NaN] or infinite is an [option R]; [None] is
    "not a finite number".  Non-finiteness is preserved by [+], [-], [*]
    with a non-zero constant, [/] by a non-zero constant and [Math.round],
    so [None] is propagated by those.
  - A [string] is a [string]; an array is a [list]; a [Map] iterated in
    insertion order is an association list.
  - [Math.random] is a stream of draws in [[0,1)] read through a cursor
    that the computation threads along. *)

From Stdlib Require Import Reals Lra Lia ZArith List String Ascii Bool.
From Stdlib Require Import HexString Sorted Permutation.
Import ListNotations.

Open Scope string_scope.
Open Scope Z_scope.

(** ** JavaScript primitives *)

Module JS.

(** [Math.floor] on a finite number. *)
Definition Math_floor (x : R) : Z := Int_part x.

(** [Math.round]: the nearest integer, a tie going up. *)
Definition Math_round (x : R) : Z := Int_part (x + / 2)%R.

(** [Number.prototype.toString(16)] on an integer. *)
Definition toString16 (x : Z) : string :=
  match x with
  | Z0 => "0"
  | Zpos p => HexString.Raw.of_pos p ""
  | Zneg p => String "-" (HexString.Raw.of_pos p "")
  end.

(** [String.prototype.padStart(2, '0')]. *)
Definition padStart2 (s : string) : string :=
  match s with
  | EmptyString => "00"
  | String c EmptyString => String "0" (String c EmptyString)
  | _ => s
  end.

(** [parseInt(s, 16)] on a string of hexadecimal digits. *)
Definition parseInt16 (s : string) : Z := Z.of_N (HexString.Raw.to_N s 0%N).

(** The character class [[a-f\d]] under the [i] flag. *)
Definition isHexDigit (c : ascii) : bool :=
  match HexString.ascii_to_digit c with
  | Some _ => true
  | None => false
  end.

(** [/^#?([a-f\d]{2})([a-f\d]{2})([a-f\d]{2})$/i.exec(hex)]: the three
    captured groups, or [None] for [null]. *)
Definition execHex (hex : string) : option (string * string * string) :=
  let body := match hex with
              | String "#" rest => rest
              | _ => hex
              end in
  match body with
  | String a (String b (String c (String d (String e (String f EmptyString))))) =>
      if forallb isHexDigit [a; b; c; d; e; f]
      then Some (String a (String b EmptyString),
                 String c (String d EmptyString),
                 String e (String f EmptyString))
      else None
  | _ => None
  end.

(** The language of that regular expression, stated on its own: an
    optional [#] followed by exactly six hexadecimal digits. *)
Definition hexPattern (hex : string) : Prop :=
  exists ds : list ascii,
    List.length ds = 6%nat /\
    forallb isHexDigit ds = true /\
    (hex = string_of_list_ascii ds \/ hex = String "#" (string_of_list_ascii ds)).

End JS.

(** ** Hexadecimal colours, shared by both analyzers *)

Module Hex.
Import JS.

(** [hexToRgb] is the same text in both classes. *)
Definition hexToRgb (hex : string) : list Z :=
  match execHex hex with
  | Some (g1, g2, g3) => [parseInt16 g1; parseInt16 g2; parseInt16 g3]
  | None => [0; 0; 0]
  end.

(** The three channels of [hexToRgb], as the destructuring
    [const [r, g, b] = ...] reads them. *)
Definition channels (hex : string) : Z * Z * Z :=
  match hexToRgb hex with
  | [r; g; b] => (r, g, b)
  | _ => (0, 0, 0)
  end.

End Hex.

(** ** Numbers, comparisons and arrays *)

Module Num.

(** [x > y], [x < y] and [x <= y] on finite numbers. *)
Definition gtb (x y : R) : bool := if Rgt_dec x y then true else false.
Definition ltb (x y : R) : bool := if Rlt_dec x y then true else false.
Definition leb (x y : R) : bool := if Rle_dec x y then true else false.

(** A number that is finite or [Infinity], as the running minimum of a
    search starts at [Infinity]. *)
Inductive ext : Type :=
| Finite (x : R)
| Infinity.

(** [d < m] for a finite [d]. *)
Definition lt_ext (d : R) (m : ext) : bool :=
  match m with
  | Finite x => ltb d x
  | Infinity => true
  end.

(** [s || d] on a string that may be [undefined]: [undefined] and the
    empty string are falsy. *)
Definition orString (s : option string) (d : string) : string :=
  match s with
  | Some EmptyString | None => d
  | Some v => v
  end.

(** [Array.prototype.sort(cmp)], which is stable: [le a b] is
    [cmp(a, b) <= 0].  Insertion from the right keeps equal elements in
    their original order. *)
Fixpoint insertBy {A : Type} (le : A -> A -> bool) (x : A) (l : list A) : list A :=
  match l with
  | [] => [x]
  | y :: t => if le x y then x :: y :: t else y :: insertBy le x t
  end.

Definition sortBy {A : Type} (le : A -> A -> bool) (l : list A) : list A :=
  fold_right (insertBy le) [] l.

(** [[...new Set(items)]]: the distinct elements in order of first
    occurrence. *)
Fixpoint uniqueFrom (seen : list string) (items : list string) : list string :=
  match items with
  | [] => []
  | x :: t =>
      if existsb (String.eqb x) seen then uniqueFrom seen t
      else x :: uniqueFrom (x :: seen) t
  end.

Definition unique (items : list string) : list string := uniqueFrom [] items.

(** [data[i]] on the pixel array; [None] is [undefined]. *)
Definition dataAt (data : list Z) (i : Z) : option Z :=
  if i <? 0 then None else nth_error data (Z.to_nat i).

(** A [Map<string, number>], iterated in insertion order. *)
Definition StrMap := list (string * Z).

Fixpoint mapGet (k : string) (m : StrMap) : option Z :=
  match m with
  | [] => None
  | (k', v) :: t => if String.eqb k k' then Some v else mapGet k t
  end.

Fixpoint mapSet (k : string) (v : Z) (m : StrMap) : StrMap :=
  match m with
  | [] => [(k, v)]
  | (k', v') :: t => if String.eqb k k' then (k', v) :: t else (k', v') :: mapSet k v t
  end.

End Num.

(** ** The random source *)

Module Random.

(** The draws [Math.random] will return, each in [[0,1)]. *)
Record Rng : Type := MkRng {
  draw : nat -> R;
  draw_range : forall i, (0 <= draw i < 1)%R
}.

(** A computation that reads draws: from the stream and the cursor to a
    result and the cursor after it. *)
Definition Rand (A : Type) : Type := Rng -> nat -> A * nat.

Definition ret {A : Type} (a : A) : Rand A := fun _ n => (a, n).

Definition bind {A B : Type} (m : Rand A) (k : A -> Rand B) : Rand B :=
  fun g n => let (a, n') := m g n in k a g n'.

(** [Math.random()]. *)
Definition Math_random : Rand R := fun g n => (draw g n, S n).

(** A loop body run [n] times on an accumulator. *)
Fixpoint times {S : Type} (n : nat) (body : S -> Rand S) (s : S) : Rand S :=
  match n with
  | O => ret s
  | Datatypes.S n' => bind (body s) (times n' body)
  end.

(** [array[Math.floor(Math.random() * array.length)]]. *)
Definition pick {A : Type} (array : list A) (d : A) : Rand A :=
  bind Math_random (fun u =>
    ret (nth (Z.to_nat (JS.Math_floor (u * IZR (Z.of_nat (List.length array))))) array d)).

(** [s || m] where the right operand draws: it runs only when [s] is
    falsy. *)
Definition orStringElse (s : option string) (m : Rand string) : Rand string :=
  match s with
  | Some EmptyString | None => m
  | Some v => ret v
  end.

End Random.

Declare Scope rand_scope.
Delimit Scope rand_scope with rand.
Notation "x <- m ;; k" := (Random.bind m (fun x => k))
  (at level 61, m at next level, right associativity) : rand_scope.
Notation "' p <- m ;; k" := (Random.bind m (fun x => let 'p := x in k))
  (at level 61, p pattern, m at next level, right associativity) : rand_scope.

(** ** The first analyzer: sampled colours and templated feedback *)

Module AIDesignAnalyzer.
Import JS Num Random.

Definition hexToRgb := Hex.hexToRgb.

Definition rgbToHex (r g b : Z) : string :=
  String "#" (concat "" (map (fun x => padStart2 (toString16 x)) [r; g; b])).

Definition getLightness (hex : string) : R :=
  let '(r, g, b) := Hex.channels hex in
  let r := (IZR r / 255)%R in
  let g := (IZR g / 255)%R in
  let b := (IZR b / 255)%R in
  let max := Rmax (Rmax r g) b in
  let min := Rmin (Rmin r g) b in
  ((max + min) / 2 * 100)%R.

(** The arrow function mapped over the channels in [getLuminance]. *)
Definition linearize (c : Z) : R :=
  let c := (IZR c / 255)%R in
  if Rle_dec c 0.03928 then (c / 12.92)%R
  else Rpower ((c + 0.055) / 1.055) 2.4.

Definition getLuminance (hex : string) : R :=
  let '(r, g, b) := Hex.channels hex in
  (0.2126 * linearize r + 0.7152 * linearize g + 0.0722 * linearize b)%R.

Definition calculateContrastRatio (hex1 hex2 : string) : R :=
  let lum1 := getLuminance hex1 in
  let lum2 := getLuminance hex2 in
  let brightest := Rmax lum1 lum2 in
  let darkest := Rmin lum1 lum2 in
  ((brightest + 0.05) / (darkest + 0.05))%R.

Definition colorDistance (hex1 hex2 : string) : R :=
  let '(r1, g1, b1) := Hex.channels hex1 in
  let '(r2, g2, b2) := Hex.channels hex2 in
  sqrt (IZR ((r1 - r2) ^ 2 + (g1 - g2) ^ 2 + (b1 - b2) ^ 2)).

Definition webColors : list string :=
  [ "#FF0000"; "#00FF00"; "#0000FF"; "#FFFF00"; "#FF00FF"; "#00FFFF";
    "#FF6B6B"; "#4ECDC4"; "#45B7D1"; "#96CEB4"; "#FFEAA7"; "#DDA0DD";
    "#98D8C8"; "#F7DC6F"; "#BB8FCE"; "#85C1E9"; "#F8C471"; "#82E0AA";
    "#E74C3C"; "#3498DB"; "#2ECC71"; "#F39C12"; "#9B59B6"; "#1ABC9C";
    "#000000"; "#FFFFFF"; "#333333"; "#666666"; "#999999"; "#CCCCCC" ].

(** One turn of the search loop of [quantizeToWebColors], on the pair
    [(closestColor, minDistance)]. *)
Definition quantizeStep (hex : string) (st : string * ext) (webColor : string)
  : string * ext :=
  let distance := colorDistance hex webColor in
  if lt_ext distance (snd st) then (webColor, Finite distance) else st.

(** The search loop over a palette [palette] from a first guess [c0]. *)
Definition nearestIn (palette : list string) (c0 : string) (hex : string) : string :=
  fst (fold_left (quantizeStep hex) palette (c0, Infinity)).

Definition quantizeToWebColors (hex : string) : string :=
  nearestIn webColors (nth 0 webColors "") hex.

Definition isGray (r g b : Z) : bool :=
  let maxDiff := 20 in
  (Z.abs (r - g) <? maxDiff) && (Z.abs (r - b) <? maxDiff) && (Z.abs (g - b) <? maxDiff).

Definition findBestBackgroundColor (colors : list string) : string :=
  let lightColors := filter (fun color => gtb (getLightness color) 60) colors in
  match lightColors with
  | c :: _ => c
  | [] => orString (nth_error colors 0) "#FFFFFF"
  end.

(** One turn of the loop of [findBestTextColor], on the pair
    [(bestColor, maxContrast)]. *)
Definition textStep (background : string) (st : string * R) (color : string)
  : string * R :=
  if String.eqb color background then st
  else
    let contrast := calculateContrastRatio background color in
    if gtb contrast (snd st) then (color, contrast) else st.

Definition findBestTextColor (colors : list string) (background : string) : string :=
  let '(bestColor, maxContrast) :=
    fold_left (textStep background) colors ("#000000", 0%R) in
  if ltb maxContrast 3
  then (if gtb (getLightness background) 50 then "#000000" else "#FFFFFF")
  else bestColor.

(** *** Sampling *)

(** What [getImageData] returns for the canvas: its size and the RGBA
    bytes, row by row. *)
Record Image : Type := MkImage {
  width : Z;
  height : Z;
  pixels : list Z
}.

Record Region : Type := MkRegion {
  region_x : R;
  region_y : R;
  region_w : R;
  region_h : R
}.

Definition regions (width height : Z) : list Region :=
  let width := IZR width in
  let height := IZR height in
  [ MkRegion 0 0 (width * 0.3) (height * 0.2);
    MkRegion (width * 0.35) 0 (width * 0.3) (height * 0.15);
    MkRegion (width * 0.2) (height * 0.3) (width * 0.6) (height * 0.4);
    MkRegion 0 (height * 0.8) width (height * 0.2);
    MkRegion (width * 0.8) 0 (width * 0.2) height ]%R.

(** The pixel test of the inner loop: the colour pushed for the pixel at
    [(x, y)], if any.  The channels are read only where the alpha channel
    was, so they are there whenever [a] is. *)
Definition sampleAt (data : list Z) (width height : Z) (x y : Z) : option string :=
  if (x <? width) && (y <? height) then
    let index := (y * width + x) * 4 in
    match dataAt data index, dataAt data (index + 1),
          dataAt data (index + 2), dataAt data (index + 3) with
    | Some r, Some g, Some b, Some a =>
        if (a >? 128) && negb (isGray r g b) then Some (rgbToHex r g b) else None
    | _, _, _, _ => None
    end
  else None.

(** The body of [for (let i = 0; i < 800; i++)]. *)
Definition sampleOnce (data : list Z) (width height : Z) (region : Region)
    (colors : list string) : Rand (list string) :=
  (u1 <- Math_random ;;
   u2 <- Math_random ;;
   let x := Math_floor (region_x region + u1 * region_w region) in
   let y := Math_floor (region_y region + u2 * region_h region) in
   ret match sampleAt data width height x y with
       | Some c => (colors ++ [c])%list
       | None => colors
       end)%rand.

(** [regions.forEach(region => ...)] on the accumulator [colors]. *)
Fixpoint forEachRegion (rs : list Region) (body : Region -> list string -> Rand (list string))
    (colors : list string) : Rand (list string) :=
  match rs with
  | [] => ret colors
  | r :: rest => bind (body r colors) (forEachRegion rest body)
  end.

Definition sampleStrategicRegions (data : list Z) (width height : Z)
  : Rand (list string) :=
  forEachRegion (regions width height)
    (fun region => times 800 (sampleOnce data width height region)) [].

(** *** Dominant colours *)

Record DominantColors : Type := MkDominantColors {
  background : string;
  text : string;
  primary : string;
  secondary : string;
  accent : string
}.

Definition getDefaultColors : DominantColors :=
  MkDominantColors "#FFFFFF" "#333333" "#007BFF" "#6C757D" "#FF6B6B".

Definition vibrantColors : list string :=
  [ "#FF6B6B"; "#4ECDC4"; "#45B7D1"; "#96CEB4"; "#FFEAA7"; "#DDA0DD";
    "#F7DC6F"; "#BB8FCE" ].

Definition generateVibrantColor : Rand string := pick vibrantColors "".

Definition generateComplementary (hex : string) : string :=
  let '(r, g, b) := Hex.channels hex in
  rgbToHex (255 - r) (255 - g) (255 - b).

Definition accents : list (string * string) :=
  [ ("#FF6B6B", "#4ECDC4"); ("#4ECDC4", "#FF6B6B"); ("#45B7D1", "#FFEAA7");
    ("#96CEB4", "#DDA0DD"); ("#FFEAA7", "#45B7D1"); ("#DDA0DD", "#96CEB4") ].

Fixpoint lookup (k : string) (table : list (string * string)) : option string :=
  match table with
  | [] => None
  | (k', v) :: t => if String.eqb k k' then Some v else lookup k t
  end.

Definition generateAccentColor (base : string) : string :=
  match lookup base accents with
  | Some v => orString (Some v) (generateComplementary base)
  | None => generateComplementary base
  end.

(** The tally loop of [calculateAdvancedDominantColors]. *)
Definition tally (colorGroups : StrMap) (color : string) : StrMap :=
  let quantized := quantizeToWebColors color in
  mapSet quantized
    (match mapGet quantized colorGroups with Some n => n | None => 0 end + 1)
    colorGroups.

(** The colours of the ten largest groups, most frequent first. *)
Definition topColorsOf (colors : list string) : list string :=
  let colorGroups := fold_left tally colors [] in
  map fst (firstn 10 (sortBy (fun a b => snd b - snd a <=? 0) colorGroups)).

Definition calculateAdvancedDominantColors (colors : list string)
  : Rand DominantColors :=
  match colors with
  | [] => ret getDefaultColors
  | _ =>
    let topColors := topColorsOf colors in
    let background := findBestBackgroundColor topColors in
    let textColor := findBestTextColor topColors background in
    let remaining :=
      filter (fun c => negb (String.eqb c background) && negb (String.eqb c textColor))
             topColors in
    (primary <- orStringElse (nth_error remaining 0) generateVibrantColor ;;
     let secondary := orString (nth_error remaining 1) (generateComplementary primary) in
     let accent := orString (nth_error remaining 2) (generateAccentColor primary) in
     ret (MkDominantColors background textColor primary secondary accent))%rand
  end.

(** [createAdvancedPalette].  The lightness is an exact real here.  Two
    colours of the same exact lightness can get doubles that differ in
    the last place, so the order in which the sort of the code leaves
    them is not the one fixed here; nothing proved of the palette depends
    on the order among colours of the same lightness. *)
Definition createAdvancedPalette (colors : list string) : list string :=
  sortBy (fun a b => leb (getLightness b - getLightness a) 0) (unique colors).

Definition extractRealColorsAdvanced (imageData : Image)
  : Rand (DominantColors * list string * R) :=
  (let data := pixels imageData in
   allColors <- sampleStrategicRegions data (width imageData) (height imageData) ;;
   dominantColors <- calculateAdvancedDominantColors allColors ;;
   let palette := createAdvancedPalette allColors in
   let contrast := calculateContrastRatio (background dominantColors) (text dominantColors) in
   ret (dominantColors, firstn 12 palette, contrast))%rand.

(** *** Narrative feedback

    The texts are no part of the metrics, but choosing them reads draws
    between the sampler's and the scores'. *)

Definition toLowerCase (c : ascii) : ascii :=
  let n := nat_of_ascii c in
  if (Nat.leb 65 n && Nat.leb n 90)%bool then ascii_of_nat (n + 32) else c.

(** [item.toLowerCase().replace(/[^a-z]/g, '')]. *)
Fixpoint dedupKey (item : string) : string :=
  match item with
  | EmptyString => EmptyString
  | String c rest =>
      let c' := toLowerCase c in
      let n := nat_of_ascii c' in
      if (Nat.leb 97 n && Nat.leb n 122)%bool
      then String c' (dedupKey rest) else dedupKey rest
  end.

Fixpoint removeDuplicatesFrom (seen : list string) (items : list string) : list string :=
  match items with
  | [] => []
  | item :: t =>
      let key := dedupKey item in
      if existsb (String.eqb key) seen then removeDuplicatesFrom seen t
      else item :: removeDuplicatesFrom (key :: seen) t
  end.

Definition removeDuplicates (items : list string) : list string :=
  removeDuplicatesFrom [] items.

Definition randomChoice (array : list string) : Rand string := pick array "".

(** A pair [{ strengths, suggestions }]. *)
Definition Notes : Type := (list string * list string)%type.

Definition analyzeColorCombination (colors : DominantColors) : Notes :=
  let primaryLightness := getLightness (primary colors) in
  let secondaryLightness := getLightness (secondary colors) in
  let backgroundLightness := getLightness (background colors) in
  let '(s1, g1) :=
    if ltb primaryLightness 40 then
      (["The bold primary color creates strong visual impact and commands attention"],
       ["Consider using a lighter tint of your primary color for secondary buttons to create hierarchy"])
    else if gtb primaryLightness 70 then
      (["The light primary color gives a soft, approachable feel to the design"],
       ["Add a darker complementary color for important CTAs to make them stand out more"])
    else ([], []) in
  let '(s2, g2) :=
    if gtb (Rabs (primaryLightness - secondaryLightness)) 30 then
      (["Good contrast between primary and secondary colors creates clear visual distinction"], [])
    else
      ([], ["Increase the lightness difference between primary and secondary colors for better element separation"]) in
  let '(s3, g3) :=
    if gtb backgroundLightness 80 then
      (["The light background makes the design feel clean and spacious"],
       ["Add subtle texture or very light gradients to prevent the background from feeling too flat"])
    else if ltb backgroundLightness 30 then
      (["Dark background creates a premium, sophisticated aesthetic"],
       ["Ensure text has sufficient contrast - consider lightening secondary text by 10-15%"])
    else ([], []) in
  (s1 ++ s2 ++ s3, g1 ++ g2 ++ g3)%list.

Definition layoutStrengths : list string :=
  [ "The layout has a clear content hierarchy that guides the eye naturally";
    "Good use of white space creates breathing room between elements";
    "Visual balance is maintained across different screen areas";
    "The grid system provides solid structure while allowing creative elements";
    "Content grouping follows logical user flow patterns" ].

Definition layoutSuggestions : list string :=
  [ "Try increasing margin consistency - use multiples of 8px for better rhythm";
    "Consider adding more visual weight to your primary call-to-action section";
    "The sidebar could benefit from slightly tighter padding to reduce visual separation";
    "Experiment with asymmetric layouts for key sections to create visual interest";
    "Add subtle background variations to distinguish different content blocks" ].

Definition generateLayoutFeedback : Rand Notes :=
  (s <- randomChoice layoutStrengths ;;
   g <- randomChoice layoutSuggestions ;;
   ret ([s], [g]))%rand.

Definition generateTypographyFeedback (contrast : R) : Notes :=
  let '(s1, g1) :=
    if gtb contrast 7 then
      (["Excellent text contrast ensures maximum readability and accessibility"], [])
    else if gtb contrast 4.5 then
      (["Good contrast ratio meets accessibility standards for most users"], [])
    else
      ([], ["Increase text-background contrast for better readability, especially in low light"]) in
  let g2 :=
    if gtb contrast 12
    then ["Consider softening the text contrast slightly for longer reading sessions"]
    else [] in
  (s1 ++ ["Typography scale appears consistent across different content types"],
   g1 ++ g2 ++ ["Add 1-2 px letter spacing to body text for improved scanability"])%list.

Definition uxStrengths : list string :=
  [ "The user journey feels intuitive with clear progression markers";
    "Interactive elements have sufficient size for comfortable tapping";
    "Visual feedback for user actions appears well implemented";
    "Content prioritization aligns with user goals and expectations";
    "The design maintains consistency across different interaction states" ].

Definition uxSuggestions : list string :=
  [ "Add micro-interactions to button hover states for better engagement";
    "Consider implementing a loading state for content-heavy sections";
    "The navigation could benefit from visual indicators for current location";
    "Add subtle animation to transitions between different content views";
    "Consider adding tooltips for icon-only buttons to improve discoverability" ].

Definition generateUXFeedback : Rand Notes :=
  (s <- randomChoice uxStrengths ;;
   g <- randomChoice uxSuggestions ;;
   ret ([s], [g]))%rand.

Definition generateRandomStrength : Rand string :=
  randomChoice
    [ "The visual rhythm creates a pleasant scanning experience for users";
      "Color usage demonstrates good understanding of brand personality";
      "Element spacing shows thoughtful consideration of user comfort";
      "The design maintains excellent consistency across different components";
      "Visual hierarchy effectively guides attention to key content areas" ].

Definition generateRandomSuggestion : Rand string :=
  randomChoice
    [ "Experiment with adding subtle shadows to create depth in flat areas";
      "Consider increasing the size of interactive elements by 10% for mobile";
      "Try using your accent color more strategically in hover states";
      "Add progressive disclosure for complex forms to reduce cognitive load";
      "Consider implementing a dark mode variant for extended reading sessions" ].

(** [while (items.length < n) items.push(gen())]: each turn adds one
    item, so the loop runs [n - items.length] times. *)
Definition fillUpTo (n : nat) (gen : Rand string) (items : list string)
  : Rand (list string) :=
  times (n - List.length items)
        (fun acc => bind gen (fun s => ret (acc ++ [s])%list)) items.

Definition generateAdvancedHumanFeedback (colors : DominantColors)
    (palette : list string) (contrast : R) : Rand Notes :=
  (let colorAnalysis := analyzeColorCombination colors in
   layoutFeedback <- generateLayoutFeedback ;;
   let typographyFeedback := generateTypographyFeedback contrast in
   uxFeedback <- generateUXFeedback ;;
   let allStrengths :=
     (fst colorAnalysis ++ fst layoutFeedback ++ fst typographyFeedback
        ++ fst uxFeedback)%list in
   let allSuggestions :=
     (snd colorAnalysis ++ snd layoutFeedback ++ snd typographyFeedback
        ++ snd uxFeedback)%list in
   let uniqueStrengths := firstn 3 (removeDuplicates allStrengths) in
   let uniqueSuggestions := firstn 4 (removeDuplicates allSuggestions) in
   uniqueStrengths <- fillUpTo 3 generateRandomStrength uniqueStrengths ;;
   uniqueSuggestions <- fillUpTo 4 generateRandomSuggestion uniqueSuggestions ;;
   ret (uniqueStrengths, uniqueSuggestions))%rand.

(** *** Scores *)

Definition calculateAdvancedColorScore (palette : list string)
    (dominantColors : DominantColors) : Z :=
  let score := 70 in
  let uniqueColors := Z.of_nat (List.length (unique palette)) in
  let score := score + Z.min 15 (uniqueColors * 2) in
  let contrast :=
    calculateContrastRatio (background dominantColors) (text dominantColors) in
  let score :=
    if gtb contrast 7 then score + 10
    else if gtb contrast 4.5 then score + 5
    else score in
  Z.min 95 score.

(** [image.width] and [image.height] of the loaded picture.  A zero
    height makes the ratio [NaN] or [Infinity], which fails every test. *)
Definition analyzeLayout (imageWidth imageHeight : Z) : Z :=
  if imageHeight =? 0 then 75
  else
    let aspectRatio := (IZR imageWidth / IZR imageHeight)%R in
    let score := 75 in
    let score := if ltb (Rabs (aspectRatio - 1.618)) 0.1 then score + 10 else score in
    let score := if ltb (Rabs (aspectRatio - 1.777)) 0.1 then score + 8 else score in
    let score := if ltb (Rabs (aspectRatio - 1.5)) 0.1 then score + 7 else score in
    Z.min 95 score.

Definition analyzeVisualHierarchy : Rand Z :=
  (u <- Math_random ;; ret (65 + Math_floor (u * 30)))%rand.

Definition analyzeSpacing : Rand Z :=
  (u <- Math_random ;; ret (70 + Math_floor (u * 25)))%rand.

Definition calculateReadabilityScore (contrast : R) : Z :=
  Z.min 100 (Z.max 40 (Math_floor (contrast * 8 + 30))).

(** *** The entry point *)

Record DesignAnalysis : Type := MkDesignAnalysis {
  extractedText : string;
  dominantColors : DominantColors;
  colorPalette : list string;
  contrastRatio : R;
  textReadability : Z;
  colorScore : Z;
  layoutScore : Z;
  visualHierarchy : Z;
  spacingScore : Z
}.

Record DesignFeedback : Type := MkDesignFeedback {
  overallScore : Z;
  improvementSuggestions : list string;
  strengths : list string;
  analysis : DesignAnalysis
}.

Record AnalysisResult : Type := MkAnalysisResult {
  success : bool;
  feedback : DesignFeedback;
  result_analysis : option DesignAnalysis
}.

(** The average of the five sub-scores, rounded: the [overallScore] of
    [analyzeDesign]. *)
Definition overallOf (a : DesignAnalysis) : Z :=
  Math_round
    (IZR (textReadability a + colorScore a + layoutScore a
          + visualHierarchy a + spacingScore a) / 5).

Definition getDefaultAnalysis : DesignAnalysis :=
  MkDesignAnalysis "" getDefaultColors
    ["#FFFFFF"; "#333333"; "#007BFF"; "#6C757D"; "#FF6B6B"] 0 0 0 0 0 0.

Definition getFallbackResult : AnalysisResult :=
  MkAnalysisResult false
    (MkDesignFeedback 0
       ["Analysis failed. Please try with a clear design screenshot."]
       ["The design shows potential with its visual approach"]
       getDefaultAnalysis)
    None.

(** What a statement of the [try] block can throw. *)
Inductive Error : Type :=
| LoadError        (* the [error] event of a picture that does not decode *)
| IndexSizeError.  (* [getImageData] on an empty rectangle *)

Inductive Outcome (A : Type) : Type :=
| Returned (a : A)
| Thrown (e : Error).
Arguments Returned {A} a.
Arguments Thrown {A} e.

(** A [File] as the browser reads it: the picture it decodes to, or
    nothing when its bytes are not a picture. *)
Record File : Type := MkFile {
  decoded : option Image
}.

Definition loadImage (file : File) : Outcome Image :=
  match decoded file with
  | Some image => Returned image
  | None => Thrown LoadError
  end.

(** [this.ctx.getImageData(0, 0, this.canvas.width, this.canvas.height)]
    after [setupCanvas] gave the canvas the size of the picture. *)
Definition getImageData (image : Image) : Outcome Image :=
  if (width image <=? 0) || (height image <=? 0) then Thrown IndexSizeError
  else Returned image.

(** The body of the [try] block of [analyzeDesign]. *)
Definition analyzeDesignBody (imageFile : File) : Rand (Outcome AnalysisResult) :=
  match loadImage imageFile with
  | Thrown e => ret (Thrown e)
  | Returned image =>
    match getImageData image with
    | Thrown e => ret (Thrown e)
    | Returned imageData =>
      ('(dominantColors, palette, contrast) <- extractRealColorsAdvanced imageData ;;
       aiFeedback <- generateAdvancedHumanFeedback dominantColors palette contrast ;;
       let textReadability := calculateReadabilityScore contrast in
       let colorScore := calculateAdvancedColorScore palette dominantColors in
       let layoutScore := analyzeLayout (width image) (height image) in
       visualHierarchy <- analyzeVisualHierarchy ;;
       spacingScore <- analyzeSpacing ;;
       let analysis :=
         MkDesignAnalysis
           "Advanced analysis of design composition and visual elements"
           dominantColors palette contrast textReadability colorScore
           layoutScore visualHierarchy spacingScore in
       let overallScore := overallOf analysis in
       let feedback :=
         MkDesignFeedback overallScore (snd aiFeedback) (fst aiFeedback) analysis in
       ret (Returned (MkAnalysisResult true feedback (Some analysis))))%rand
    end
  end.

(** [analyzeDesign]: the [try] block, and [getFallbackResult] in the
    [catch]. *)
Definition analyzeDesign (imageFile : File) : Rand (Outcome AnalysisResult) :=
  (r <- analyzeDesignBody imageFile ;;
   ret match r with
       | Returned result => Returned result
       | Thrown _ => Returned getFallbackResult
       end)%rand.

End AIDesignAnalyzer.

(** ** The second analyzer: layout weights and weighted scores *)

Module AdvancedDesignAnalyzer.
Import JS Num Random.

Definition hexToRgb := Hex.hexToRgb.

Definition rgbToHex (r g b : Z) : string :=
  String "#" (concat "" (map (fun x =>
    let hex := toString16 x in
    if Nat.eqb (String.length hex) 1 then String "0" hex else hex) [r; g; b])).

(** The arrow function mapped over the channels in [getLuminance]. *)
Definition linearize (c : Z) : R :=
  let c := (IZR c / 255)%R in
  if Rle_dec c 0.03928 then (c / 12.92)%R
  else Rpower ((c + 0.055) / 1.055) 2.4.

Definition getLuminance (r g b : Z) : R :=
  let lr := linearize r in
  let lg := linearize g in
  let lb := linearize b in
  (0.2126 * lr + 0.7152 * lg + 0.0722 * lb)%R.

Definition getLuminanceFromHex (hex : string) : R :=
  let '(r, g, b) := Hex.channels hex in
  getLuminance r g b.

Definition getSaturation (r g b : Z) : R :=
  let max := (IZR (Z.max (Z.max r g) b) / 255)%R in
  let min := (IZR (Z.min (Z.min r g) b) / 255)%R in
  if Req_dec_T max 0 then 0%R else ((max - min) / max)%R.

Definition calculateColorContrast (hex1 hex2 : string) : R :=
  let lum1 := getLuminanceFromHex hex1 in
  let lum2 := getLuminanceFromHex hex2 in
  let brightest := Rmax lum1 lum2 in
  let darkest := Rmin lum1 lum2 in
  ((brightest + 0.05) / (darkest + 0.05))%R.

(** *** Layout *)

(** The array [quarters]: it is created as [[0, 0, 0, 0]] and keeps its
    four entries, top-left, top-right, bottom-left, bottom-right. *)
Record Quarters : Type := MkQuarters {
  q0 : R;
  q1 : R;
  q2 : R;
  q3 : R
}.

(** [quarters[quarterIndex] += weight]. *)
Definition addWeight (quarters : Quarters) (quarterIndex : Z) (weight : R) : Quarters :=
  match quarterIndex with
  | 0 => MkQuarters (q0 quarters + weight) (q1 quarters) (q2 quarters) (q3 quarters)
  | 1 => MkQuarters (q0 quarters) (q1 quarters + weight) (q2 quarters) (q3 quarters)
  | 2 => MkQuarters (q0 quarters) (q1 quarters) (q2 quarters + weight) (q3 quarters)
  | _ => MkQuarters (q0 quarters) (q1 quarters) (q2 quarters) (q3 quarters + weight)
  end.

(** The values of [i] in [for (let i = 0; i < bound; i += 2)]. *)
Definition everySecond (bound : Z) : list Z :=
  map (fun i => 2 * Z.of_nat i) (seq 0 (Z.to_nat ((bound + 1) / 2))).

(** The body of the inner loop of [analyzeVisualWeight].  A read outside
    the pixel array is [undefined] and makes the weight [NaN]; the
    quarters are then no longer four numbers, which is [None]. *)
Definition weighPixel (data : list Z) (width quarterWidth quarterHeight : Z)
    (y x : Z) (quarters : option Quarters) : option Quarters :=
  let index := (y * width + x) * 4 in
  match quarters, dataAt data index, dataAt data (index + 1), dataAt data (index + 2) with
  | Some quarters, Some r, Some g, Some b =>
      let luminance := getLuminance r g b in
      let saturation := getSaturation r g b in
      let weight := (luminance * (1 + saturation))%R in
      let quarterIndex :=
        (if x <? quarterWidth then 0 else 1) + (if y <? quarterHeight then 0 else 2) in
      Some (addWeight quarters quarterIndex weight)
  | _, _, _, _ => None
  end.

Definition analyzeVisualWeight (data : list Z) (width height : Z) : option Quarters :=
  let quarterWidth := width / 2 in
  let quarterHeight := height / 2 in
  fold_left
    (fun quarters y =>
       fold_left (fun quarters x => weighPixel data width quarterWidth quarterHeight y x quarters)
                 (everySecond width) quarters)
    (everySecond height) (Some (MkQuarters 0 0 0 0)).

(** [quarters.reduce((sum, val) => sum + val, 0)]. *)
Definition totalOf (quarters : Quarters) : R :=
  (0 + q0 quarters + q1 quarters + q2 quarters + q3 quarters)%R.

Definition calculateBalance (quarters : Quarters) : Z :=
  let total := totalOf quarters in
  if Req_dec_T total 0 then 50
  else
    let left := (q0 quarters + q2 quarters)%R in
    let right := (q1 quarters + q3 quarters)%R in
    let top := (q0 quarters + q1 quarters)%R in
    let bottom := (q2 quarters + q3 quarters)%R in
    let horizontalBalance := (100 - Rabs ((left - right) / total) * 100)%R in
    let verticalBalance := (100 - Rabs ((top - bottom) / total) * 100)%R in
    Math_round ((horizontalBalance + verticalBalance) / 2).

(** [x / y] where nothing keeps [y] from being zero: [None] is the [NaN]
    or the infinity of a zero divisor. *)
Definition divide (x y : R) : option R :=
  if Req_dec_T y 0 then None else Some (x / y)%R.

(** [100 - Math.abs(a - b) / Math.max(a, b) * 50]. *)
Definition pairSymmetry (a b : R) : option R :=
  match divide (Rabs (a - b)) (Rmax a b) with
  | Some d => Some (100 - d * 50)%R
  | None => None
  end.

Definition calculateSymmetry (quarters : Quarters) : option Z :=
  let topLeft := q0 quarters in
  let topRight := q1 quarters in
  let bottomLeft := q2 quarters in
  let bottomRight := q3 quarters in
  match pairSymmetry topLeft topRight, pairSymmetry topLeft bottomLeft,
        pairSymmetry topLeft bottomRight with
  | Some horizontalSymmetry, Some verticalSymmetry, Some diagonalSymmetry =>
      Some (Math_round ((horizontalSymmetry + verticalSymmetry + diagonalSymmetry) / 3))
  | _, _, _ => None
  end.

(** [calculateVisualWeight], in exact reals.  In the doubles of the code
    a variance that is small against the total is lost in the
    subtraction from 100, so weights that differ very little also score
    100; what is proved below are the bounds and the values where the
    weights are zero, equal, or all in one quarter. *)
Definition calculateVisualWeight (quarters : Quarters) : R :=
  let total := totalOf quarters in
  if Req_dec_T total 0 then 50%R
  else
    let sq := fun val => ((val - total / 4) ^ 2)%R in
    let variance :=
      ((0 + sq (q0 quarters) + sq (q1 quarters) + sq (q2 quarters)
          + sq (q3 quarters)) / 4)%R in
    Rmax 0 (100 - variance / total * 100).

(** *** Scores *)

(** The pairs [(palette[i], palette[j])] with [i < j], in loop order. *)
Fixpoint pairsOf (palette : list string) : list (string * string) :=
  match palette with
  | [] => []
  | c :: rest => (map (fun d => (c, d)) rest ++ pairsOf rest)%list
  end.

Definition calculateColorHarmony (palette : list string) : Z :=
  let harmonyScore :=
    fold_left (fun acc p =>
      let contrast := calculateColorContrast (fst p) (snd p) in
      if gtb contrast 2 && ltb contrast 8 then acc + 5 else acc)
      (pairsOf palette) 0 in
  Z.min 20 harmonyScore.

Definition calculateColorScore (palette : list string) : Z :=
  if (Z.of_nat (List.length palette) <? 3) then 40
  else
    let score := 50 in
    let score := score + Z.min (Z.of_nat (List.length palette) * 5) 30 in
    let score := score + calculateColorHarmony palette in
    Z.min 100 score.

Record TextAnalysis : Type := MkTextAnalysis {
  extractedText : string;
  wordCount : Z;
  hasHeadings : bool
}.

Record ColorAnalysis : Type := MkColorAnalysis {
  palette : list string
}.

(** [symmetry] is [None] when [calculateSymmetry] divided by zero. *)
Record LayoutAnalysis : Type := MkLayoutAnalysis {
  balance : R;
  symmetry : option R;
  gridQuality : R;
  visualWeight : R
}.

Record ContrastAnalysis : Type := MkContrastAnalysis {
  overallContrast : R;
  textContrast : R;
  elementContrast : R
}.

(** The scores; a field that [symmetry] feeds is an [option]. *)
Record Scores : Type := MkScores {
  overall : option Z;
  textReadability : R;
  colorScore : R;
  layoutScore : option R;
  visualHierarchy : R;
  spacingScore : R
}.

Definition calculateScores (textAnalysis : TextAnalysis)
    (colorAnalysis : ColorAnalysis) (layoutAnalysis : LayoutAnalysis)
    (contrastAnalysis : ContrastAnalysis) : Scores :=
  let textReadability :=
    IZR (Z.min 100
           (wordCount textAnalysis * 2 + (if hasHeadings textAnalysis then 30 else 10))) in
  let colorScore := IZR (calculateColorScore (palette colorAnalysis)) in
  let layoutScore :=
    match symmetry layoutAnalysis with
    | Some symmetry =>
        Some ((balance layoutAnalysis + symmetry + gridQuality layoutAnalysis) / 3)%R
    | None => None
    end in
  let visualHierarchy := visualWeight layoutAnalysis in
  let spacingScore := gridQuality layoutAnalysis in
  let overall :=
    match layoutScore with
    | Some layoutScore =>
        Some (Math_round
                (textReadability * 0.2 + colorScore * 0.25 + layoutScore * 0.3
                 + visualHierarchy * 0.15 + spacingScore * 0.1))
    | None => None
    end in
  MkScores overall textReadability colorScore layoutScore visualHierarchy spacingScore.

(** *** Colours of the second analyzer *)

(** What a run of a loop that may not end comes to. *)
Inductive Run (A : Type) : Type :=
| Done (a : A)
| TypeError    (* a method called on [undefined] *)
| OutOfFuel.   (* the loop was still running when the fuel was used up *)
Arguments Done {A} a.
Arguments TypeError {A}.
Arguments OutOfFuel {A}.

Definition quantizeColor (r g b : Z) : string :=
  let levels := 8 in
  let qr := r / levels * levels in
  let qg := g / levels * levels in
  let qb := b / levels * levels in
  rgbToHex qr qg qb.

Definition adjustColor (hex : string) (amount : Z) : string :=
  let '(r, g, b) := Hex.channels hex in
  let adjust := fun c => Z.min 255 (Z.max 0 (c + amount)) in
  rgbToHex (adjust r) (adjust g) (adjust b).

(** One turn of the loop of [findBestTextColor], on the pair
    [(bestContrast, bestColor)]. *)
Definition bestTextStep (bgLuminance : R) (st : R * string) (entry : string * Z)
  : R * string :=
  let color := fst entry in
  let luminance := getLuminanceFromHex color in
  let contrast :=
    if gtb bgLuminance luminance
    then ((bgLuminance + 0.05) / (luminance + 0.05))%R
    else ((luminance + 0.05) / (bgLuminance + 0.05))%R in
  if gtb contrast (fst st) && gtb contrast 2 then (contrast, color) else st.

Definition findBestTextColor (background : string) (colors : list (string * Z))
  : string :=
  let bgLuminance := getLuminanceFromHex background in
  let '(bestContrast, bestColor) :=
    fold_left (bestTextStep bgLuminance) (firstn 10 colors) (0%R, "#000000") in
  if leb 4.5 bestContrast then bestColor
  else if gtb bgLuminance 0.5 then "#000000" else "#FFFFFF".

Record DominantColors : Type := MkDominantColors {
  background : string;
  text : string;
  primary : string;
  secondary : string;
  accent : string
}.

(** [sortedColors.find(([color]) => ...)?.[0]]. *)
Definition findAccent (background : string) (sortedColors : list (string * Z))
  : option string :=
  option_map fst
    (find (fun entry =>
             let luminance := getLuminanceFromHex (fst entry) in
             gtb luminance 0.3 && ltb luminance 0.7
             && negb (String.eqb (fst entry) background))
          sortedColors).

Definition calculateDominantColors (sortedColors : list (string * Z)) : DominantColors :=
  match sortedColors with
  | [] => MkDominantColors "#FFFFFF" "#000000" "#000000" "#666666" "#FF0000"
  | (background, _) :: _ =>
      let textColor := findBestTextColor background sortedColors in
      let primary :=
        orString (option_map fst (nth_error sortedColors 1)) (adjustColor background 30) in
      let secondary :=
        orString (option_map fst (nth_error sortedColors 2)) (adjustColor background 50) in
      let accent := orString (findAccent background sortedColors) "#FF6B6B" in
      MkDominantColors background textColor primary secondary accent
  end.

(** The sampling loop of [analyzeColors], from index [i] on.  The three
    channels are written as a hexadecimal string before they are
    quantized, which fails on a channel that is [undefined]. *)
Fixpoint sampleColors (fuel : nat) (data : list Z) (step : Z) (i : Z)
    (colorMap : StrMap) : Run StrMap :=
  match fuel with
  | O => OutOfFuel
  | S fuel' =>
      if (i <? Z.of_nat (List.length data))
         && (Z.of_nat (List.length colorMap) <? 5000)
      then
        match dataAt data i, dataAt data (i + 1), dataAt data (i + 2) with
        | Some r, Some g, Some b =>
            let quantized := quantizeColor r g b in
            sampleColors fuel' data step (i + step * 4)
              (mapSet quantized
                 (match mapGet quantized colorMap with Some n => n | None => 0 end + 1)
                 colorMap)
        | _, _, _ => TypeError
        end
      else Done colorMap
  end.

(** What [analyzeColors] returns. *)
Record ColorReport : Type := MkColorReport {
  report_dominantColors : DominantColors;
  report_palette : list string;
  colorDistribution : list (string * Z)
}.

Definition analyzeColors (fuel : nat) (data : list Z) : Run ColorReport :=
  let sampleSize := 5000 in
  let step := Z.of_nat (List.length data) / 4 / sampleSize in
  match sampleColors fuel data step 0 [] with
  | Done colorMap =>
      let sortedColors := firstn 8 (sortBy (fun a b => snd b - snd a <=? 0) colorMap) in
      let palette := map fst sortedColors in
      let dominantColors := calculateDominantColors sortedColors in
      Done (MkColorReport dominantColors palette (firstn 5 sortedColors))
  | TypeError => TypeError
  | OutOfFuel => OutOfFuel
  end.

(** [setupCanvas]: the size the canvas takes for a picture of size
    [imageWidth] by [imageHeight].  The canvas keeps the whole part of a
    size it is given. *)
Definition canvasScale (imageWidth imageHeight : Z) : R :=
  let longer := Z.max imageWidth imageHeight in
  if longer =? 0 then 1%R else Rmin 1 (800 / IZR longer).

Definition setupCanvas (imageWidth imageHeight : Z) : Z * Z :=
  let scale := canvasScale imageWidth imageHeight in
  (Math_floor (IZR imageWidth * scale), Math_floor (IZR imageHeight * scale)).

(** *** Edges, grid lines and text regions *)

(** The values of [i] in [for (let i = start; i < bound; i += step)],
    for a positive [step]. *)
Definition countUp (start bound step : Z) : list Z :=
  map (fun k => start + step * Z.of_nat k)
      (seq 0 (Z.to_nat ((bound - start + step - 1) / step))).

(** The luminance of the pixel that starts at [index]; [None] is the
    [NaN] that a channel read outside the array gives. *)
Definition luminanceAt (data : list Z) (index : Z) : option R :=
  match dataAt data index, dataAt data (index + 1), dataAt data (index + 2) with
  | Some r, Some g, Some b => Some (getLuminance r g b)
  | _, _, _ => None
  end.

Definition getPixelLuminance (data : list Z) (width x y : Z) : option R :=
  luminanceAt data ((y * width + x) * 4).

(** The pairs [(dy, dx)] of the two nested loops from -1 to 1, without
    [(0, 0)]. *)
Definition neighbours : list (Z * Z) :=
  [ (-1, -1); (-1, 0); (-1, 1); (0, -1); (0, 1); (1, -1); (1, 0); (1, 1) ].

(** [Math.abs(a - b) > threshold]; false when one side is [NaN]. *)
Definition differsBy (threshold : R) (a b : option R) : bool :=
  match a, b with
  | Some a, Some b => gtb (Rabs (a - b)) threshold
  | _, _ => false
  end.

Definition isPixelEdge (data : list Z) (width x y : Z) (threshold : R) : bool :=
  let currentLuminance := luminanceAt data ((y * width + x) * 4) in
  existsb (fun d =>
             let neighborLuminance :=
               luminanceAt data (((y + fst d) * width + (x + snd d)) * 4) in
             differsBy threshold currentLuminance neighborLuminance)
          neighbours.

(** One turn of the inner loop of [detectAlignmentLines], on the pair
    [(lineScore, consecutive)]. *)
Definition lineStep (data : list Z) (width height x : Z) (st : Z * Z) (y : Z) : Z * Z :=
  let '(lineScore, consecutive) := st in
  if isPixelEdge data width x y 30 then (lineScore, consecutive + 1)
  else ((if gtb (IZR consecutive) (IZR height * 0.1) then lineScore + 5 else lineScore), 0).

Definition detectAlignmentLines (data : list Z) (width height : Z) : Z :=
  let lineScore :=
    fold_left (fun lineScore x =>
                 fst (fold_left (lineStep data width height x)
                                (countUp 1 (height - 1) 1) (lineScore, 0)))
              (countUp 0 width 10) 0 in
  Z.min 30 lineScore.

Definition analyzeGridAlignment (data : list Z) (width height : Z) : Z :=
  let alignmentScore := 50 in
  let alignmentScore := alignmentScore + detectAlignmentLines data width height in
  Z.min 100 (Z.max 0 alignmentScore).

(** [analyzeLayout], on the pixel array of the canvas.  It is [None]
    where [analyzeVisualWeight] read outside the array and the quarters
    are not four numbers. *)
Definition analyzeLayout (data : list Z) (width height : Z) : option LayoutAnalysis :=
  match analyzeVisualWeight data width height with
  | Some quarters =>
      let balance := calculateBalance quarters in
      let symmetry := calculateSymmetry quarters in
      let gridQuality := analyzeGridAlignment data width height in
      Some (MkLayoutAnalysis (IZR balance) (option_map IZR symmetry) (IZR gridQuality)
                             (calculateVisualWeight quarters))
  | None => None
  end.

(** A [Set<number>]: membership and insertion. *)
Definition has (index : Z) (set : list Z) : bool := existsb (Z.eqb index) set.
Definition add (index : Z) (set : list Z) : list Z :=
  if has index set then set else (set ++ [index])%list.

(** The loop of [growTextRegion] on its queue, the shared set [visited]
    and the region so far; it returns the region and [visited]. *)
Fixpoint growLoop (fuel : nat) (data : list Z) (width height : Z) (threshold : R)
    (queue : list (Z * Z)) (visited region : list Z) : option (list Z * list Z) :=
  match fuel with
  | O => None
  | S fuel' =>
      match queue with
      | [] => Some (region, visited)
      | (x, y) :: queue =>
          let index := (y * width + x) * 4 in
          if has index visited || (x <? 0) || (x >=? width) || (y <? 0) || (y >=? height)
          then growLoop fuel' data width height threshold queue visited region
          else
            let visited := add index visited in
            let region := add index region in
            let pushed :=
              flat_map (fun d =>
                          let newX := x + snd d in
                          let newY := y + fst d in
                          let newIndex := (newY * width + newX) * 4 in
                          if negb (has newIndex visited)
                             && isPixelEdge data width newX newY threshold
                          then [(newX, newY)] else [])
                       neighbours in
            growLoop fuel' data width height threshold (queue ++ pushed)%list visited region
      end
  end.

Definition growTextRegion (fuel : nat) (data : list Z) (width height : Z)
    (startX startY : Z) (visited : list Z) (threshold : R)
  : option (list Z * list Z) :=
  growLoop fuel data width height threshold [(startX, startY)] visited [].

(** The body of the inner loop of [detectTextRegions], on the pair
    [(regions, visited)]; [None] once a region ran out of fuel. *)
Definition regionStep (fuel : nat) (data : list Z) (width height : Z) (y : Z)
    (st : option (list (list Z) * list Z)) (x : Z) : option (list (list Z) * list Z) :=
  match st with
  | None => None
  | Some (regions, visited) =>
      let threshold := 50%R in
      let index := (y * width + x) * 4 in
      if has index visited then st
      else if isPixelEdge data width x y threshold then
        match growTextRegion fuel data width height x y visited threshold with
        | Some (region, visited) =>
            if Z.of_nat (List.length region) >? 10
            then Some ((regions ++ [region])%list, visited)
            else Some (regions, visited)
        | None => None
        end
      else st
  end.

Definition detectTextRegions (fuel : nat) (data : list Z) (width height : Z)
  : option (list (list Z)) :=
  option_map fst
    (fold_left (fun st y =>
                  fold_left (regionStep fuel data width height y)
                            (countUp 1 (width - 1) 3) st)
               (countUp 1 (height - 1) 3) (Some ([], []))).

Definition textTemplates : list string :=
  [ "Clean modern design with good visual hierarchy and balanced composition.";
    "Professional layout with clear information architecture and intuitive navigation.";
    "Contemporary design featuring strategic use of white space and typography.";
    "User-centered design with emphasis on accessibility and visual appeal." ].

Definition simulateTextFromRegions (regions : list (list Z)) : Rand string :=
  match regions with
  | [] => ret "Visual design detected. Consider adding text content for better communication."
  | _ => pick textTemplates ""
  end.

Definition advancedCanvasTextDetection (fuel : nat) (data : list Z) (width height : Z)
  : Rand (option string) :=
  match detectTextRegions fuel data width height with
  | None => ret None
  | Some textRegions =>
      bind (simulateTextFromRegions textRegions) (fun simulatedText =>
        ret (Some (orString (Some simulatedText)
                     "Text analysis completed. Focus on visual design elements.")))
  end.

(** *** Measured contrast *)

(** [(Math.max(lum1, lum2) + 0.05) / (Math.min(lum1, lum2) + 0.05)]
    on two luminances that may be [NaN]. *)
Definition ratioOf (lum1 lum2 : option R) : option R :=
  match lum1, lum2 with
  | Some lum1, Some lum2 => divide (Rmax lum1 lum2 + 0.05) (Rmin lum1 lum2 + 0.05)
  | _, _ => None
  end.

(** The body of [for (let i = 0; i < samplePoints; i++)] in
    [sampleContrast]. *)
Definition contrastSample (data : list Z) (width height : Z)
    (contrasts : list (option R)) : Rand (list (option R)) :=
  (u1 <- Math_random ;;
   u2 <- Math_random ;;
   u3 <- Math_random ;;
   u4 <- Math_random ;;
   let x1 := Math_floor (u1 * IZR (width - 10)) in
   let y1 := Math_floor (u2 * IZR (height - 10)) in
   let x2 := Math_floor (u3 * IZR (width - 10)) in
   let y2 := Math_floor (u4 * IZR (height - 10)) in
   let lum1 := getPixelLuminance data width x1 y1 in
   let lum2 := getPixelLuminance data width x2 y2 in
   ret (contrasts ++ [ratioOf lum1 lum2])%list)%rand.

Definition sampleContrast (data : list Z) (width height : Z) : Rand (list (option R)) :=
  times 100 (contrastSample data width height) [].

(** [contrasts.reduce((sum, c) => sum + c, 0)]. *)
Definition sumOf (contrasts : list (option R)) : option R :=
  fold_left (fun sum c =>
               match sum, c with
               | Some sum, Some c => Some (sum + c)%R
               | _, _ => None
               end)
            contrasts (Some 0%R).

Definition calculateOverallContrast (contrasts : list (option R)) : option R :=
  match sumOf contrasts with
  | Some sum =>
      match divide sum (IZR (Z.of_nat (List.length contrasts))) with
      | Some avgContrast => Some (Rmin 21 (Rmax 1 avgContrast))
      | None => None
      end
  | None => None
  end.

(** The two nested loops of [calculateLocalContrast] on the pair
    [(minLum, maxLum)]; [None] once a luminance was [NaN]. *)
Definition localStep (data : list Z) (width x y : Z) (st : option (R * R))
    (d : Z * Z) : option (R * R) :=
  match st, getPixelLuminance data width (x + snd d) (y + fst d) with
  | Some (minLum, maxLum), Some lum => Some (Rmin minLum lum, Rmax maxLum lum)
  | _, _ => None
  end.

(** The pairs [(dy, dx)] of the two nested loops from [-radius] to
    [radius]. *)
Definition window (radius : Z) : list (Z * Z) :=
  flat_map (fun dy => map (fun dx => (dy, dx)) (countUp (- radius) (radius + 1) 1))
           (countUp (- radius) (radius + 1) 1).

Definition calculateLocalContrast (data : list Z) (width x y radius : Z) : option R :=
  match fold_left (localStep data width x y) (window radius) (Some (1%R, 0%R)) with
  | Some (minLum, maxLum) => divide (maxLum + 0.05) (minLum + 0.05)
  | None => None
  end.

(** One turn of the inner loop of [estimateTextContrast], on the pair
    [(textContrast, sampleCount)]: a local contrast that is [NaN] fails
    the test [> 3]. *)
Definition textContrastStep (data : list Z) (width y : Z) (st : R * Z) (x : Z) : R * Z :=
  match calculateLocalContrast data width x y 5 with
  | Some localContrast =>
      if gtb localContrast 3 then ((fst st + localContrast)%R, snd st + 1) else st
  | None => st
  end.

Definition estimateTextContrast (data : list Z) (width height : Z) : R :=
  let '(textContrast, sampleCount) :=
    fold_left (fun st y =>
                 fold_left (textContrastStep data width y) (countUp 10 (width - 10) 20) st)
              (countUp 10 (height - 10) 20) (0%R, 0) in
  if sampleCount >? 0 then (textContrast / IZR sampleCount)%R else 4.5%R.

Record ContrastReport : Type := MkContrastReport {
  report_overallContrast : option R;
  report_textContrast : R;
  report_elementContrast : option R
}.

Definition analyzeContrast (data : list Z) (width height : Z) : Rand ContrastReport :=
  (contrastSamples <- sampleContrast data width height ;;
   let overallContrast := calculateOverallContrast contrastSamples in
   let textContrast := estimateTextContrast data width height in
   ret (MkContrastReport overallContrast textContrast
          (match overallContrast with
           | Some overallContrast => Some (overallContrast * 0.8 + textContrast * 0.2)%R
           | None => None
           end)))%rand.

End AdvancedDesignAnalyzer.

(** ** The quantizer on integers

    [colorDistance] is a square root of an integer; the comparisons of
    the search loop give the same answers on the integers under the
    root.  This copy of the loop can be run. *)

Module Quantize.
Import AIDesignAnalyzer.

Definition distanceSq (hex1 hex2 : string) : Z :=
  let '(r1, g1, b1) := Hex.channels hex1 in
  let '(r2, g2, b2) := Hex.channels hex2 in
  (r1 - r2) ^ 2 + (g1 - g2) ^ 2 + (b1 - b2) ^ 2.

Definition stepSq (hex : string) (st : string * option Z) (webColor : string)
  : string * option Z :=
  let distance := distanceSq hex webColor in
  if match snd st with Some m => distance <? m | None => true end
  then (webColor, Some distance) else st.

Definition nearestInSq (palette : list string) (c0 : string) (hex : string) : string :=
  fst (fold_left (stepSq hex) palette (c0, None)).

End Quantize.

(** ** Pictures and draws used as inputs *)

Module Inputs.
Import AIDesignAnalyzer Random.

(** The pixel array of a [w] by [h] picture of one colour. *)
Definition uniformData (r g b a : Z) (w h : Z) : list Z :=
  List.concat (repeat [r; g; b; a] (Z.to_nat (w * h))).

Definition uniformImage (r g b a : Z) (w h : Z) : Image :=
  MkImage w h (uniformData r g b a w h).

(** A generator that returns the same draw [u] every time. *)
Definition constantRng (u : R) (Hu : (0 <= u < 1)%R) : Rng :=
  MkRng (fun _ => u) (fun _ => Hu).

Lemma zero_in_range : (0 <= 0 < 1)%R.
Proof. lra. Qed.

Lemma half_in_range : (0 <= / 2 < 1)%R.
Proof. lra. Qed.

Definition rngZero : Rng := constantRng 0 zero_in_range.
Definition rngHalf : Rng := constantRng (/ 2) half_in_range.

End Inputs.

(** ** How many draws a computation reads *)

Module Reads.
Import Random.

(** Two generators agree on the [k] draws from cursor [n] on. *)
Definition agree (g1 g2 : Rng) (n k : nat) : Prop :=
  forall i, (n <= i < n + k)%nat -> draw g1 i = draw g2 i.

(** [m] reads at most the next [k] draws: generators that agree on them
    give the same result and the same cursor, which moves forward by at
    most [k]. *)
Definition reads {A : Type} (k : nat) (m : Rand A) : Prop :=
  forall g1 g2 n,
    agree g1 g2 n k ->
    m g1 n = m g2 n /\ (n <= snd (m g1 n) <= n + k)%nat.

(** The draws one call of [analyzeDesign] can read: two for each of
    the 800 samples of the five regions, one for a synthesized primary
    colour, eleven for the texts, one for each of the two random
    scores. *)
Definition drawsOfAnalysis : nat := 5 * (800 * 2) + 1 + (2 + 2 + 3 + 4) + 1 + 1.

End Reads.

(** ** The palette as the specification words it

    The ten most frequent quantized colours, made distinct, sorted by
    falling lightness and cut to twelve. *)

Module PaletteSpec.
Import Num AIDesignAnalyzer.

Definition lighterFirst (a b : string) : bool :=
  leb (getLightness b - getLightness a) 0.

Definition paletteOfTopColors (allColors : list string) : list string :=
  firstn 12 (sortBy lighterFirst (unique (topColorsOf allColors))).

End PaletteSpec.

(** ** What a caller of [analyzeDesign] can observe *)

Module Observed.
Import AIDesignAnalyzer Random.

(** The file decodes to a picture that is not empty. *)
Definition usable (file : File) : Prop :=
  exists image, decoded file = Some image /\ 0 < width image /\ 0 < height image.

Definition inScore (x : Z) : Prop := 0 <= x <= 100.

(** A result of a completed analysis: marked as a success, the analysis
    given at both places, every sub-score and the overall score a score,
    and the overall score the rounded average of the sub-scores. *)
Definition populated (r : AnalysisResult) : Prop :=
  let a := analysis (feedback r) in
  success r = true /\
  result_analysis r = Some a /\
  overallScore (feedback r) = overallOf a /\
  inScore (textReadability a) /\ inScore (colorScore a) /\
  inScore (layoutScore a) /\ inScore (visualHierarchy a) /\
  inScore (spacingScore a) /\ inScore (overallScore (feedback r)).

(** A generator that returns 0 for the draws of one analysis and a half
    after them. *)
Definition lateDraw (i : nat) : R :=
  if Nat.ltb i Reads.drawsOfAnalysis then 0%R else (/ 2)%R.

Lemma lateDraw_range i : (0 <= lateDraw i < 1)%R.
Proof. unfold lateDraw. destruct (Nat.ltb i Reads.drawsOfAnalysis); lra. Qed.

Definition rngLate : Rng := MkRng lateDraw lateDraw_range.

(** A file that holds a picture of one red pixel, and one that does not
    decode. *)
Definition redPixelFile : File := MkFile (Some (Inputs.uniformImage 255 0 0 255 1 1)).
Definition corruptFile : File := MkFile None.

End Observed.

(** ** The WCAG 2.x relative luminance, as the standard words it

    On channels normalised to [[0,1]]: a channel [c] is made linear as
    [c / 12.92] when [c <= 0.03928] and as [((c + 0.055) / 1.055) ^ 2.4]
    otherwise; the luminance weighs red, green and blue by 0.2126, 0.7152
    and 0.0722. *)

Module WCAG.

Definition linear (c : R) : R :=
  if Rle_dec c 0.03928 then (c / 12.92)%R
  else Rpower ((c + 0.055) / 1.055) 2.4.

Definition luminance (r g b : R) : R :=
  (0.2126 * linear r + 0.7152 * linear g + 0.0722 * linear b)%R.

End WCAG.

(** ** Notions used in the statements and their proofs *)

Section HexNotions.
Import JS.

(** What one channel needs to survive the round trip through a padding
    function [pad]: two hexadecimal digits that parse back to it. *)
Definition byteCheck (pad : string -> string) (x : Z) : bool :=
  match pad (toString16 x) with
  | String a (String b EmptyString) =>
      isHexDigit a && isHexDigit b && (parseInt16 (String a (String b "")) =? x)
  | _ => false
  end.

Definition padLength1 (hex : string) : string :=
  if Nat.eqb (String.length hex) 1 then String "0" hex else hex.

End HexNotions.

Section QuantizeNotions.
Import Num AIDesignAnalyzer.

(** The state of the search on reals and its copy on integers. *)
Definition sameState (hex : string) (st : string * ext) (sz : string * option Z) : Prop :=
  fst st = fst sz /\
  match snd st, snd sz with
  | Infinity, None => True
  | Finite d, Some n => exists w, n = Quantize.distanceSq hex w /\ d = colorDistance hex w
  | _, _ => False
  end.

(** What the search has found after a prefix [l] of the palette. *)
Definition found (hex : string) (l : list string) (st : string * ext) : Prop :=
  exists i,
    nth_error l i = Some (fst st) /\
    snd st = Finite (colorDistance hex (fst st)) /\
    (forall j w, (j < i)%nat -> nth_error l j = Some w ->
       (colorDistance hex (fst st) < colorDistance hex w)%R) /\
    (forall w, In w l -> (colorDistance hex (fst st) <= colorDistance hex w)%R).

End QuantizeNotions.

Section LayoutNotions.
Import AdvancedDesignAnalyzer.

(** Four weights none of which is negative. *)
Definition nonNegative (q : Quarters) : Prop :=
  (0 <= q0 q /\ 0 <= q1 q /\ 0 <= q2 q /\ 0 <= q3 q)%R.

End LayoutNotions.

(** A sub-score: a number from 0 to 100. *)
Definition isScore (x : R) : Prop := (0 <= x <= 100)%R.

Section SamplingNotions.
Import AIDesignAnalyzer.

(** A region that lies within the picture and is not empty. *)
Definition inside (w h : Z) (region : Region) : Prop :=
  (0 <= region_x region /\ 0 < region_w region /\
   region_x region + region_w region <= IZR w /\
   0 <= region_y region /\ 0 < region_h region /\
   region_y region + region_h region <= IZR h)%R.

End SamplingNotions.

(** A pixel array as a [Uint8ClampedArray] holds it: every entry a
    byte. *)
Definition bytes (data : list Z) : Prop := Forall (fun c => 0 <= c <= 255) data.


(** The pixel array of a [width] by [height] picture, as
    [getImageData] returns it: four bytes for every pixel. *)
Definition imageData (data : list Z) (width height : Z) : Prop :=
  bytes data /\ Z.of_nat (List.length data) = 4 * (width * height).

(** A measured contrast that is a number from 1 to 21. *)
Definition ratioInRange (c : option R) : Prop :=
  exists x, c = Some x /\ (1 <= x <= 21)%R.

(** What the two loops of [estimateTextContrast] keep true of the sum
    and the count. *)
Definition textState (data : list Z) (st : R * Z) : Prop :=
  (snd st = 0 /\ fst st = 0%R) \/
  (0 < snd st /\ (3 * IZR (snd st) < fst st)%R /\
   (bytes data -> (fst st <= 21 * IZR (snd st))%R)).

(** ** Properties *)

(** *** Hexadecimal conversion *)

Section HexBytes.
Import JS.

Lemma byteCheck_all (pad : string -> string) :
  forallb (byteCheck pad) (map Z.of_nat (seq 0 256)) = true ->
  forall x, 0 <= x <= 255 -> byteCheck pad x = true.
Proof.
  intros Hall x Hx.
  rewrite forallb_forall in Hall.
  apply Hall.
  replace x with (Z.of_nat (Z.to_nat x)) by lia.
  apply in_map, in_seq. lia.
Qed.

Lemma byteCheck_padStart2 x : 0 <= x <= 255 -> byteCheck padStart2 x = true.
Proof. apply byteCheck_all. vm_compute. reflexivity. Qed.

Lemma byteCheck_padLength1 x : 0 <= x <= 255 -> byteCheck padLength1 x = true.
Proof. apply byteCheck_all. vm_compute. reflexivity. Qed.

Lemma byteCheck_shape pad x :
  byteCheck pad x = true ->
  exists a b, pad (toString16 x) = String a (String b EmptyString) /\
              isHexDigit a = true /\ isHexDigit b = true /\
              parseInt16 (String a (String b "")) = x.
Proof.
  unfold byteCheck.
  destruct (pad (toString16 x)) as [|a [|b [|c s]]]; try discriminate.
  intros H. apply andb_prop in H as [H Hp]. apply andb_prop in H as [Ha Hb].
  exists a, b. repeat split; auto. now apply Z.eqb_eq.
Qed.

(** Three well-formed channels, written after a [#], read back. *)
Lemma hexToRgb_of_bytes pad r g b :
  byteCheck pad r = true -> byteCheck pad g = true -> byteCheck pad b = true ->
  Hex.hexToRgb (String "#" (concat "" (map (fun x => pad (toString16 x)) [r; g; b])))
  = [r; g; b].
Proof.
  intros Hr Hg Hb.
  destruct (byteCheck_shape _ _ Hr) as (r1 & r2 & Er & Hr1 & Hr2 & Pr).
  destruct (byteCheck_shape _ _ Hg) as (g1 & g2 & Eg & Hg1 & Hg2 & Pg).
  destruct (byteCheck_shape _ _ Hb) as (b1 & b2 & Eb & Hb1 & Hb2 & Pb).
  cbn [map concat]. rewrite Er, Eg, Eb. cbn [append].
  unfold Hex.hexToRgb, execHex.
  cbn [forallb]. rewrite Hr1, Hr2, Hg1, Hg2, Hb1, Hb2. cbn [andb].
  now rewrite Pr, Pg, Pb.
Qed.

(** [execHex] accepts exactly the language [hexPattern]. *)
Lemma execHex_complete hex : hexPattern hex -> execHex hex <> None.
Proof.
  intros (ds & Hlen & Hds & Hhex).
  destruct ds as [|a [|b [|c [|d [|e [|f [|x ds]]]]]]]; try discriminate.
  assert (Hne : a <> "#"%char).
  { intros ->. cbn in Hds. discriminate. }
  unfold execHex.
  destruct Hhex as [-> | ->]; cbn [string_of_list_ascii].
  - destruct (ascii_dec a "#") as [E | _]; [contradiction|].
    assert (Hbody : match String a (String b (String c (String d (String e (String f ""))))) with
                    | String "#" rest => rest
                    | _ => String a (String b (String c (String d (String e (String f "")))))
                    end = String a (String b (String c (String d (String e (String f "")))))).
    { destruct a as [[] [] [] [] [] [] [] []]; try reflexivity. now elim Hne. }
    rewrite Hbody, Hds. discriminate.
  - rewrite Hds. discriminate.
Qed.

Lemma hexToRgb_no_match hex : ~ hexPattern hex -> Hex.hexToRgb hex = [0; 0; 0].
Proof.
  intros Hn. unfold Hex.hexToRgb.
  destruct (execHex hex) as [[[g1 g2] g3]|] eqn:E; [|reflexivity].
  exfalso. apply Hn. clear Hn.
  unfold execHex in E.
  set (body := match hex with String "#" rest => rest | _ => hex end) in E.
  assert (Hb : hex = body \/ hex = String "#" body).
  { subst body. destruct hex as [|c rest]; auto.
    destruct c as [[] [] [] [] [] [] [] []]; auto. }
  destruct body as [|a [|b [|c [|d [|e [|f [|x s]]]]]]]; try discriminate.
  destruct (forallb isHexDigit [a; b; c; d; e; f]) eqn:F; try discriminate.
  exists [a; b; c; d; e; f]. repeat split; auto.
Qed.

End HexBytes.

(** C10. For bytes [r], [g], [b], reading back what [rgbToHex] writes
    gives [[r, g, b]] again, in the analyzer the claim names and in its
    sibling; and [hexToRgb] is [[0, 0, 0]] on every string that is not an
    optional [#] and six hexadecimal digits. *)
Theorem hex_round_trip :
  (forall r g b, 0 <= r <= 255 -> 0 <= g <= 255 -> 0 <= b <= 255 ->
     AIDesignAnalyzer.hexToRgb (AIDesignAnalyzer.rgbToHex r g b) = [r; g; b] /\
     AdvancedDesignAnalyzer.hexToRgb (AdvancedDesignAnalyzer.rgbToHex r g b) = [r; g; b])
  /\
  (forall hex, ~ JS.hexPattern hex ->
     AIDesignAnalyzer.hexToRgb hex = [0; 0; 0] /\
     AdvancedDesignAnalyzer.hexToRgb hex = [0; 0; 0]).
Proof.
  split.
  - intros r g b Hr Hg Hb. split.
    + apply (hexToRgb_of_bytes JS.padStart2); now apply byteCheck_padStart2.
    + apply (hexToRgb_of_bytes padLength1); now apply byteCheck_padLength1.
  - intros hex Hn. split; now apply hexToRgb_no_match.
Qed.

Lemma hex_round_trip_witness :
  (AIDesignAnalyzer.hexToRgb (AIDesignAnalyzer.rgbToHex 255 10 0) = [255; 10; 0] /\
   AdvancedDesignAnalyzer.hexToRgb (AdvancedDesignAnalyzer.rgbToHex 255 10 0) = [255; 10; 0])
  /\ (AIDesignAnalyzer.hexToRgb "#12345" = [0; 0; 0] /\
      AdvancedDesignAnalyzer.hexToRgb "#12345" = [0; 0; 0]).
Proof.
  split.
  - apply (proj1 hex_round_trip 255 10 0); lia.
  - apply (proj2 hex_round_trip "#12345").
    intros (ds & Hlen & Hds & [H | H]).
    + destruct ds as [|a [|b [|c [|d [|e [|f [|x ds]]]]]]];
        cbn in Hlen, H; try discriminate Hlen.
      inversion H; subst. cbn in Hds. discriminate Hds.
    + destruct ds as [|a [|b [|c [|d [|e [|f [|x ds]]]]]]];
        cbn in Hlen, H; try discriminate Hlen; discriminate H.
Defined.

(** *** Luminance and contrast *)

Section Luminance.
Import JS.
Local Open Scope R_scope.

Lemma digit_bound c :
  match HexString.ascii_to_digit c with
  | Some v => (v <= 15)%N
  | None => True
  end.
Proof.
  destruct c as [[] [] [] [] [] [] [] []]; vm_compute; try exact I; discriminate.
Qed.

Lemma parseInt16_pair_range a b :
  (0 <= parseInt16 (String a (String b EmptyString)) <= 255)%Z.
Proof.
  unfold parseInt16. cbn [HexString.Raw.to_N].
  pose proof (digit_bound a) as Ha. pose proof (digit_bound b) as Hb.
  destruct (HexString.ascii_to_digit a) as [va|];
    destruct (HexString.ascii_to_digit b) as [vb|]; lia.
Qed.

(** Every channel [hexToRgb] returns is a byte. *)
Lemma channels_range hex :
  let '(r, g, b) := Hex.channels hex in
  (0 <= r <= 255 /\ 0 <= g <= 255 /\ 0 <= b <= 255)%Z.
Proof.
  unfold Hex.channels, Hex.hexToRgb, execHex.
  set (body := match hex with String "#" rest => rest | _ => hex end).
  destruct body as [|a [|b [|c [|d [|e [|f [|x s]]]]]]]; try (cbn; lia).
  destruct (forallb isHexDigit [a; b; c; d; e; f]); [|cbn; lia].
  repeat split; apply parseInt16_pair_range.
Qed.

Lemma wcag_linear_nonneg c : 0 <= c -> 0 <= WCAG.linear c.
Proof.
  intros Hc. unfold WCAG.linear.
  destruct (Rle_dec c 0.03928).
  - lra.
  - unfold Rpower. left. apply exp_pos.
Qed.

Lemma wcag_linear_0 : WCAG.linear 0 = 0.
Proof.
  unfold WCAG.linear. destruct (Rle_dec 0 0.03928); lra.
Qed.

Lemma wcag_linear_1 : WCAG.linear 1 = 1.
Proof.
  unfold WCAG.linear. destruct (Rle_dec 1 0.03928); [lra|].
  replace ((1 + 0.055) / 1.055) with 1 by lra.
  unfold Rpower. rewrite ln_1, Rmult_0_r. apply exp_0.
Qed.

Lemma wcag_luminance_nonneg r g b :
  0 <= r -> 0 <= g -> 0 <= b -> 0 <= WCAG.luminance r g b.
Proof.
  intros Hr Hg Hb. unfold WCAG.luminance.
  pose proof (wcag_linear_nonneg r Hr). pose proof (wcag_linear_nonneg g Hg).
  pose proof (wcag_linear_nonneg b Hb). lra.
Qed.

Lemma byte_unit (c : Z) : (0 <= c <= 255)%Z -> 0 <= IZR c / 255 <= 1.
Proof.
  intros [H0 H1]. apply IZR_le in H0, H1. lra.
Qed.

(** Both analyzers compute the luminance of the standard. *)
Lemma getLuminance_wcag hex :
  AIDesignAnalyzer.getLuminance hex =
  let '(r, g, b) := Hex.channels hex in
  WCAG.luminance (IZR r / 255) (IZR g / 255) (IZR b / 255).
Proof.
  unfold AIDesignAnalyzer.getLuminance. destruct (Hex.channels hex) as [[r g] b].
  reflexivity.
Qed.

Lemma getLuminance_rgb_wcag r g b :
  AdvancedDesignAnalyzer.getLuminance r g b =
  WCAG.luminance (IZR r / 255) (IZR g / 255) (IZR b / 255).
Proof. reflexivity. Qed.

Lemma getLuminance_nonneg hex : 0 <= AIDesignAnalyzer.getLuminance hex.
Proof.
  rewrite getLuminance_wcag. pose proof (channels_range hex) as H.
  destruct (Hex.channels hex) as [[r g] b]. destruct H as (Hr & Hg & Hb).
  apply wcag_luminance_nonneg; now apply byte_unit.
Qed.

Lemma getLuminanceFromHex_eq hex :
  AdvancedDesignAnalyzer.getLuminanceFromHex hex = AIDesignAnalyzer.getLuminance hex.
Proof.
  unfold AdvancedDesignAnalyzer.getLuminanceFromHex, AIDesignAnalyzer.getLuminance.
  destruct (Hex.channels hex) as [[r g] b]. reflexivity.
Qed.

(** The ratio of the brighter to the darker of two non-negative
    luminances, each raised by 0.05. *)
Lemma ratio_ge_1 l1 l2 :
  0 <= l1 -> 0 <= l2 -> 1 <= (Rmax l1 l2 + 0.05) / (Rmin l1 l2 + 0.05).
Proof.
  intros H1 H2.
  assert (Hmin : 0 <= Rmin l1 l2) by (apply Rmin_glb; assumption).
  assert (Hle : Rmin l1 l2 <= Rmax l1 l2).
  { eapply Rle_trans; [apply Rmin_l | apply Rmax_l]. }
  apply Rmult_le_reg_r with (Rmin l1 l2 + 0.05); [lra|].
  unfold Rdiv. rewrite Rmult_assoc, Rinv_l by lra. lra.
Qed.

Lemma calculateColorContrast_eq a b :
  AdvancedDesignAnalyzer.calculateColorContrast a b =
  AIDesignAnalyzer.calculateContrastRatio a b.
Proof.
  unfold AdvancedDesignAnalyzer.calculateColorContrast,
    AIDesignAnalyzer.calculateContrastRatio.
  now rewrite !getLuminanceFromHex_eq.
Qed.

Lemma calculateContrastRatio_sym a b :
  AIDesignAnalyzer.calculateContrastRatio a b =
  AIDesignAnalyzer.calculateContrastRatio b a.
Proof.
  unfold AIDesignAnalyzer.calculateContrastRatio. cbv zeta.
  now rewrite (Rmax_comm (AIDesignAnalyzer.getLuminance a)),
    (Rmin_comm (AIDesignAnalyzer.getLuminance a)).
Qed.

Lemma calculateContrastRatio_ge_1 a b :
  1 <= AIDesignAnalyzer.calculateContrastRatio a b.
Proof.
  apply ratio_ge_1; apply getLuminance_nonneg.
Qed.

Lemma luminance_of_black : AIDesignAnalyzer.getLuminance "#000000" = 0.
Proof.
  rewrite getLuminance_wcag. change (Hex.channels "#000000") with (0, 0, 0)%Z.
  unfold WCAG.luminance. replace (IZR 0 / 255) with 0 by lra.
  rewrite wcag_linear_0. lra.
Qed.

Lemma luminance_of_white : AIDesignAnalyzer.getLuminance "#FFFFFF" = 1.
Proof.
  rewrite getLuminance_wcag. change (Hex.channels "#FFFFFF") with (255, 255, 255)%Z.
  unfold WCAG.luminance. replace (IZR 255 / 255) with 1 by lra.
  rewrite wcag_linear_1. lra.
Qed.

Lemma luminance_of_rgb_black : AdvancedDesignAnalyzer.getLuminance 0 0 0 = 0.
Proof.
  rewrite getLuminance_rgb_wcag. unfold WCAG.luminance.
  replace (IZR 0 / 255) with 0 by lra. rewrite wcag_linear_0. lra.
Qed.

Lemma luminance_of_rgb_white : AdvancedDesignAnalyzer.getLuminance 255 255 255 = 1.
Proof.
  rewrite getLuminance_rgb_wcag. unfold WCAG.luminance.
  replace (IZR 255 / 255) with 1 by lra. rewrite wcag_linear_1. lra.
Qed.

End Luminance.

(** C5. The contrast ratio of two colours does not depend on their order
    and is at least 1, in [calculateContrastRatio] and in
    [calculateColorContrast]. *)
Theorem contrast_symmetric_at_least_1 (a b : string) :
  AIDesignAnalyzer.calculateContrastRatio a b
    = AIDesignAnalyzer.calculateContrastRatio b a /\
  (1 <= AIDesignAnalyzer.calculateContrastRatio a b)%R /\
  AdvancedDesignAnalyzer.calculateColorContrast a b
    = AdvancedDesignAnalyzer.calculateColorContrast b a /\
  (1 <= AdvancedDesignAnalyzer.calculateColorContrast a b)%R.
Proof.
  rewrite (calculateColorContrast_eq a b), (calculateColorContrast_eq b a).
  pose proof (calculateContrastRatio_sym a b).
  pose proof (calculateContrastRatio_ge_1 a b).
  tauto.
Qed.

(** C6. Both [getLuminance] functions are the relative luminance of
    WCAG 2.x on the channels divided by 255: linear below 0.03928, the
    2.4-th power above, weighted 0.2126, 0.7152 and 0.0722.  Black has
    luminance 0 and white has luminance 1. *)
Theorem luminance_is_wcag :
  (forall hex,
     AIDesignAnalyzer.getLuminance hex =
     let '(r, g, b) := Hex.channels hex in
     WCAG.luminance (IZR r / 255) (IZR g / 255) (IZR b / 255)) /\
  (forall r g b,
     AdvancedDesignAnalyzer.getLuminance r g b =
     WCAG.luminance (IZR r / 255) (IZR g / 255) (IZR b / 255)) /\
  AIDesignAnalyzer.getLuminance "#000000" = 0%R /\
  AIDesignAnalyzer.getLuminance "#FFFFFF" = 1%R /\
  AdvancedDesignAnalyzer.getLuminance 0 0 0 = 0%R /\
  AdvancedDesignAnalyzer.getLuminance 255 255 255 = 1%R.
Proof.
  refine (conj _ (conj _ (conj _ (conj _ (conj _ _))))).
  - apply getLuminance_wcag.
  - apply getLuminance_rgb_wcag.
  - apply luminance_of_black.
  - apply luminance_of_white.
  - apply luminance_of_rgb_black.
  - apply luminance_of_rgb_white.
Qed.

(** *** Quantization *)

Section Quantization.
Import AIDesignAnalyzer Num.

Lemma distanceSq_nonneg a b : 0 <= Quantize.distanceSq a b.
Proof.
  unfold Quantize.distanceSq.
  destruct (Hex.channels a) as [[r1 g1] b1], (Hex.channels b) as [[r2 g2] b2]. nia.
Qed.

Lemma colorDistance_sqrt a b :
  colorDistance a b = sqrt (IZR (Quantize.distanceSq a b)).
Proof.
  unfold colorDistance, Quantize.distanceSq.
  destruct (Hex.channels a) as [[r1 g1] b1], (Hex.channels b) as [[r2 g2] b2].
  reflexivity.
Qed.

Lemma colorDistance_lt hex a b :
  (colorDistance hex a < colorDistance hex b)%R <->
  Quantize.distanceSq hex a < Quantize.distanceSq hex b.
Proof.
  rewrite !colorDistance_sqrt.
  pose proof (distanceSq_nonneg hex a) as Ha.
  pose proof (distanceSq_nonneg hex b) as Hb.
  split; intros H.
  - apply lt_IZR. apply sqrt_lt_0; auto using IZR_le.
  - apply sqrt_lt_1; auto using IZR_le, IZR_lt.
Qed.

Lemma ltb_true x y : ltb x y = true <-> (x < y)%R.
Proof. unfold ltb. destruct (Rlt_dec x y); split; intros; auto; discriminate. Qed.

Lemma ltb_false x y : ltb x y = false <-> (y <= x)%R.
Proof.
  unfold ltb. destruct (Rlt_dec x y); split; intros; auto; try discriminate; lra.
Qed.

Lemma gtb_true x y : gtb x y = true <-> (x > y)%R.
Proof. unfold gtb. destruct (Rgt_dec x y); split; intros; auto; discriminate. Qed.

Lemma gtb_false x y : gtb x y = false <-> (x <= y)%R.
Proof.
  unfold gtb. destruct (Rgt_dec x y); split; intros; auto; try discriminate; lra.
Qed.

Lemma leb_true x y : leb x y = true <-> (x <= y)%R.
Proof. unfold leb. destruct (Rle_dec x y); split; intros; auto; discriminate. Qed.

Lemma quantizeStep_sameState hex st sz w :
  sameState hex st sz ->
  sameState hex (quantizeStep hex st w) (Quantize.stepSq hex sz w).
Proof.
  destruct st as [c m], sz as [c' n]. intros [Hc Hm]. cbn in Hc, Hm. subst c'.
  unfold quantizeStep, Quantize.stepSq. cbn [snd].
  destruct m as [d|], n as [n|]; try contradiction.
  - destruct Hm as (w0 & -> & ->). cbn [lt_ext].
    destruct (Quantize.distanceSq hex w <? Quantize.distanceSq hex w0) eqn:E.
    + apply Z.ltb_lt, colorDistance_lt, ltb_true in E. rewrite E.
      split; cbn; eauto.
    + apply Z.ltb_ge in E.
      assert (F : ltb (colorDistance hex w) (colorDistance hex w0) = false).
      { apply ltb_false. apply Rnot_lt_le. intros H.
        apply colorDistance_lt in H. lia. }
      rewrite F. split; cbn; eauto.
  - cbn [lt_ext]. split; cbn; eauto.
Qed.

Lemma nearestIn_sq palette c0 hex :
  nearestIn palette c0 hex = Quantize.nearestInSq palette c0 hex.
Proof.
  unfold nearestIn, Quantize.nearestInSq.
  assert (H : sameState hex (c0, Infinity) (c0, None)) by (split; cbn; auto).
  revert H. generalize (c0, Infinity) (c0, @None Z).
  induction palette as [|w l IH]; intros st sz H; cbn [fold_left].
  - apply H.
  - apply IH. now apply quantizeStep_sameState.
Qed.

Lemma search_found hex c0 (l : list string) :
  l <> [] -> found hex l (fold_left (quantizeStep hex) l (c0, Infinity)).
Proof.
  induction l as [|x l IH] using rev_ind; [congruence|]. intros _.
  rewrite fold_left_app. cbn [fold_left].
  destruct l as [|y l'].
  - cbn. unfold quantizeStep. cbn.
    exists 0%nat. cbn. repeat split.
    + intros j w Hj. lia.
    + intros w [<- | []]. lra.
  - specialize (IH ltac:(discriminate)).
    set (l := (y :: l')) in *.
    destruct IH as (i & Hi & Hd & Hbefore & Hall).
    destruct (fold_left (quantizeStep hex) l (c0, Infinity)) as [c m].
    cbn [fst snd] in *. subst m.
    unfold quantizeStep. cbn [snd lt_ext].
    destruct (ltb (colorDistance hex x) (colorDistance hex c)) eqn:E.
    + apply ltb_true in E. exists (List.length l). cbn [fst snd].
      repeat split.
      * rewrite nth_error_app2 by lia. now rewrite Nat.sub_diag.
      * intros j w Hj Hw. rewrite nth_error_app1 in Hw by lia.
        apply nth_error_In in Hw. specialize (Hall w Hw). lra.
      * intros w Hw. apply in_app_or in Hw as [Hw | [<- | []]].
        -- specialize (Hall w Hw). lra.
        -- lra.
    + apply ltb_false in E. exists i. cbn [fst snd].
      assert (Hlt : (i < List.length l)%nat).
      { apply nth_error_Some. congruence. }
      repeat split.
      * rewrite nth_error_app1 by lia. assumption.
      * intros j w Hj Hw. rewrite nth_error_app1 in Hw by lia. eauto.
      * intros w Hw. apply in_app_or in Hw as [Hw | [<- | []]]; auto.
Qed.

End Quantization.

(** C8. [quantizeToWebColors] returns an entry of the reference palette
    that is nearest to the colour in Euclidean RGB distance, and the
    first such entry in the order of the palette: every entry before it
    is strictly farther.  Being a function of the colour alone, it gives
    the same entry for the same colour. *)
Theorem quantize_nearest_first (hex : string) :
  let q := AIDesignAnalyzer.quantizeToWebColors hex in
  (forall hex1 hex2,
     AIDesignAnalyzer.colorDistance hex1 hex2 =
     let '(r1, g1, b1) := Hex.channels hex1 in
     let '(r2, g2, b2) := Hex.channels hex2 in
     sqrt (IZR ((r1 - r2) ^ 2 + (g1 - g2) ^ 2 + (b1 - b2) ^ 2))) /\
  exists i,
    nth_error AIDesignAnalyzer.webColors i = Some q /\
    (forall w, In w AIDesignAnalyzer.webColors ->
       (AIDesignAnalyzer.colorDistance hex q <= AIDesignAnalyzer.colorDistance hex w)%R) /\
    (forall j w, (j < i)%nat -> nth_error AIDesignAnalyzer.webColors j = Some w ->
       (AIDesignAnalyzer.colorDistance hex q < AIDesignAnalyzer.colorDistance hex w)%R).
Proof.
  cbv zeta. split; [reflexivity|].
  destruct (search_found hex (nth 0 AIDesignAnalyzer.webColors "")
              AIDesignAnalyzer.webColors ltac:(discriminate))
    as (i & Hi & _ & Hbefore & Hall).
  exists i. repeat split; assumption.
Qed.

Example quantize_ex1 : AIDesignAnalyzer.quantizeToWebColors "#00ff00" = "#00FF00".
Proof.
  unfold AIDesignAnalyzer.quantizeToWebColors. rewrite nearestIn_sq. reflexivity.
Qed.

Example quantize_ex2 : AIDesignAnalyzer.quantizeToWebColors "#fe0102" = "#FF0000".
Proof.
  unfold AIDesignAnalyzer.quantizeToWebColors. rewrite nearestIn_sq. reflexivity.
Qed.

(** *** Rounding *)

Section Rounding.
Import JS.
Local Open Scope R_scope.

Lemma Math_round_near x : Rabs (IZR (Math_round x) - x) <= / 2.
Proof.
  unfold Math_round. destruct (base_Int_part (x + / 2)) as [H1 H2].
  apply Rabs_le. lra.
Qed.

Lemma Math_round_range x lo hi :
  IZR lo <= x <= IZR hi -> (lo <= Math_round x <= hi)%Z.
Proof.
  intros [Hlo Hhi]. unfold Math_round.
  destruct (base_Int_part (x + / 2)) as [H1 H2].
  split.
  - apply Z.lt_succ_r, Z.lt_pred_lt_succ, lt_IZR.
    unfold Z.pred. rewrite plus_IZR. cbn. lra.
  - apply Z.lt_succ_r, lt_IZR. unfold Z.succ. rewrite plus_IZR. cbn. lra.
Qed.

Lemma Math_round_IZR z : Math_round (IZR z) = z.
Proof.
  unfold Math_round. symmetry. apply Int_part_spec. lra.
Qed.

End Rounding.

(** *** Balance and symmetry *)

Section Layout.
Import JS AdvancedDesignAnalyzer.
Local Open Scope R_scope.

Lemma Rabs_div_le a t : 0 < t -> Rabs a <= t -> 0 <= Rabs (a / t) <= 1.
Proof.
  intros Ht Ha. unfold Rdiv. rewrite Rabs_mult, (Rabs_pos_eq (/ t)).
  - pose proof (Rabs_pos a). pose proof (Rinv_0_lt_compat t Ht) as Hi. split.
    + apply Rmult_le_pos; lra.
    + apply Rmult_le_reg_r with t; [assumption|].
      rewrite Rmult_assoc, Rinv_l by lra. lra.
  - left. now apply Rinv_0_lt_compat.
Qed.

(** For non-negative weights the balance is a score. *)
Lemma calculateBalance_range q :
  nonNegative q -> (0 <= calculateBalance q <= 100)%Z.
Proof.
  intros (H0 & H1 & H2 & H3). unfold calculateBalance, totalOf.
  destruct (Req_dec_T (0 + q0 q + q1 q + q2 q + q3 q) 0) as [E | E]; [lia|].
  set (t := 0 + q0 q + q1 q + q2 q + q3 q) in *.
  assert (Ht : 0 < t) by (subst t; lra).
  apply Math_round_range.
  assert (Hh : 0 <= Rabs ((q0 q + q2 q - (q1 q + q3 q)) / t) <= 1).
  { apply Rabs_div_le; [assumption|]. apply Rabs_le. subst t. lra. }
  assert (Hv : 0 <= Rabs ((q0 q + q1 q - (q2 q + q3 q)) / t) <= 1).
  { apply Rabs_div_le; [assumption|]. apply Rabs_le. subst t. lra. }
  lra.
Qed.

Lemma pairSymmetry_range a b s :
  0 <= a -> 0 <= b -> pairSymmetry a b = Some s -> 50 <= s <= 100.
Proof.
  intros Ha Hb. unfold pairSymmetry, divide.
  destruct (Req_dec_T (Rmax a b) 0) as [E | E]; [discriminate|].
  intros [= <-].
  assert (Hm : 0 < Rmax a b).
  { pose proof (Rmax_l a b). pose proof (Rmax_r a b).
    destruct (Rle_lt_or_eq_dec 0 (Rmax a b)); [lra| assumption | congruence]. }
  assert (Hd : 0 <= Rabs ((a - b) / Rmax a b) <= 1).
  { apply Rabs_div_le; [assumption|]. apply Rabs_le.
    pose proof (Rmax_l a b). pose proof (Rmax_r a b). lra. }
  unfold Rdiv in Hd. rewrite Rabs_mult, (Rabs_pos_eq (/ Rmax a b)) in Hd.
  - unfold Rdiv. lra.
  - left. now apply Rinv_0_lt_compat.
Qed.

(** Where the symmetry is a number, it is a score. *)
Lemma calculateSymmetry_range q s :
  nonNegative q -> calculateSymmetry q = Some s -> (50 <= s <= 100)%Z.
Proof.
  intros (H0 & H1 & H2 & H3). unfold calculateSymmetry.
  destruct (pairSymmetry (q0 q) (q1 q)) as [h|] eqn:Eh; [|discriminate].
  destruct (pairSymmetry (q0 q) (q2 q)) as [v|] eqn:Ev; [|discriminate].
  destruct (pairSymmetry (q0 q) (q3 q)) as [d|] eqn:Ed; [|discriminate].
  intros [= <-].
  apply pairSymmetry_range in Eh, Ev, Ed; try assumption.
  apply Math_round_range. lra.
Qed.

Lemma pairSymmetry_None a b :
  0 <= a -> 0 <= b -> (pairSymmetry a b = None <-> a = 0 /\ b = 0).
Proof.
  intros Ha Hb. unfold pairSymmetry, divide.
  pose proof (Rmax_l a b) as Hl. pose proof (Rmax_r a b) as Hr.
  destruct (Req_dec_T (Rmax a b) 0) as [E | E]; split; intros Hn; auto.
  - lra.
  - discriminate.
  - destruct Hn as [-> ->]. exfalso. apply E. now rewrite Rmax_left by lra.
Qed.

(** The symmetry is a number exactly when no compared pair is zero on
    both sides. *)
Lemma calculateSymmetry_defined q :
  nonNegative q ->
  (exists s, calculateSymmetry q = Some s) <->
  (0 < q0 q \/ (0 < q1 q /\ 0 < q2 q /\ 0 < q3 q)).
Proof.
  intros (H0 & H1 & H2 & H3).
  pose proof (pairSymmetry_None _ _ H0 H1) as P1.
  pose proof (pairSymmetry_None _ _ H0 H2) as P2.
  pose proof (pairSymmetry_None _ _ H0 H3) as P3.
  unfold calculateSymmetry.
  destruct (pairSymmetry (q0 q) (q1 q)) as [h|].
  2:{ destruct P1 as [P1 _]. specialize (P1 eq_refl).
      split; [intros [s Hs]; discriminate | lra]. }
  destruct (pairSymmetry (q0 q) (q2 q)) as [v|].
  2:{ destruct P2 as [P2 _]. specialize (P2 eq_refl).
      split; [intros [s Hs]; discriminate | lra]. }
  destruct (pairSymmetry (q0 q) (q3 q)) as [d|].
  2:{ destruct P3 as [P3 _]. specialize (P3 eq_refl).
      split; [intros [s Hs]; discriminate | lra]. }
  split; [intros _ | eauto].
  destruct (Req_dec_T (q0 q) 0) as [E | E]; [right | left; lra].
  assert (q1 q <> 0) by (intros F; destruct P1 as [_ P1]; now specialize (P1 (conj E F))).
  assert (q2 q <> 0) by (intros F; destruct P2 as [_ P2]; now specialize (P2 (conj E F))).
  assert (q3 q <> 0) by (intros F; destruct P3 as [_ P3]; now specialize (P3 (conj E F))).
  lra.
Qed.

(** Four equal weights above zero: both scores are 100. *)
Lemma equal_weights_100 w :
  0 < w ->
  calculateBalance (MkQuarters w w w w) = 100%Z /\
  calculateSymmetry (MkQuarters w w w w) = Some 100%Z.
Proof.
  intros Hw. split.
  - unfold calculateBalance, totalOf. cbn [q0 q1 q2 q3].
    destruct (Req_dec_T (0 + w + w + w + w) 0) as [E | E]; [lra|].
    replace ((w + w - (w + w)) / (0 + w + w + w + w)) with 0
      by (unfold Rdiv; ring).
    rewrite Rabs_R0.
    replace ((100 - 0 * 100 + (100 - 0 * 100)) / 2) with (IZR 100) by lra.
    apply Math_round_IZR.
  - unfold calculateSymmetry, pairSymmetry, divide. cbn [q0 q1 q2 q3].
    rewrite Rmax_left by lra.
    destruct (Req_dec_T w 0) as [E | E]; [lra|].
    replace (w - w) with 0 by ring. rewrite Rabs_R0.
    replace ((100 - 0 / w * 50 + (100 - 0 / w * 50) + (100 - 0 / w * 50)) / 3)
      with (IZR 100) by (unfold Rdiv; rewrite Rmult_0_l; lra).
    now rewrite Math_round_IZR.
Qed.

End Layout.

(** *** The overall score *)

(** Where the layout score is a number and the five sub-scores are
    scores, the overall score of [calculateScores] is their sum weighted
    0.2, 0.25, 0.3, 0.15 and 0.1, rounded to a nearest integer, and that of
    [AIDesignAnalyzer.analyzeDesign] is their plain average, rounded
    likewise; both are then scores too. *)
Lemma overall_score_weighted :
  (forall t c l k,
     let s := AdvancedDesignAnalyzer.calculateScores t c l k in
     forall ls,
       AdvancedDesignAnalyzer.layoutScore s = Some ls ->
       isScore (AdvancedDesignAnalyzer.textReadability s) ->
       isScore (AdvancedDesignAnalyzer.colorScore s) ->
       isScore ls ->
       isScore (AdvancedDesignAnalyzer.visualHierarchy s) ->
       isScore (AdvancedDesignAnalyzer.spacingScore s) ->
       exists o,
         AdvancedDesignAnalyzer.overall s = Some o /\
         (Rabs (IZR o -
                (0.2 * AdvancedDesignAnalyzer.textReadability s
                 + 0.25 * AdvancedDesignAnalyzer.colorScore s
                 + 0.3 * ls
                 + 0.15 * AdvancedDesignAnalyzer.visualHierarchy s
                 + 0.1 * AdvancedDesignAnalyzer.spacingScore s)) <= / 2)%R /\
         0 <= o <= 100)
  /\
  (forall a : AIDesignAnalyzer.DesignAnalysis,
     isScore (IZR (AIDesignAnalyzer.textReadability a)) ->
     isScore (IZR (AIDesignAnalyzer.colorScore a)) ->
     isScore (IZR (AIDesignAnalyzer.layoutScore a)) ->
     isScore (IZR (AIDesignAnalyzer.visualHierarchy a)) ->
     isScore (IZR (AIDesignAnalyzer.spacingScore a)) ->
     let o := AIDesignAnalyzer.overallOf a in
     (Rabs (IZR o -
            (IZR (AIDesignAnalyzer.textReadability a)
             + IZR (AIDesignAnalyzer.colorScore a)
             + IZR (AIDesignAnalyzer.layoutScore a)
             + IZR (AIDesignAnalyzer.visualHierarchy a)
             + IZR (AIDesignAnalyzer.spacingScore a)) / 5) <= / 2)%R /\
     0 <= o <= 100).
Proof.
  split.
  - intros t c l k s ls Hls Ht Hc Hl Hv Hs.
    unfold AdvancedDesignAnalyzer.calculateScores in s.
    destruct (AdvancedDesignAnalyzer.symmetry l) as [sym|] eqn:Esym;
      subst s; cbn in Hls; [|discriminate].
    injection Hls as Hls. cbn in Ht, Hc, Hv, Hs |- *. unfold isScore in *.
    rewrite Hls.
    eexists. split; [reflexivity|]. split.
    + match goal with
      | |- (Rabs (IZR (JS.Math_round ?x) - ?y) <= _)%R =>
          replace y with x by lra; apply Math_round_near
      end.
    + apply Math_round_range. lra.
  - intros a Ht Hc Hl Hv Hs o. unfold isScore in *. subst o.
    unfold AIDesignAnalyzer.overallOf. rewrite !plus_IZR. split.
    + apply Math_round_near.
    + apply Math_round_range. lra.
Qed.

Lemma overall_score_weighted_witness :
  (exists o,
     AdvancedDesignAnalyzer.overall
       (AdvancedDesignAnalyzer.calculateScores
          (AdvancedDesignAnalyzer.MkTextAnalysis "" 10 true)
          (AdvancedDesignAnalyzer.MkColorAnalysis [])
          (AdvancedDesignAnalyzer.MkLayoutAnalysis 100 (Some 100%R) 50 50)
          (AdvancedDesignAnalyzer.MkContrastAnalysis 1 1 1)) = Some o /\
     0 <= o <= 100)
  /\
  0 <= AIDesignAnalyzer.overallOf
         (AIDesignAnalyzer.MkDesignAnalysis "" AIDesignAnalyzer.getDefaultColors []
            1 50 80 75 65 70) <= 100.
Proof.
  split.
  - destruct (proj1 overall_score_weighted
                (AdvancedDesignAnalyzer.MkTextAnalysis "" 10 true)
                (AdvancedDesignAnalyzer.MkColorAnalysis [])
                (AdvancedDesignAnalyzer.MkLayoutAnalysis 100 (Some 100%R) 50 50)
                (AdvancedDesignAnalyzer.MkContrastAnalysis 1 1 1)
                ((100 + 100 + 50) / 3)%R)
      as (o & Ho & _ & Hrange);
      try reflexivity; try (unfold isScore; cbn; lra).
    exists o. split; assumption.
  - apply (proj2 overall_score_weighted
             (AIDesignAnalyzer.MkDesignAnalysis "" AIDesignAnalyzer.getDefaultColors []
                1 50 80 75 65 70));
      unfold isScore; cbn; lra.
Defined.

(** *** Reading draws *)

Section ReadingDraws.
Import Random Reads.

Lemma agree_weaken g1 g2 n k n' k' :
  agree g1 g2 n k -> (n <= n')%nat -> (n' + k' <= n + k)%nat -> agree g1 g2 n' k'.
Proof. intros H Hn Hk i Hi. apply H. lia. Qed.

Lemma reads_weaken {A} (m : Rand A) k k' :
  reads k m -> (k <= k')%nat -> reads k' m.
Proof.
  intros Hm Hk g1 g2 n Hag.
  destruct (Hm g1 g2 n) as [E Hc]; [eapply agree_weaken; eauto; lia|].
  split; [assumption | lia].
Qed.

Lemma reads_ret {A} (a : A) : reads 0 (ret a).
Proof. intros g1 g2 n _. cbn. split; [reflexivity | lia]. Qed.

Lemma reads_random : reads 1 Math_random.
Proof.
  intros g1 g2 n Hag. unfold Math_random. cbn. split; [|lia].
  f_equal. apply Hag. lia.
Qed.

Lemma reads_bind {A B} (m : Rand A) (f : A -> Rand B) k1 k2 :
  reads k1 m -> (forall a, reads k2 (f a)) -> reads (k1 + k2) (bind m f).
Proof.
  intros Hm Hf g1 g2 n Hag. unfold bind.
  destruct (Hm g1 g2 n) as [E Hc]; [eapply agree_weaken; eauto; lia|].
  rewrite <- E. destruct (m g1 n) as [a n']. cbn [snd] in Hc.
  destruct (Hf a g1 g2 n') as [E' Hc']; [eapply agree_weaken; eauto; lia|].
  split; [assumption | lia].
Qed.

Lemma reads_times {S} (body : S -> Rand S) k n :
  (forall s, reads k (body s)) -> forall s, reads (n * k) (times n body s).
Proof.
  intros Hb. induction n as [|n IH]; intros s; cbn [times].
  - apply reads_ret.
  - cbn [Nat.mul]. apply reads_bind; auto.
Qed.

Lemma reads_pick {A} (array : list A) d : reads 1 (pick array d).
Proof.
  unfold pick. change 1%nat with (1 + 0)%nat.
  apply reads_bind; [apply reads_random | intros u; apply reads_ret].
Qed.

Lemma reads_orStringElse s m k : reads k m -> reads k (orStringElse s m).
Proof.
  intros Hm. unfold orStringElse.
  destruct s as [[|c v]|]; auto; eapply reads_weaken; [apply reads_ret | lia].
Qed.

Ltac reads_chain :=
  repeat lazymatch goal with
         | |- reads _ (bind _ _) => eapply reads_bind; [|intro]
         | |- reads _ (ret _) => apply reads_ret
         | |- reads _ Math_random => apply reads_random
         | |- reads _ (pick _ _) => apply reads_pick
         end.

Import AIDesignAnalyzer.

Lemma reads_sampleOnce data w h region colors :
  reads 2 (sampleOnce data w h region colors).
Proof.
  unfold sampleOnce. eapply reads_weaken; [reads_chain | lia].
Qed.

Lemma reads_forEachRegion body k :
  (forall r s, reads k (body r s)) ->
  forall rs s, reads (List.length rs * k) (forEachRegion rs body s).
Proof.
  intros Hb rs. induction rs as [|r rs IH]; intros s; cbn [forEachRegion].
  - apply reads_ret.
  - cbn [List.length Nat.mul]. apply reads_bind; auto.
Qed.

Lemma reads_sampleStrategicRegions data w h :
  reads (5 * (800 * 2)) (sampleStrategicRegions data w h).
Proof.
  unfold sampleStrategicRegions.
  apply (reads_forEachRegion _ (800 * 2) ) with (rs := regions w h).
  intros r s. apply reads_times. intros colors. apply reads_sampleOnce.
Qed.

Lemma reads_calculateAdvancedDominantColors colors :
  reads 1 (calculateAdvancedDominantColors colors).
Proof.
  unfold calculateAdvancedDominantColors.
  destruct colors as [|c colors].
  - eapply reads_weaken; [apply reads_ret | lia].
  - change 1%nat with (1 + 0)%nat. apply reads_bind.
    + apply reads_orStringElse. apply reads_pick.
    + intros primary. apply reads_ret.
Qed.

Lemma reads_extractRealColorsAdvanced imageData :
  reads (5 * (800 * 2) + 1) (extractRealColorsAdvanced imageData).
Proof.
  unfold extractRealColorsAdvanced.
  apply reads_bind; [apply reads_sampleStrategicRegions|]. intros allColors.
  change 1%nat with (1 + 0)%nat.
  apply reads_bind; [apply reads_calculateAdvancedDominantColors|].
  intros d. apply reads_ret.
Qed.

Lemma reads_fillUpTo n gen items : reads 1 gen -> reads n (fillUpTo n gen items).
Proof.
  intros Hg. unfold fillUpTo.
  eapply reads_weaken.
  - apply reads_times with (k := 1%nat). intros acc.
    change 1%nat with (1 + 0)%nat.
    apply reads_bind; [assumption | intros x; apply reads_ret].
  - lia.
Qed.

Lemma reads_generateAdvancedHumanFeedback colors palette contrast :
  reads (2 + 2 + 3 + 4) (generateAdvancedHumanFeedback colors palette contrast).
Proof.
  unfold generateAdvancedHumanFeedback, generateLayoutFeedback, generateUXFeedback,
    randomChoice.
  assert (Hpair : forall xs ys : list string,
            reads 2 (bind (pick xs "") (fun s =>
                     bind (pick ys "") (fun g => ret ([s], [g]))))).
  { intros xs ys. eapply reads_weaken; [reads_chain | lia]. }
  apply reads_weaken with (k := (2 + (2 + (3 + (4 + 0))))%nat); [|lia].
  cbv zeta.
  apply reads_bind; [apply Hpair | intros layoutFeedback; cbv zeta].
  apply reads_bind; [apply Hpair | intros uxFeedback; cbv zeta].
  unfold generateRandomStrength, generateRandomSuggestion, randomChoice.
  apply reads_bind; [apply reads_fillUpTo, reads_pick | intros uniqueStrengths].
  apply reads_bind; [apply reads_fillUpTo, reads_pick | intros uniqueSuggestions].
  apply reads_ret.
Qed.

Lemma reads_analyzeDesignBody imageFile :
  reads drawsOfAnalysis (analyzeDesignBody imageFile).
Proof.
  unfold analyzeDesignBody, drawsOfAnalysis.
  destruct (loadImage imageFile) as [image | e];
    [|eapply reads_weaken; [apply reads_ret | lia]].
  destruct (getImageData image) as [imageData | e];
    [|eapply reads_weaken; [apply reads_ret | lia]].
  eapply reads_weaken.
  - eapply reads_bind; [apply reads_extractRealColorsAdvanced|].
    intros [[d p] c].
    eapply reads_bind; [apply reads_generateAdvancedHumanFeedback | intro].
    unfold analyzeVisualHierarchy, analyzeSpacing. reads_chain.
  - lia.
Qed.

Lemma reads_analyzeDesign imageFile :
  reads drawsOfAnalysis (analyzeDesign imageFile).
Proof.
  unfold analyzeDesign.
  replace drawsOfAnalysis with (drawsOfAnalysis + 0)%nat by lia.
  apply reads_bind; [apply reads_analyzeDesignBody | intros r; apply reads_ret].
Qed.

End ReadingDraws.

(** *** Sampling a picture of one colour *)

Section UniformSampling.
Import JS Num Random AIDesignAnalyzer Inputs.

Lemma Math_floor_range v w :
  (0 <= v < IZR w)%R -> 0 <= Math_floor v < w.
Proof.
  intros [H0 H1]. unfold Math_floor.
  destruct (base_Int_part v) as [Hl Hu]. split.
  - apply Z.lt_succ_r, Z.lt_pred_lt_succ, lt_IZR.
    unfold Z.pred. rewrite plus_IZR. cbn. lra.
  - apply lt_IZR. lra.
Qed.

Lemma Math_floor_IZR_plus z v :
  (0 <= v < 1)%R -> Math_floor (IZR z + v) = z.
Proof.
  intros Hv. unfold Math_floor. symmetry. apply Int_part_spec. lra.
Qed.

Lemma nth_error_concat_repeat (px : list Z) count k j :
  List.length px = 4%nat -> (k < count)%nat -> (j < 4)%nat ->
  nth_error (List.concat (repeat px count)) (4 * k + j) = nth_error px j.
Proof.
  intros Hpx. revert k. induction count as [|count IH]; intros k Hk Hj; [lia|].
  cbn [repeat List.concat]. destruct k as [|k].
  - rewrite nth_error_app1 by lia. f_equal; lia.
  - rewrite nth_error_app2 by lia. rewrite Hpx.
    replace (4 * S k + j - 4)%nat with (4 * k + j)%nat by lia.
    apply IH; lia.
Qed.

Lemma dataAt_uniform r g b a w h x y j :
  0 <= x < w -> 0 <= y < h -> 0 <= j < 4 ->
  dataAt (uniformData r g b a w h) ((y * w + x) * 4 + j)
  = nth_error [r; g; b; a] (Z.to_nat j).
Proof.
  intros Hx Hy Hj. unfold dataAt, uniformData.
  assert (Hk : 0 <= y * w + x < w * h) by nia.
  destruct ((y * w + x) * 4 + j <? 0) eqn:E; [apply Z.ltb_lt in E; lia|].
  replace (Z.to_nat ((y * w + x) * 4 + j))
    with (4 * Z.to_nat (y * w + x) + Z.to_nat j)%nat by lia.
  apply nth_error_concat_repeat; [reflexivity | lia | lia].
Qed.

Lemma sampleAt_uniform r g b a w h x y :
  a > 128 -> isGray r g b = false ->
  0 <= x < w -> 0 <= y < h ->
  sampleAt (uniformData r g b a w h) w h x y = Some (rgbToHex r g b).
Proof.
  intros Ha Hgray Hx Hy. unfold sampleAt.
  replace (x <? w) with true by (symmetry; apply Z.ltb_lt; lia).
  replace (y <? h) with true by (symmetry; apply Z.ltb_lt; lia).
  cbn [andb].
  pose proof (dataAt_uniform r g b a w h x y 0 Hx Hy ltac:(lia)) as D0.
  pose proof (dataAt_uniform r g b a w h x y 1 Hx Hy ltac:(lia)) as D1.
  pose proof (dataAt_uniform r g b a w h x y 2 Hx Hy ltac:(lia)) as D2.
  pose proof (dataAt_uniform r g b a w h x y 3 Hx Hy ltac:(lia)) as D3.
  rewrite Z.add_0_r in D0.
  change (Z.to_nat 0) with 0%nat in D0. change (Z.to_nat 1) with 1%nat in D1.
  change (Z.to_nat 2) with 2%nat in D2. change (Z.to_nat 3) with 3%nat in D3.
  cbn [nth_error] in D0, D1, D2, D3.
  rewrite D0, D1, D2, D3.
  replace (a >? 128) with true by (symmetry; apply Z.gtb_lt; lia).
  now rewrite Hgray.
Qed.

Lemma regions_inside w h :
  0 < w -> 0 < h -> Forall (inside w h) (regions w h).
Proof.
  intros Hw Hh. apply IZR_lt in Hw, Hh. unfold regions, inside.
  repeat (apply Forall_cons; [cbn [region_x region_y region_w region_h]; lra|]).
  apply Forall_nil.
Qed.

Lemma draw_in_region (g : Rng) i lo len bound :
  (0 <= lo -> 0 < len -> lo + len <= IZR bound ->
   0 <= lo + draw g i * len < IZR bound)%R.
Proof.
  intros Hlo Hlen Hb. pose proof (draw_range g i) as [H0 H1]. split; nra.
Qed.

Section OneColour.
Variables (r g b a w h : Z).
Hypothesis Ha : a > 128.
Hypothesis Hgray : isGray r g b = false.

Let data := uniformData r g b a w h.
Let hex := rgbToHex r g b.

Lemma sampleOnce_uniform region colors rng n :
  inside w h region ->
  sampleOnce data w h region colors rng n = ((colors ++ [hex])%list, S (S n)).
Proof.
  intros (Hx & Hw & Hxw & Hy & Hh & Hyh).
  unfold sampleOnce, bind, Math_random, ret.
  pose proof (Math_floor_range _ _ (draw_in_region rng n _ _ _ Hx Hw Hxw)) as Fx.
  pose proof (Math_floor_range _ _ (draw_in_region rng (S n) _ _ _ Hy Hh Hyh)) as Fy.
  subst data. rewrite sampleAt_uniform by assumption. reflexivity.
Qed.

Lemma times_sampleOnce_uniform region k colors rng n :
  inside w h region ->
  times k (sampleOnce data w h region) colors rng n
  = ((colors ++ repeat hex k)%list, (n + 2 * k)%nat).
Proof.
  intros Hin. revert colors n.
  induction k as [|k IH]; intros colors n; cbn [times repeat].
  - unfold ret. rewrite app_nil_r. f_equal. lia.
  - unfold bind at 1. rewrite sampleOnce_uniform by assumption.
    rewrite IH, <- app_assoc. cbn [app]. f_equal. lia.
Qed.

Lemma forEachRegion_uniform rs colors rng n :
  Forall (inside w h) rs ->
  forEachRegion rs (fun region => times 800 (sampleOnce data w h region)) colors rng n
  = ((colors ++ repeat hex (800 * List.length rs))%list,
     (n + 1600 * List.length rs)%nat).
Proof.
  intros Hrs. revert colors n.
  induction Hrs as [|region rs Hin Hrs IH]; intros colors n; cbn [forEachRegion].
  - unfold ret. cbn [List.length]. rewrite Nat.mul_0_r. cbn [repeat].
    rewrite app_nil_r. f_equal. lia.
  - unfold bind at 1. rewrite times_sampleOnce_uniform by assumption.
    rewrite IH, <- app_assoc, <- repeat_app. cbn [List.length].
    f_equal; [f_equal; f_equal|]; lia.
Qed.

(** Every one of the 4000 samples of a picture of one visible,
    non-grey colour is that colour. *)
Lemma sampleStrategicRegions_uniform rng n :
  0 < w -> 0 < h ->
  sampleStrategicRegions data w h rng n
  = (repeat hex (800 * 5), (n + 1600 * 5)%nat).
Proof.
  intros Hw Hh. unfold sampleStrategicRegions.
  rewrite forEachRegion_uniform by now apply regions_inside.
  reflexivity.
Qed.

End OneColour.

End UniformSampling.

(** *** The weights of a black picture *)

Section BlackPicture.
Import JS Num AdvancedDesignAnalyzer Inputs.

Lemma everySecond_range bound x : In x (everySecond bound) -> 0 <= x < bound.
Proof.
  unfold everySecond. rewrite in_map_iff. intros (i & <- & Hi).
  apply in_seq in Hi.
  assert (H : Z.of_nat i < (bound + 1) / 2) by lia.
  pose proof (Z.mul_div_le (bound + 1) 2 ltac:(lia)). lia.
Qed.

Lemma getLuminance_black : getLuminance 0 0 0 = 0%R.
Proof. apply luminance_of_rgb_black. Qed.

Lemma addWeight_zero i :
  addWeight (MkQuarters 0 0 0 0) i 0 = MkQuarters 0 0 0 0.
Proof.
  unfold addWeight. cbn [q0 q1 q2 q3].
  replace (0 + 0)%R with 0%R by lra.
  destruct i as [|[p|[p|p|]|]|]; reflexivity.
Qed.

Lemma weighPixel_black w h qw qh y x :
  0 <= x < w -> 0 <= y < h ->
  weighPixel (uniformData 0 0 0 255 w h) w qw qh y x (Some (MkQuarters 0 0 0 0))
  = Some (MkQuarters 0 0 0 0).
Proof.
  intros Hx Hy. unfold weighPixel.
  pose proof (dataAt_uniform 0 0 0 255 w h x y 0 Hx Hy ltac:(lia)) as D0.
  pose proof (dataAt_uniform 0 0 0 255 w h x y 1 Hx Hy ltac:(lia)) as D1.
  pose proof (dataAt_uniform 0 0 0 255 w h x y 2 Hx Hy ltac:(lia)) as D2.
  rewrite Z.add_0_r in D0.
  change (Z.to_nat 0) with 0%nat in D0. change (Z.to_nat 1) with 1%nat in D1.
  change (Z.to_nat 2) with 2%nat in D2.
  cbn [nth_error] in D0, D1, D2.
  rewrite D0, D1, D2, getLuminance_black, Rmult_0_l.
  f_equal. apply addWeight_zero.
Qed.

Lemma row_black w h qw qh y xs :
  0 <= y < h -> Forall (fun x => 0 <= x < w) xs ->
  fold_left (fun quarters x =>
               weighPixel (uniformData 0 0 0 255 w h) w qw qh y x quarters)
            xs (Some (MkQuarters 0 0 0 0))
  = Some (MkQuarters 0 0 0 0).
Proof.
  intros Hy Hxs. induction Hxs as [|x xs Hx Hxs IH]; cbn [fold_left]; [reflexivity|].
  now rewrite weighPixel_black.
Qed.

(** Every quadrant of a black picture weighs nothing. *)
Lemma analyzeVisualWeight_black w h :
  analyzeVisualWeight (uniformData 0 0 0 255 w h) w h = Some (MkQuarters 0 0 0 0).
Proof.
  unfold analyzeVisualWeight.
  assert (Hys : Forall (fun y => 0 <= y < h) (everySecond h)).
  { apply Forall_forall. intros y. apply everySecond_range. }
  assert (Hxs : Forall (fun x => 0 <= x < w) (everySecond w)).
  { apply Forall_forall. intros x. apply everySecond_range. }
  induction Hys as [|y ys Hy Hys IH]; cbn [fold_left]; [reflexivity|].
  now rewrite row_black.
Qed.

End BlackPicture.

(** C2, at the input where the code leaves the claim.  The four weights
    of a black picture are zero.  [calculateBalance] takes its guard and
    returns 50, while [calculateSymmetry] has no guard: each pair divides
    zero by zero and the symmetry is not a number. *)
Theorem symmetry_of_zero_weights :
  let black := AdvancedDesignAnalyzer.MkQuarters 0 0 0 0 in
  AdvancedDesignAnalyzer.analyzeVisualWeight
    (Inputs.uniformData 0 0 0 255 100 100) 100 100 = Some black /\
  AdvancedDesignAnalyzer.calculateBalance black = 50 /\
  AdvancedDesignAnalyzer.pairSymmetry 0 0 = None /\
  AdvancedDesignAnalyzer.calculateSymmetry black = None.
Proof.
  cbv zeta.
  assert (Hp : AdvancedDesignAnalyzer.pairSymmetry 0 0 = None).
  { unfold AdvancedDesignAnalyzer.pairSymmetry, AdvancedDesignAnalyzer.divide.
    rewrite Rmax_left by lra.
    destruct (Req_dec_T 0 0) as [E | E]; [reflexivity | now elim E]. }
  refine (conj _ (conj _ (conj Hp _))).
  - apply analyzeVisualWeight_black.
  - unfold AdvancedDesignAnalyzer.calculateBalance, AdvancedDesignAnalyzer.totalOf.
    cbn [AdvancedDesignAnalyzer.q0 AdvancedDesignAnalyzer.q1 AdvancedDesignAnalyzer.q2
         AdvancedDesignAnalyzer.q3].
    destruct (Req_dec_T (0 + 0 + 0 + 0 + 0) 0) as [E | E]; [reflexivity|].
    exfalso. apply E. lra.
  - unfold AdvancedDesignAnalyzer.calculateSymmetry.
    cbn [AdvancedDesignAnalyzer.q0 AdvancedDesignAnalyzer.q1 AdvancedDesignAnalyzer.q2
         AdvancedDesignAnalyzer.q3].
    now rewrite Hp.
Qed.

(** C7, at the input where the code leaves the claim.  For a black
    picture [analyzeLayout] hands [calculateScores] a balance of 50 and a
    symmetry that is not a number, the division of zero by zero of
    [calculateSymmetry].  The layout score is their mean with the grid
    quality, and the overall score the weighted sum that contains it:
    whatever the text, the colours and the contrast, neither is a number,
    so the overall score is not within 0 and 100. *)
Theorem overall_of_black_picture (textAnalysis : AdvancedDesignAnalyzer.TextAnalysis)
    (colorAnalysis : AdvancedDesignAnalyzer.ColorAnalysis)
    (contrastAnalysis : AdvancedDesignAnalyzer.ContrastAnalysis) :
  exists layoutAnalysis,
    AdvancedDesignAnalyzer.analyzeLayout (Inputs.uniformData 0 0 0 255 100 100) 100 100
      = Some layoutAnalysis /\
    AdvancedDesignAnalyzer.balance layoutAnalysis = 50%R /\
    AdvancedDesignAnalyzer.symmetry layoutAnalysis = None /\
    let scores :=
      AdvancedDesignAnalyzer.calculateScores
        textAnalysis colorAnalysis layoutAnalysis contrastAnalysis in
    AdvancedDesignAnalyzer.layoutScore scores = None /\
    AdvancedDesignAnalyzer.overall scores = None.
Proof.
  assert (Hp : AdvancedDesignAnalyzer.pairSymmetry 0 0 = None).
  { unfold AdvancedDesignAnalyzer.pairSymmetry, AdvancedDesignAnalyzer.divide.
    rewrite Rmax_left by lra.
    destruct (Req_dec_T 0 0) as [E | E]; [reflexivity | now elim E]. }
  assert (Hs : AdvancedDesignAnalyzer.calculateSymmetry
                 (AdvancedDesignAnalyzer.MkQuarters 0 0 0 0) = None).
  { unfold AdvancedDesignAnalyzer.calculateSymmetry.
    cbn [AdvancedDesignAnalyzer.q0 AdvancedDesignAnalyzer.q1 AdvancedDesignAnalyzer.q2
         AdvancedDesignAnalyzer.q3].
    now rewrite Hp. }
  assert (Hb : AdvancedDesignAnalyzer.calculateBalance
                 (AdvancedDesignAnalyzer.MkQuarters 0 0 0 0) = 50).
  { unfold AdvancedDesignAnalyzer.calculateBalance, AdvancedDesignAnalyzer.totalOf.
    cbn [AdvancedDesignAnalyzer.q0 AdvancedDesignAnalyzer.q1 AdvancedDesignAnalyzer.q2
         AdvancedDesignAnalyzer.q3].
    destruct (Req_dec_T (0 + 0 + 0 + 0 + 0) 0) as [E | E]; [reflexivity|].
    exfalso. apply E. lra. }
  unfold AdvancedDesignAnalyzer.analyzeLayout.
  rewrite analyzeVisualWeight_black. cbv zeta. rewrite Hs, Hb.
  eexists. split; [reflexivity|].
  cbn [AdvancedDesignAnalyzer.balance AdvancedDesignAnalyzer.symmetry option_map].
  refine (conj eq_refl (conj eq_refl _)).
  unfold AdvancedDesignAnalyzer.calculateScores.
  cbn [AdvancedDesignAnalyzer.symmetry AdvancedDesignAnalyzer.layoutScore
       AdvancedDesignAnalyzer.overall].
  split; reflexivity.
Qed.

(** *** Background and text *)

Section BackgroundAndText.
Import JS Num Random AIDesignAnalyzer Inputs.
Local Open Scope R_scope.

Lemma Rmax_bytes (a b : Z) : Rmax (IZR a / 255) (IZR b / 255) = IZR (Z.max a b) / 255.
Proof.
  destruct (Z.max_spec a b) as [[Hlt ->] | [Hle ->]].
  - apply Rmax_right. apply Z.lt_le_incl, IZR_le in Hlt. lra.
  - apply Rmax_left. apply IZR_le in Hle. lra.
Qed.

Lemma Rmin_bytes (a b : Z) : Rmin (IZR a / 255) (IZR b / 255) = IZR (Z.min a b) / 255.
Proof.
  destruct (Z.min_spec a b) as [[Hlt ->] | [Hle ->]].
  - apply Rmin_left. apply Z.lt_le_incl, IZR_le in Hlt. lra.
  - apply Rmin_right. apply IZR_le in Hle. lra.
Qed.

(** The lightness from the largest and the smallest channel. *)
Lemma getLightness_channels hex r g b :
  Hex.channels hex = (r, g, b) ->
  getLightness hex
  = IZR (Z.max (Z.max r g) b + Z.min (Z.min r g) b) / 255 / 2 * 100.
Proof.
  intros E. unfold getLightness. rewrite E.
  rewrite !Rmax_bytes, !Rmin_bytes, plus_IZR. lra.
Qed.

Lemma getLuminance_channels hex r g b :
  Hex.channels hex = (r, g, b) ->
  getLuminance hex
  = WCAG.luminance (IZR r / 255) (IZR g / 255) (IZR b / 255).
Proof. intros E. rewrite getLuminance_wcag, E. reflexivity. Qed.

Lemma tally_same c n :
  tally [(quantizeToWebColors c, n)] c = [(quantizeToWebColors c, (n + 1)%Z)].
Proof.
  unfold tally. generalize (quantizeToWebColors c) as q. intros q.
  cbn [mapGet mapSet]. now rewrite String.eqb_refl.
Qed.

Lemma tally_first c : tally [] c = [(quantizeToWebColors c, 1%Z)].
Proof. reflexivity. Qed.

Lemma fold_left_cons {A B} (f : A -> B -> A) (x : B) (l : list B) (a : A) :
  fold_left f (x :: l) a = fold_left f l (f a x).
Proof. reflexivity. Qed.

Lemma tally_repeat c k n :
  fold_left tally (repeat c k) [(quantizeToWebColors c, n)]
  = [(quantizeToWebColors c, (n + Z.of_nat k)%Z)].
Proof.
  revert n. induction k as [|k IH]; intros n; cbn [repeat].
  - cbn [fold_left]. now rewrite Z.add_0_r.
  - rewrite fold_left_cons, tally_same, IH. do 2 f_equal. lia.
Qed.

Lemma topColorsOf_repeat c k :
  topColorsOf (repeat c (S k)) = [quantizeToWebColors c].
Proof.
  unfold topColorsOf. cbn [repeat].
  rewrite fold_left_cons, tally_first, tally_repeat.
  generalize (quantizeToWebColors c) as q. intros q. reflexivity.
Qed.

(** The background and the text of a sample that is not empty. *)
Lemma dominant_of_sample c colors rng n :
  let top := topColorsOf (c :: colors) in
  let d := fst (calculateAdvancedDominantColors (c :: colors) rng n) in
  background d = findBestBackgroundColor top /\
  text d = findBestTextColor top (findBestBackgroundColor top).
Proof.
  cbv zeta. unfold calculateAdvancedDominantColors. cbv beta iota.
  generalize (topColorsOf (c :: colors)) as top. intros top.
  unfold bind, ret.
  match goal with
  | |- context [orStringElse ?s ?m rng n] => destruct (orStringElse s m rng n) as [p n']
  end.
  cbn [fst background text]. split; reflexivity.
Qed.

(** The background and text of a sample that holds one colour only. *)
Lemma dominant_of_one_colour c k rng n :
  let q := quantizeToWebColors c in
  let d := fst (calculateAdvancedDominantColors (repeat c (S k)) rng n) in
  background d = findBestBackgroundColor [q] /\
  text d = findBestTextColor [q] (findBestBackgroundColor [q]).
Proof.
  cbv zeta. rewrite <- (topColorsOf_repeat c k). cbn [repeat].
  apply dominant_of_sample.
Qed.

Lemma lightness_green : getLightness "#00FF00" = 50.
Proof.
  rewrite (getLightness_channels _ 0 255 0) by reflexivity. cbn [Z.max Z.min Z.add].
  change (Z.max (Z.max 0 255) 0 + Z.min (Z.min 0 255) 0)%Z with 255%Z. lra.
Qed.

Lemma luminance_green : getLuminance "#00FF00" = 0.7152.
Proof.
  rewrite (getLuminance_channels _ 0 255 0) by reflexivity.
  unfold WCAG.luminance.
  replace (IZR 0 / 255) with 0 by lra. replace (IZR 255 / 255) with 1 by lra.
  rewrite wcag_linear_0, wcag_linear_1. lra.
Qed.

Lemma luminance_white : getLuminance "#FFFFFF" = 1.
Proof. apply luminance_of_white. Qed.

Lemma background_green : findBestBackgroundColor ["#00FF00"] = "#00FF00".
Proof.
  unfold findBestBackgroundColor. cbn [filter].
  rewrite lightness_green.
  replace (gtb 50 60) with false by (symmetry; apply gtb_false; lra).
  reflexivity.
Qed.

Lemma text_on_green : findBestTextColor ["#00FF00"] "#00FF00" = "#FFFFFF".
Proof.
  unfold findBestTextColor. cbn [fold_left]. unfold textStep.
  rewrite String.eqb_refl.
  replace (ltb 0 3) with true by (symmetry; apply ltb_true; lra).
  rewrite lightness_green.
  replace (gtb 50 50) with false by (symmetry; apply gtb_false; lra).
  reflexivity.
Qed.

Lemma contrast_green_white : calculateContrastRatio "#00FF00" "#FFFFFF" < 3.
Proof.
  unfold calculateContrastRatio. rewrite luminance_green, luminance_white.
  rewrite Rmax_right, Rmin_left by lra. lra.
Qed.

(** A picture of pure green, whatever its size and the draws. *)
Lemma green_picture w h rng n :
  (0 < w)%Z -> (0 < h)%Z ->
  let '(dominantColors, palette, contrast) :=
    fst (extractRealColorsAdvanced (uniformImage 0 255 0 255 w h) rng n) in
  background dominantColors = "#00FF00" /\
  text dominantColors = "#FFFFFF" /\
  contrast = calculateContrastRatio "#00FF00" "#FFFFFF" /\
  contrast < 3.
Proof.
  intros Hw Hh. unfold extractRealColorsAdvanced, uniformImage.
  cbn [pixels width height]. unfold bind at 1.
  rewrite sampleStrategicRegions_uniform by (try assumption; try reflexivity; lia).
  change (800 * 5)%nat with (S 3999).
  change (rgbToHex 0 255 0) with "#00ff00".
  unfold bind, ret.
  pose proof (dominant_of_one_colour "#00ff00" 3999 rng (n + 1600 * 5)%nat) as [Hb Ht].
  destruct (calculateAdvancedDominantColors (repeat "#00ff00" (S 3999)) rng
              (n + 1600 * 5)%nat) as [d n'].
  cbn [fst] in Hb, Ht |- *.
  rewrite quantize_ex1, background_green in Hb.
  rewrite quantize_ex1, background_green, text_on_green in Ht.
  rewrite Hb, Ht. repeat split. apply contrast_green_white.
Qed.

(** The part of the claim on distinct colours holds for every sample:
    the text colour is never the background colour. *)
Lemma findBestTextColor_differs colors background :
  findBestTextColor colors background <> background.
Proof.
  unfold findBestTextColor.
  assert (Hinv : forall st,
            (ltb (snd st) 3 = true \/ fst st <> background) ->
            let st' := fold_left (textStep background) colors st in
            ltb (snd st') 3 = true \/ fst st' <> background).
  { induction colors as [|c cs IH]; intros st Hst; cbn [fold_left]; [exact Hst|].
    apply IH. unfold textStep.
    destruct (String.eqb c background) eqn:E; [exact Hst|].
    destruct (gtb _ (snd st)); [|exact Hst].
    right. cbn [fst]. now apply String.eqb_neq. }
  specialize (Hinv ("#000000", 0)). cbv zeta in Hinv.
  destruct (fold_left (textStep background) colors ("#000000", 0)) as [best mc].
  cbn [fst snd] in Hinv.
  destruct (ltb mc 3) eqn:Emc.
  - destruct (gtb (getLightness background) 50) eqn:El.
    + apply gtb_true in El. intros <-.
      rewrite (getLightness_channels _ 0 0 0) in El by reflexivity.
      change (Z.max (Z.max 0 0) 0 + Z.min (Z.min 0 0) 0)%Z with 0%Z in El. lra.
    + apply gtb_false in El. intros <-.
      rewrite (getLightness_channels _ 255 255 255) in El by reflexivity.
      change (Z.max (Z.max 255 255) 255 + Z.min (Z.min 255 255) 255)%Z
        with 510%Z in El. lra.
  - destruct Hinv as [F | Hne]; [left; apply ltb_true; lra | discriminate F | exact Hne].
Qed.

Lemma background_text_differ colors rng n :
  let d := fst (calculateAdvancedDominantColors colors rng n) in
  text d <> background d.
Proof.
  cbv zeta. destruct colors as [|c colors].
  - cbn. discriminate.
  - destruct (dominant_of_sample c colors rng n) as [Hb Ht].
    rewrite Ht, Hb. apply findBestTextColor_differs.
Qed.

End BackgroundAndText.

(** C1, at the input where the code leaves the claim.  For a 100 by 100
    picture of pure green and any draws, the background is [#00FF00];
    no other colour was sampled, so the text falls back, and because the
    lightness of green is 50, not above 50, the fallback is white: the
    contrast of text to background is below 3. *)
Theorem green_text_contrast_below_floor (rng : Random.Rng) (n : nat) :
  let '(dominantColors, palette, contrast) :=
    fst (AIDesignAnalyzer.extractRealColorsAdvanced
           (Inputs.uniformImage 0 255 0 255 100 100) rng n) in
  AIDesignAnalyzer.background dominantColors = "#00FF00" /\
  AIDesignAnalyzer.text dominantColors = "#FFFFFF" /\
  contrast = AIDesignAnalyzer.calculateContrastRatio "#00FF00" "#FFFFFF" /\
  (contrast < 3)%R.
Proof. apply green_picture; lia. Qed.

(** *** Sorting and distinct elements *)

Lemma In_firstn {A} (k : nat) (l : list A) x : In x (firstn k l) -> In x l.
Proof.
  intros H. rewrite <- (firstn_skipn k l). apply in_or_app. now left.
Qed.

Lemma In_skipn {A} (k : nat) (l : list A) x : In x (skipn k l) -> In x l.
Proof.
  intros H. rewrite <- (firstn_skipn k l). apply in_or_app. now right.
Qed.

Section SortingFacts.
Import Num.

Context {A : Type} (le : A -> A -> bool).
Hypothesis le_total : forall a b, le a b = true \/ le b a = true.
Hypothesis le_trans : forall a b c, le a b = true -> le b c = true -> le a c = true.

Lemma insertBy_perm x l : Permutation (insertBy le x l) (x :: l).
Proof.
  induction l as [|y t IH]; cbn [insertBy]; [reflexivity|].
  destruct (le x y); [reflexivity|].
  rewrite IH. apply perm_swap.
Qed.

Lemma sortBy_perm l : Permutation (sortBy le l) l.
Proof.
  induction l as [|x l IH]; cbn; [reflexivity|].
  unfold sortBy in IH. rewrite insertBy_perm. now constructor.
Qed.

Lemma insertBy_sorted x l :
  StronglySorted (fun a b => le a b = true) l ->
  StronglySorted (fun a b => le a b = true) (insertBy le x l).
Proof.
  induction 1 as [|y t Hs IH Hy]; cbn [insertBy].
  - repeat constructor.
  - destruct (le x y) eqn:E.
    + constructor; [now constructor|].
      constructor; [assumption|].
      rewrite Forall_forall in Hy |- *. intros z Hz. eauto.
    + constructor; [assumption|].
      rewrite Forall_forall in Hy |- *. intros z Hz.
      apply (Permutation_in _ (insertBy_perm x t)) in Hz.
      destruct Hz as [<- | Hz]; [|auto].
      destruct (le_total x y); congruence.
Qed.

Lemma sortBy_sorted l : StronglySorted (fun a b => le a b = true) (sortBy le l).
Proof.
  induction l as [|x l IH]; cbn; [constructor|]. now apply insertBy_sorted.
Qed.

(** In a sorted list everything cut off by [firstn] comes after
    everything kept. *)
Lemma sorted_firstn_skipn k l a b :
  StronglySorted (fun a b => le a b = true) l ->
  In a (firstn k l) -> In b (skipn k l) -> le a b = true.
Proof.
  intros Hs. revert k. induction Hs as [|x t Hs IH Hx]; intros k Ha Hb.
  - destruct k; contradiction.
  - destruct k as [|k]; [contradiction|]. cbn in Ha, Hb.
    destruct Ha as [<- | Ha]; [|eauto].
    rewrite Forall_forall in Hx. apply Hx. eapply (In_skipn k). eassumption.
Qed.

Lemma sorted_firstn k l :
  StronglySorted (fun a b => le a b = true) l ->
  StronglySorted (fun a b => le a b = true) (firstn k l).
Proof.
  intros Hs. revert k. induction Hs as [|x t Hs IH Hx]; intros [|k]; cbn;
    try constructor; auto.
  rewrite Forall_forall in Hx |- *. intros z Hz. apply Hx.
  eapply In_firstn. eassumption.
Qed.

End SortingFacts.

Section UniqueFacts.
Import Num.

Lemma existsb_eqb_In x seen : existsb (String.eqb x) seen = true <-> In x seen.
Proof.
  rewrite existsb_exists. split.
  - intros (y & Hy & E). apply String.eqb_eq in E. now subst.
  - intros H. exists x. split; [assumption | apply String.eqb_refl].
Qed.

Lemma uniqueFrom_In seen items x :
  In x (uniqueFrom seen items) <-> In x items /\ ~ In x seen.
Proof.
  revert seen. induction items as [|y t IH]; intros seen; cbn [uniqueFrom].
  - cbn. tauto.
  - destruct (existsb (String.eqb y) seen) eqn:E.
    + apply existsb_eqb_In in E. rewrite IH. cbn. split.
      * tauto.
      * intros [[-> | H] Hn]; tauto.
    + assert (Hy : ~ In y seen).
      { intros H. apply existsb_eqb_In in H. congruence. }
      cbn [In]. rewrite IH. cbn [In]. split.
      * intros [-> | [H Hn]]; [tauto|]. split; [tauto|]. tauto.
      * intros [[-> | H] Hn]; [tauto|].
        destruct (string_dec y x) as [-> | Hne]; [tauto|]. right. split; [assumption|].
        intros [F | F]; tauto.
Qed.

Lemma uniqueFrom_NoDup seen items : NoDup (uniqueFrom seen items).
Proof.
  revert seen. induction items as [|y t IH]; intros seen; cbn [uniqueFrom].
  - constructor.
  - destruct (existsb (String.eqb y) seen); [apply IH|].
    constructor; [|apply IH].
    rewrite uniqueFrom_In. cbn. tauto.
Qed.

Lemma unique_In items x : In x (unique items) <-> In x items.
Proof. unfold unique. rewrite uniqueFrom_In. cbn. tauto. Qed.

Lemma unique_NoDup items : NoDup (unique items).
Proof. apply uniqueFrom_NoDup. Qed.

Lemma uniqueFrom_repeat_seen c k seen :
  In c seen -> uniqueFrom seen (repeat c k) = [].
Proof.
  intros Hc. induction k as [|k IH]; cbn [repeat uniqueFrom]; [reflexivity|].
  apply existsb_eqb_In in Hc. now rewrite Hc.
Qed.

Lemma unique_repeat c k : unique (repeat c (S k)) = [c].
Proof.
  unfold unique. cbn [repeat uniqueFrom existsb].
  now rewrite uniqueFrom_repeat_seen by (left; reflexivity).
Qed.

Lemma NoDup_firstn {A} k (l : list A) : NoDup l -> NoDup (firstn k l).
Proof.
  intros H. revert k. induction H as [|x t Hx Ht IH]; intros [|k]; cbn;
    try constructor; auto.
  intros Hin. apply Hx. eapply In_firstn. eassumption.
Qed.

End UniqueFacts.

(** *** The palette *)

Section Palette.
Import Num Random AIDesignAnalyzer Inputs.

Lemma lighterFirst_true a b :
  PaletteSpec.lighterFirst a b = true <-> (getLightness b <= getLightness a)%R.
Proof.
  unfold PaletteSpec.lighterFirst. rewrite leb_true. split; intros; lra.
Qed.

Lemma lighterFirst_total a b :
  PaletteSpec.lighterFirst a b = true \/ PaletteSpec.lighterFirst b a = true.
Proof.
  rewrite !lighterFirst_true.
  destruct (Rle_dec (getLightness b) (getLightness a)); [now left | right; lra].
Qed.

Lemma lighterFirst_trans a b c :
  PaletteSpec.lighterFirst a b = true -> PaletteSpec.lighterFirst b c = true ->
  PaletteSpec.lighterFirst a c = true.
Proof. rewrite !lighterFirst_true. intros; lra. Qed.

Lemma createAdvancedPalette_eq colors :
  createAdvancedPalette colors = sortBy PaletteSpec.lighterFirst (unique colors).
Proof. reflexivity. Qed.

(** The palette that leaves [extractRealColorsAdvanced], from the
    samples alone. *)
Lemma palette_of_extract imageData rng n :
  snd (fst (fst (extractRealColorsAdvanced imageData rng n)))
  = firstn 12 (createAdvancedPalette
      (fst (sampleStrategicRegions (pixels imageData) (width imageData)
              (height imageData) rng n))).
Proof.
  unfold extractRealColorsAdvanced, bind, ret.
  destruct (sampleStrategicRegions _ _ _ rng n) as [samples n1].
  destruct (calculateAdvancedDominantColors samples rng n1) as [d n2].
  reflexivity.
Qed.

Lemma palette_facts samples :
  let palette := firstn 12 (createAdvancedPalette samples) in
  NoDup palette /\
  List.length palette = Nat.min 12 (List.length (unique samples)) /\
  (forall c, In c palette -> In c samples) /\
  (forall c, In c samples -> (List.length (unique samples) <= 12)%nat -> In c palette) /\
  StronglySorted (fun a b => getLightness b <= getLightness a)%R palette /\
  (forall c p, In c samples -> ~ In c palette -> In p palette ->
     (getLightness c <= getLightness p)%R).
Proof.
  cbv zeta. rewrite createAdvancedPalette_eq.
  set (sorted := sortBy PaletteSpec.lighterFirst (unique samples)).
  assert (Hperm : Permutation sorted (unique samples)) by apply sortBy_perm.
  assert (Hsorted : StronglySorted (fun a b => PaletteSpec.lighterFirst a b = true) sorted).
  { apply sortBy_sorted; [apply lighterFirst_total | apply lighterFirst_trans]. }
  refine (conj _ (conj _ (conj _ (conj _ (conj _ _))))).
  - apply NoDup_firstn. apply (Permutation_NoDup (Permutation_sym Hperm)).
    apply unique_NoDup.
  - rewrite length_firstn. now rewrite (Permutation_length Hperm).
  - intros c Hc. apply In_firstn in Hc.
    apply (Permutation_in _ Hperm) in Hc. apply unique_In. exact Hc.
  - intros c Hc Hfew. rewrite firstn_all2
      by (now rewrite (Permutation_length Hperm)).
    apply (Permutation_in _ (Permutation_sym Hperm)). now apply unique_In.
  - pose proof (sorted_firstn _ 12 _ Hsorted) as Hs.
    induction Hs as [|x t Hs IH Hx]; constructor; [assumption|].
    eapply Forall_impl; [|exact Hx]. intros y Hy. now apply lighterFirst_true.
  - intros c p Hc Hnot Hp.
    apply lighterFirst_true.
    apply (sorted_firstn_skipn _ 12 sorted); [assumption | assumption |].
    apply unique_In in Hc. apply (Permutation_in _ (Permutation_sym Hperm)) in Hc.
    rewrite <- (firstn_skipn 12 sorted) in Hc.
    apply in_app_or in Hc as [Hc | Hc]; [contradiction | assumption].
Qed.

End Palette.

(** C9, as the code has it.  The exported palette is made of the sampled
    colours as they were sampled, all of them and not the ten most
    frequent quantized ones: the distinct samples, sorted by falling
    lightness, and the first twelve of those.  So it has no colour twice,
    only sampled colours, as many as there are distinct samples up to
    twelve (all of them when they are twelve or fewer), in falling
    lightness, and no sampled colour left out is lighter than one kept.
    The order among colours of the same lightness is left open. *)
Theorem palette_from_samples (imageData : AIDesignAnalyzer.Image)
    (rng : Random.Rng) (n : nat) :
  let samples :=
    fst (AIDesignAnalyzer.sampleStrategicRegions
           (AIDesignAnalyzer.pixels imageData) (AIDesignAnalyzer.width imageData)
           (AIDesignAnalyzer.height imageData) rng n) in
  let palette := snd (fst (fst (AIDesignAnalyzer.extractRealColorsAdvanced imageData rng n))) in
  NoDup palette /\
  List.length palette = Nat.min 12 (List.length (Num.unique samples)) /\
  (forall c, In c palette -> In c samples) /\
  (forall c, In c samples -> (List.length (Num.unique samples) <= 12)%nat ->
     In c palette) /\
  StronglySorted
    (fun a b => AIDesignAnalyzer.getLightness b <= AIDesignAnalyzer.getLightness a)%R
    palette /\
  (forall c p, In c samples -> ~ In c palette -> In p palette ->
     (AIDesignAnalyzer.getLightness c <= AIDesignAnalyzer.getLightness p)%R).
Proof.
  cbv zeta. rewrite palette_of_extract. apply palette_facts.
Qed.

(** C9 as the claim words it fails: on a picture of the one colour
    [#fe0102] the palette is that colour, while the most frequent
    quantized colour is [#FF0000]. *)
Lemma palette_is_not_the_top_colors :
  let image := Inputs.uniformImage 254 1 2 255 100 100 in
  let samples :=
    fst (AIDesignAnalyzer.sampleStrategicRegions
           (AIDesignAnalyzer.pixels image) 100 100 Inputs.rngZero 0%nat) in
  let palette :=
    snd (fst (fst (AIDesignAnalyzer.extractRealColorsAdvanced image Inputs.rngZero 0%nat))) in
  palette = ["#fe0102"] /\
  PaletteSpec.paletteOfTopColors samples = ["#FF0000"] /\
  palette <> PaletteSpec.paletteOfTopColors samples.
Proof.
  cbv zeta. rewrite palette_of_extract.
  unfold Inputs.uniformImage.
  cbn [AIDesignAnalyzer.pixels AIDesignAnalyzer.width AIDesignAnalyzer.height].
  rewrite sampleStrategicRegions_uniform by (try reflexivity; lia).
  cbn [fst]. change (800 * 5)%nat with (S 3999).
  change (AIDesignAnalyzer.rgbToHex 254 1 2) with "#fe0102".
  unfold PaletteSpec.paletteOfTopColors.
  rewrite createAdvancedPalette_eq, unique_repeat, topColorsOf_repeat, quantize_ex2.
  repeat split. discriminate.
Qed.

(** *** The entry point *)

Section EntryPoint.
Import JS Num Random AIDesignAnalyzer Observed.

(** The result of [analyzeDesign] on a usable file, with the cursor
    [nv] at which the two random scores are drawn. *)
Lemma analyzeDesign_usable file image rng n :
  decoded file = Some image -> 0 < width image -> 0 < height image ->
  exists d p c fb nv,
    let a :=
      MkDesignAnalysis "Advanced analysis of design composition and visual elements"
        d p c (calculateReadabilityScore c) (calculateAdvancedColorScore p d)
        (analyzeLayout (width image) (height image))
        (65 + Math_floor (draw rng nv * 30))
        (70 + Math_floor (draw rng (S nv) * 25)) in
    fst (analyzeDesign file rng n)
    = Returned (MkAnalysisResult true
                  (MkDesignFeedback (overallOf a) (snd fb) (fst fb) a) (Some a)).
Proof.
  intros Hdec Hw Hh.
  unfold analyzeDesign, analyzeDesignBody, loadImage, getImageData.
  rewrite Hdec.
  replace (width image <=? 0) with false by (symmetry; apply Z.leb_gt; lia).
  replace (height image <=? 0) with false by (symmetry; apply Z.leb_gt; lia).
  cbn [orb]. unfold bind.
  destruct (extractRealColorsAdvanced image rng n) as [[[d p] c] n1].
  destruct (generateAdvancedHumanFeedback d p c rng n1) as [fb nv].
  unfold analyzeVisualHierarchy, analyzeSpacing, bind, Math_random, ret.
  cbn [fst]. exists d, p, c, fb, nv. reflexivity.
Qed.

Lemma analyzeDesign_unusable file rng n :
  ~ usable file -> fst (analyzeDesign file rng n) = Returned getFallbackResult.
Proof.
  intros Hn.
  unfold analyzeDesign, analyzeDesignBody, loadImage, getImageData.
  destruct (decoded file) as [image|] eqn:Hdec; [|reflexivity].
  destruct ((width image <=? 0) || (height image <=? 0)) eqn:E; [reflexivity|].
  exfalso. apply Hn. exists image.
  apply orb_false_elim in E as [Ew Eh]. apply Z.leb_gt in Ew, Eh. auto.
Qed.

Lemma usable_dec file : usable file \/ ~ usable file.
Proof.
  unfold usable. destruct (decoded file) as [image|].
  - destruct (Z_lt_dec 0 (width image)); [|right; intros (i & [= <-] & ? & ?); lia].
    destruct (Z_lt_dec 0 (height image)); [|right; intros (i & [= <-] & ? & ?); lia].
    left. eauto.
  - right. intros (i & Hi & _). discriminate.
Qed.

Lemma calculateReadabilityScore_range c : inScore (calculateReadabilityScore c).
Proof. unfold inScore, calculateReadabilityScore. lia. Qed.

Lemma calculateAdvancedColorScore_range p d :
  inScore (calculateAdvancedColorScore p d).
Proof.
  unfold inScore, calculateAdvancedColorScore.
  destruct (gtb _ 7); [lia|]. destruct (gtb _ 4.5); lia.
Qed.

Lemma analyzeLayout_range w h : inScore (analyzeLayout w h).
Proof.
  unfold inScore, analyzeLayout.
  destruct (h =? 0); [lia|].
  destruct (ltb _ _), (ltb _ _), (ltb _ _); lia.
Qed.

Lemma random_score_range (rng : Rng) i base span :
  0 <= base -> 0 < span -> base + span <= 101 ->
  inScore (base + Math_floor (draw rng i * IZR span)).
Proof.
  intros Hb Hs Hsum. unfold inScore.
  pose proof (draw_range rng i) as [H0 H1].
  assert (Hs' : (0 < IZR span)%R) by now apply IZR_lt.
  destruct (Math_floor_range (draw rng i * IZR span) span) as [F0 F1]; [split; nra|].
  lia.
Qed.

Lemma overallOf_range a :
  inScore (textReadability a) -> inScore (colorScore a) -> inScore (layoutScore a) ->
  inScore (visualHierarchy a) -> inScore (spacingScore a) ->
  inScore (overallOf a).
Proof.
  unfold inScore, overallOf. intros Ht Hc Hl Hv Hs.
  apply Math_round_range.
  assert (H : 0 <= textReadability a + colorScore a + layoutScore a
                   + visualHierarchy a + spacingScore a <= 500) by lia.
  destruct H as [H0 H1]. apply IZR_le in H0, H1. lra.
Qed.

End EntryPoint.

(** C4, as the code has it.  [analyzeDesign] never lets an error reach
    its caller.  When the file decodes to a picture that is not empty it
    returns a populated result marked as a success; in every other case,
    the file that does not decode among them, it returns the fixed
    fallback result, marked as a failure. *)
Theorem analyzeDesign_returns (file : AIDesignAnalyzer.File)
    (rng : Random.Rng) (n : nat) :
  exists r,
    fst (AIDesignAnalyzer.analyzeDesign file rng n) = AIDesignAnalyzer.Returned r /\
    ((Observed.usable file /\ Observed.populated r) \/
     (~ Observed.usable file /\ r = AIDesignAnalyzer.getFallbackResult /\
      AIDesignAnalyzer.success r = false)).
Proof.
  destruct (usable_dec file) as [Hu | Hn].
  - pose proof Hu as (image & Hdec & Hw & Hh).
    destruct (analyzeDesign_usable file image rng n Hdec Hw Hh)
      as (d & p & c & fb & nv & E).
    cbv zeta in E. eexists. split; [exact E|]. left. split; [assumption|].
    unfold Observed.populated.
    cbn [AIDesignAnalyzer.success AIDesignAnalyzer.feedback AIDesignAnalyzer.analysis
         AIDesignAnalyzer.result_analysis AIDesignAnalyzer.overallScore
         AIDesignAnalyzer.textReadability AIDesignAnalyzer.colorScore
         AIDesignAnalyzer.layoutScore AIDesignAnalyzer.visualHierarchy
         AIDesignAnalyzer.spacingScore].
    assert (Hv : Observed.inScore (65 + JS.Math_floor (Random.draw rng nv * 30)))
      by (apply random_score_range; lia).
    assert (Hs : Observed.inScore (70 + JS.Math_floor (Random.draw rng (S nv) * 25)))
      by (apply random_score_range; lia).
    repeat split;
      try apply calculateReadabilityScore_range;
      try apply calculateAdvancedColorScore_range;
      try apply analyzeLayout_range;
      try apply Hv; try apply Hs.
    all: apply overallOf_range;
      cbn [AIDesignAnalyzer.textReadability AIDesignAnalyzer.colorScore
           AIDesignAnalyzer.layoutScore AIDesignAnalyzer.visualHierarchy
           AIDesignAnalyzer.spacingScore];
      auto using calculateReadabilityScore_range, calculateAdvancedColorScore_range,
        analyzeLayout_range.
  - exists AIDesignAnalyzer.getFallbackResult. split.
    + now apply analyzeDesign_unusable.
    + right. repeat split. assumption.
Qed.

(** C4 as the claim words it fails: for a file that does not decode no
    error reaches the caller, the fallback result is returned. *)
Lemma corrupt_file_returns_fallback :
  fst (AIDesignAnalyzer.analyzeDesign Observed.corruptFile Inputs.rngZero 0%nat)
    = AIDesignAnalyzer.Returned AIDesignAnalyzer.getFallbackResult /\
  (forall e,
     fst (AIDesignAnalyzer.analyzeDesign Observed.corruptFile Inputs.rngZero 0%nat)
       <> AIDesignAnalyzer.Thrown e).
Proof.
  split; [reflexivity | intros e; discriminate].
Qed.

(** C3, as the code has it.  [analyzeDesign] takes no seed: it reads the
    draws of [Math.random].  Its result is fixed by the file and by the
    draws one analysis can read, 8014 of them from the cursor on: two
    runs on one file whose generators agree on those draws give the same
    result. *)
Theorem analysis_fixed_by_draws (file : AIDesignAnalyzer.File)
    (g1 g2 : Random.Rng) (n : nat) :
  Reads.agree g1 g2 n Reads.drawsOfAnalysis ->
  AIDesignAnalyzer.analyzeDesign file g1 n = AIDesignAnalyzer.analyzeDesign file g2 n.
Proof.
  intros Hag. apply (reads_analyzeDesign file g1 g2 n Hag).
Qed.

Lemma analysis_fixed_by_draws_witness :
  AIDesignAnalyzer.analyzeDesign Observed.redPixelFile Inputs.rngZero 0%nat
  = AIDesignAnalyzer.analyzeDesign Observed.redPixelFile Observed.rngLate 0%nat.
Proof.
  apply analysis_fixed_by_draws.
  intros i Hi. cbn [Random.draw Inputs.rngZero Inputs.constantRng Observed.rngLate].
  unfold Observed.lateDraw.
  destruct (Nat.ltb_spec i Reads.drawsOfAnalysis) as [Hlt | Hge]; [reflexivity | lia].
Defined.

(** C3 as the claim words it fails: two runs on the same picture give
    different metrics when [Math.random] draws differently; the
    visual-hierarchy score is 65 in one run and 80 in the other. *)
Lemma same_picture_different_metrics :
  fst (AIDesignAnalyzer.analyzeDesign Observed.redPixelFile Inputs.rngZero 0%nat)
  <> fst (AIDesignAnalyzer.analyzeDesign Observed.redPixelFile Inputs.rngHalf 0%nat).
Proof.
  assert (Hdec : AIDesignAnalyzer.decoded Observed.redPixelFile
                 = Some (Inputs.uniformImage 255 0 0 255 1 1)) by reflexivity.
  destruct (analyzeDesign_usable _ _ Inputs.rngZero 0%nat Hdec)
    as (d1 & p1 & c1 & fb1 & nv1 & E1); [reflexivity | reflexivity |].
  destruct (analyzeDesign_usable _ _ Inputs.rngHalf 0%nat Hdec)
    as (d2 & p2 & c2 & fb2 & nv2 & E2); [reflexivity | reflexivity |].
  cbv zeta in E1, E2. rewrite E1, E2. clear E1 E2.
  cbn [Random.draw Inputs.rngZero Inputs.rngHalf Inputs.constantRng].
  intros Heq.
  apply (f_equal (fun o => match o with
                           | AIDesignAnalyzer.Returned r =>
                               AIDesignAnalyzer.visualHierarchy
                                 (AIDesignAnalyzer.analysis (AIDesignAnalyzer.feedback r))
                           | AIDesignAnalyzer.Thrown _ => 0
                           end)) in Heq.
  cbn [AIDesignAnalyzer.visualHierarchy AIDesignAnalyzer.analysis
       AIDesignAnalyzer.feedback] in Heq.
  replace (0 * 30)%R with (IZR 0 + 0)%R in Heq by lra.
  replace (/ 2 * 30)%R with (IZR 15 + 0)%R in Heq by lra.
  rewrite !Math_floor_IZR_plus in Heq by lra.
  discriminate Heq.
Qed.

(** ** Further properties of the code *)

(** *** Bounds of luminance and contrast *)

Section LuminanceBounds.
Local Open Scope R_scope.

Lemma wcag_linear_le_1 c : 0 <= c <= 1 -> WCAG.linear c <= 1.
Proof.
  intros [H0 H1]. unfold WCAG.linear.
  destruct (Rle_dec c 0.03928) as [Hs | Hl]; [lra|].
  set (base := (c + 0.055) / 1.055).
  assert (Hb : 0 < base <= 1) by (unfold base; split; lra).
  destruct Hb as [Hpos [Hlt | Heq]].
  - unfold Rpower. left. rewrite <- exp_0. apply exp_increasing.
    pose proof (ln_increasing base 1 Hpos Hlt) as Hln. rewrite ln_1 in Hln. lra.
  - rewrite Heq. unfold Rpower. rewrite ln_1, Rmult_0_r, exp_0. lra.
Qed.

Lemma wcag_luminance_range r g b :
  0 <= r <= 1 -> 0 <= g <= 1 -> 0 <= b <= 1 -> 0 <= WCAG.luminance r g b <= 1.
Proof.
  intros Hr Hg Hb. unfold WCAG.luminance.
  pose proof (wcag_linear_nonneg r (proj1 Hr)). pose proof (wcag_linear_le_1 r Hr).
  pose proof (wcag_linear_nonneg g (proj1 Hg)). pose proof (wcag_linear_le_1 g Hg).
  pose proof (wcag_linear_nonneg b (proj1 Hb)). pose proof (wcag_linear_le_1 b Hb).
  lra.
Qed.

Lemma getLuminance_rgb_range r g b :
  (0 <= r <= 255)%Z -> (0 <= g <= 255)%Z -> (0 <= b <= 255)%Z ->
  0 <= AdvancedDesignAnalyzer.getLuminance r g b <= 1.
Proof.
  intros Hr Hg Hb. rewrite getLuminance_rgb_wcag.
  apply wcag_luminance_range; now apply byte_unit.
Qed.

Lemma getLuminance_range hex : 0 <= AIDesignAnalyzer.getLuminance hex <= 1.
Proof.
  rewrite getLuminance_wcag. pose proof (channels_range hex) as H.
  destruct (Hex.channels hex) as [[r g] b]. destruct H as (Hr & Hg & Hb).
  apply wcag_luminance_range; now apply byte_unit.
Qed.

Lemma ratio_le_21 l1 l2 :
  0 <= l1 <= 1 -> 0 <= l2 <= 1 -> (Rmax l1 l2 + 0.05) / (Rmin l1 l2 + 0.05) <= 21.
Proof.
  intros H1 H2.
  assert (Hmin : 0 <= Rmin l1 l2) by (apply Rmin_glb; lra).
  assert (Hmax : Rmax l1 l2 <= 1) by (apply Rmax_lub; lra).
  apply Rmult_le_reg_r with (Rmin l1 l2 + 0.05); [lra|].
  unfold Rdiv. rewrite Rmult_assoc, Rinv_l by lra. lra.
Qed.

End LuminanceBounds.

(** X1. The luminance of every colour string lies between 0 and 1, the
    contrast ratio of two colours is at most 21, and a colour has
    contrast 1 with itself. *)
Theorem contrast_at_most_21 (a b : string) :
  (0 <= AIDesignAnalyzer.getLuminance a <= 1)%R /\
  (AIDesignAnalyzer.calculateContrastRatio a b <= 21)%R /\
  (AdvancedDesignAnalyzer.calculateColorContrast a b <= 21)%R /\
  AIDesignAnalyzer.calculateContrastRatio a a = 1%R.
Proof.
  refine (conj (getLuminance_range a) (conj _ (conj _ _))).
  - apply ratio_le_21; apply getLuminance_range.
  - rewrite calculateColorContrast_eq. apply ratio_le_21; apply getLuminance_range.
  - unfold AIDesignAnalyzer.calculateContrastRatio. cbv zeta.
    pose proof (getLuminance_range a) as H.
    rewrite Rmax_left, Rmin_left by lra. field. lra.
Qed.

(** *** Edges that are never found *)

Section NoEdges.
Import JS Num Random AdvancedDesignAnalyzer.

Lemma dataAt_In data i c : dataAt data i = Some c -> In c data.
Proof.
  unfold dataAt. destruct (i <? 0); [discriminate|]. apply nth_error_In.
Qed.

Lemma luminanceAt_range data index l :
  bytes data -> luminanceAt data index = Some l -> (0 <= l <= 1)%R.
Proof.
  intros Hb. unfold luminanceAt.
  destruct (dataAt data index) as [r|] eqn:Er; [|discriminate].
  destruct (dataAt data (index + 1)) as [g|] eqn:Eg; [|discriminate].
  destruct (dataAt data (index + 2)) as [b|] eqn:Eb; [|discriminate].
  intros [= <-]. unfold bytes in Hb. rewrite Forall_forall in Hb.
  apply getLuminance_rgb_range; apply Hb; eapply dataAt_In; eassumption.
Qed.

Lemma differsBy_unit threshold a b :
  (1 <= threshold)%R ->
  (forall l, a = Some l -> (0 <= l <= 1)%R) ->
  (forall l, b = Some l -> (0 <= l <= 1)%R) ->
  differsBy threshold a b = false.
Proof.
  intros Ht Ha Hb. unfold differsBy.
  destruct a as [x|]; [|reflexivity]. destruct b as [y|]; [|reflexivity].
  specialize (Ha x eq_refl). specialize (Hb y eq_refl).
  apply gtb_false. apply Rabs_le. lra.
Qed.

Lemma isPixelEdge_never data width x y threshold :
  bytes data -> (1 <= threshold)%R -> isPixelEdge data width x y threshold = false.
Proof.
  intros Hb Ht. unfold isPixelEdge.
  apply not_true_is_false. intros H. apply existsb_exists in H as (d & _ & Hd).
  rewrite differsBy_unit in Hd; [discriminate | assumption | |];
    intros l; now apply luminanceAt_range.
Qed.

Lemma countUp_range start bound step y :
  0 < step -> In y (countUp start bound step) -> start <= y < bound.
Proof.
  intros Hs. unfold countUp. rewrite in_map_iff. intros (k & <- & Hk).
  apply in_seq in Hk.
  assert (H : Z.of_nat k < (bound - start + step - 1) / step) by lia.
  assert (Hk1 : (Z.of_nat k + 1) * step <= bound - start + step - 1).
  { transitivity (((bound - start + step - 1) / step) * step); [nia|].
    rewrite Z.mul_comm. apply Z.mul_div_le. lia. }
  nia.
Qed.

Lemma lineStep_no_edge data width height x lineScore y :
  bytes data -> 1 <= y < height - 1 ->
  lineStep data width height x (lineScore, 0) y = (lineScore, 0).
Proof.
  intros Hb Hy. unfold lineStep.
  rewrite isPixelEdge_never by (try assumption; lra).
  replace (gtb (IZR 0) (IZR height * 0.1)) with false; [reflexivity|].
  symmetry. apply gtb_false.
  assert (H : (0 <= IZR height)%R) by (apply IZR_le; lia). lra.
Qed.

Lemma column_no_edge data width height x lineScore ys :
  bytes data -> Forall (fun y => 1 <= y < height - 1) ys ->
  fold_left (lineStep data width height x) ys (lineScore, 0) = (lineScore, 0).
Proof.
  intros Hb Hys. induction Hys as [|y ys Hy Hys IH]; cbn [fold_left]; [reflexivity|].
  now rewrite lineStep_no_edge.
Qed.

Lemma detectAlignmentLines_zero data width height :
  bytes data -> detectAlignmentLines data width height = 0.
Proof.
  intros Hb. unfold detectAlignmentLines.
  assert (Hys : Forall (fun y => 1 <= y < height - 1) (countUp 1 (height - 1) 1)).
  { apply Forall_forall. intros y. apply countUp_range. lia. }
  assert (Hfold : forall xs,
            fold_left (fun lineScore x =>
                         fst (fold_left (lineStep data width height x)
                                        (countUp 1 (height - 1) 1) (lineScore, 0)))
                      xs 0 = 0).
  { induction xs as [|x xs IH]; cbn [fold_left]; [reflexivity|].
    now rewrite column_no_edge. }
  now rewrite Hfold.
Qed.

Lemma regionStep_no_edge fuel data width height y st x :
  bytes data -> regionStep fuel data width height y st x = st.
Proof.
  intros Hb. unfold regionStep. destruct st as [[regions visited]|]; [|reflexivity].
  destruct (has _ visited); [reflexivity|].
  now rewrite isPixelEdge_never by (try assumption; lra).
Qed.

Lemma detectTextRegions_none fuel data width height :
  bytes data -> detectTextRegions fuel data width height = Some [].
Proof.
  intros Hb. unfold detectTextRegions.
  assert (Hrow : forall y xs st,
            fold_left (regionStep fuel data width height y) xs st = st).
  { intros y xs. induction xs as [|x xs IH]; intros st; cbn [fold_left]; [reflexivity|].
    now rewrite regionStep_no_edge, IH. }
  assert (Hall : forall ys st,
            fold_left (fun st y =>
                         fold_left (regionStep fuel data width height y)
                                   (countUp 1 (width - 1) 3) st) ys st = st).
  { induction ys as [|y ys IH]; intros st; cbn [fold_left]; [reflexivity|].
    now rewrite Hrow, IH. }
  now rewrite Hall.
Qed.

End NoEdges.

(** X2. On a pixel array of bytes [isPixelEdge] is false for every pixel
    and every threshold of 1 or more: luminances lie between 0 and 1, so
    no two differ by more than the thresholds 50 and 30 the callers
    pass. *)
Theorem isPixelEdge_false_above_1 (data : list Z) (width x y : Z) (threshold : R) :
  bytes data -> (1 <= threshold)%R ->
  AdvancedDesignAnalyzer.isPixelEdge data width x y threshold = false.
Proof. apply isPixelEdge_never. Qed.

Lemma isPixelEdge_false_above_1_witness :
  AdvancedDesignAnalyzer.isPixelEdge
    [0; 0; 0; 255; 255; 255; 255; 255; 0; 0; 0; 255; 255; 255; 255; 255] 2 0 0 30 = false.
Proof.
  apply isPixelEdge_false_above_1.
  - unfold bytes. repeat (apply Forall_cons; [lia|]). apply Forall_nil.
  - lra.
Defined.

(** X3. On a pixel array of bytes [detectAlignmentLines] finds no line,
    so the grid-alignment score [analyzeGridAlignment] is 50. *)
Theorem analyzeGridAlignment_is_50 (data : list Z) (width height : Z) :
  bytes data ->
  AdvancedDesignAnalyzer.detectAlignmentLines data width height = 0 /\
  AdvancedDesignAnalyzer.analyzeGridAlignment data width height = 50.
Proof.
  intros Hb. unfold AdvancedDesignAnalyzer.analyzeGridAlignment.
  rewrite detectAlignmentLines_zero by assumption. split; reflexivity.
Qed.

Lemma analyzeGridAlignment_is_50_witness :
  AdvancedDesignAnalyzer.detectAlignmentLines
    (Inputs.uniformData 255 0 0 255 30 30) 30 30 = 0 /\
  AdvancedDesignAnalyzer.analyzeGridAlignment
    (Inputs.uniformData 255 0 0 255 30 30) 30 30 = 50.
Proof.
  apply analyzeGridAlignment_is_50.
  unfold bytes, Inputs.uniformData. apply Forall_concat, Forall_forall.
  intros px Hpx. apply repeat_spec in Hpx. subst px.
  repeat (apply Forall_cons; [lia|]). apply Forall_nil.
Defined.

(** X4. On a pixel array of bytes and for every amount of fuel
    [detectTextRegions] returns no region, without growing one; the text
    the canvas detection gives is then always the same sentence, and no
    draw is read. *)
Theorem detectTextRegions_finds_nothing (fuel : nat) (data : list Z) (width height : Z)
    (rng : Random.Rng) (n : nat) :
  bytes data ->
  AdvancedDesignAnalyzer.detectTextRegions fuel data width height = Some [] /\
  AdvancedDesignAnalyzer.advancedCanvasTextDetection fuel data width height rng n
  = (Some "Visual design detected. Consider adding text content for better communication.",
     n).
Proof.
  intros Hb. unfold AdvancedDesignAnalyzer.advancedCanvasTextDetection.
  rewrite detectTextRegions_none by assumption. split; reflexivity.
Qed.

Lemma detectTextRegions_finds_nothing_witness :
  AdvancedDesignAnalyzer.detectTextRegions 0
    [0; 0; 0; 255; 255; 255; 255; 255; 0; 0; 0; 255; 255; 255; 255; 255] 2 2 = Some [] /\
  AdvancedDesignAnalyzer.advancedCanvasTextDetection 0
    [0; 0; 0; 255; 255; 255; 255; 255; 0; 0; 0; 255; 255; 255; 255; 255] 2 2
    Inputs.rngZero 0%nat
  = (Some "Visual design detected. Consider adding text content for better communication.",
     0%nat).
Proof.
  apply detectTextRegions_finds_nothing.
  unfold bytes. repeat (apply Forall_cons; [lia|]). apply Forall_nil.
Defined.

(** *** The sampling loop of [analyzeColors] *)

Section ColourSampling.
Import JS Num AdvancedDesignAnalyzer.

Lemma bytes_uniformData r g b a w h :
  0 <= r <= 255 -> 0 <= g <= 255 -> 0 <= b <= 255 -> 0 <= a <= 255 ->
  bytes (Inputs.uniformData r g b a w h).
Proof.
  intros Hr Hg Hb Ha. unfold bytes, Inputs.uniformData.
  apply Forall_concat, Forall_forall. intros px Hpx.
  apply repeat_spec in Hpx. subst px.
  repeat (apply Forall_cons; [assumption|]). apply Forall_nil.
Qed.

Lemma length_uniformData r g b a w h :
  0 <= w * h ->
  Z.of_nat (List.length (Inputs.uniformData r g b a w h)) = 4 * (w * h).
Proof.
  intros Hwh. unfold Inputs.uniformData.
  generalize (Z.to_nat (w * h)) (Z2Nat.id (w * h) Hwh). intros k <-.
  induction k as [|k IH]; [reflexivity|].
  cbn [repeat List.concat]. rewrite length_app. cbn [List.length]. lia.
Qed.

Lemma dataAt_defined data i :
  0 <= i < Z.of_nat (List.length data) -> exists c, dataAt data i = Some c.
Proof.
  intros Hi. unfold dataAt.
  destruct (i <? 0) eqn:E; [apply Z.ltb_lt in E; lia|].
  destruct (nth_error data (Z.to_nat i)) as [c|] eqn:En; [eauto|].
  apply nth_error_None in En. lia.
Qed.

(** With a step of zero the loop reads the first pixel again and again:
    the map never holds more than that one colour. *)
Lemma sampleColors_stuck data r g b :
  dataAt data 0 = Some r -> dataAt data 1 = Some g -> dataAt data 2 = Some b ->
  forall fuel colorMap,
    (colorMap = [] \/ exists n, colorMap = [(quantizeColor r g b, n)]) ->
    sampleColors fuel data 0 0 colorMap = OutOfFuel.
Proof.
  intros Hr Hg Hb. induction fuel as [|fuel IH]; intros colorMap Hm; [reflexivity|].
  cbn [sampleColors].
  assert (Hlen : 0 < Z.of_nat (List.length data)).
  { destruct data; [discriminate Hr | cbn; lia]. }
  replace (0 <? Z.of_nat (List.length data)) with true by (symmetry; apply Z.ltb_lt; lia).
  replace (Z.of_nat (List.length colorMap) <? 5000) with true.
  2:{ symmetry. apply Z.ltb_lt. destruct Hm as [-> | [n ->]]; cbn; lia. }
  cbn [andb]. change (0 + 1) with 1. change (0 + 2) with 2.
  rewrite Hr, Hg, Hb. change (0 + 0 * 4) with 0.
  apply IH. right.
  destruct Hm as [-> | [n ->]];
    generalize (quantizeColor r g b) as q; intros q; cbn [mapGet mapSet].
  - eauto.
  - rewrite String.eqb_refl. eauto.
Qed.

Lemma mapSet_keys k v m :
  map fst (mapSet k v m)
  = if existsb (String.eqb k) (map fst m) then map fst m else (map fst m ++ [k])%list.
Proof.
  induction m as [|[k' v'] m IH]; cbn [mapSet map fst existsb app]; [reflexivity|].
  destruct (String.eqb k k'); cbn [orb map fst]; [reflexivity|].
  rewrite IH. destruct (existsb (String.eqb k) (map fst m)); reflexivity.
Qed.

Lemma mapSet_NoDup k v m : NoDup (map fst m) -> NoDup (map fst (mapSet k v m)).
Proof.
  intros Hm. rewrite mapSet_keys.
  destruct (existsb (String.eqb k) (map fst m)) eqn:E; [assumption|].
  apply NoDup_app; [assumption | repeat constructor; intros [] | ].
  intros x Hx [<- | []].
  apply existsb_eqb_In in Hx. congruence.
Qed.

Lemma mapSet_not_nil k v m : mapSet k v m <> [].
Proof. destruct m as [|[k' v'] m]; cbn; [|destruct (String.eqb k k')]; discriminate. Qed.

(** With a step of at least one pixel the loop ends within the fuel:
    each turn moves four entries on or more. *)
Lemma sampleColors_ends data step :
  1 <= step -> Z.of_nat (List.length data) mod 4 = 0 ->
  forall fuel i colorMap,
    0 <= i -> i mod 4 = 0 ->
    Z.of_nat (List.length data) - i < 4 * Z.of_nat fuel -> (0 < fuel)%nat ->
    NoDup (map fst colorMap) ->
    exists colorMap',
      sampleColors fuel data step i colorMap = Done colorMap' /\
      NoDup (map fst colorMap') /\
      (i < Z.of_nat (List.length data) -> colorMap = [] -> colorMap' <> []).
Proof.
  intros Hstep Hmod. set (len := Z.of_nat (List.length data)) in *.
  induction fuel as [|fuel IH]; intros i colorMap Hi Himod Hfuel Hpos Hnd.
  - exfalso. lia.
  - cbn [sampleColors]. fold len.
    destruct ((i <? len) && (Z.of_nat (List.length colorMap) <? 5000)) eqn:E.
    + apply andb_prop in E as [Ei _]. apply Z.ltb_lt in Ei.
      assert (Hroom : i + 4 <= len).
      { pose proof (Z.div_mod i 4 ltac:(lia)). pose proof (Z.div_mod len 4 ltac:(lia)).
        lia. }
      destruct (dataAt_defined data i ltac:(fold len; lia)) as [r ->].
      destruct (dataAt_defined data (i + 1) ltac:(fold len; lia)) as [g ->].
      destruct (dataAt_defined data (i + 2) ltac:(fold len; lia)) as [b ->].
      destruct (IH (i + step * 4)
                  (mapSet (quantizeColor r g b)
                     (match mapGet (quantizeColor r g b) colorMap with
                      | Some n => n | None => 0 end + 1) colorMap))
        as (m' & Hrun & Hnd' & Hne).
      * lia.
      * rewrite Z.mod_add by lia. assumption.
      * lia.
      * lia.
      * now apply mapSet_NoDup.
      * exists m'. repeat split; try assumption.
        intros _ _. clear Hne Hnd' Hnd IH.
        revert Hrun. generalize (quantizeColor r g b) as q. intros q Hrun.
        destruct fuel as [|fuel]; [discriminate Hrun|].
        (* the map is never emptied: it is returned or grown *)
        assert (Hgrow : forall f j m, m <> [] -> forall out,
                  sampleColors f data step j m = Done out -> out <> []).
        { induction f as [|f IHf]; intros j m Hm out; [discriminate|].
          cbn [sampleColors].
          destruct ((j <? Z.of_nat (List.length data))
                    && (Z.of_nat (List.length m) <? 5000)); [|now intros [= <-]].
          destruct (dataAt data j); [|discriminate].
          destruct (dataAt data (j + 1)); [|discriminate].
          destruct (dataAt data (j + 2)); [|discriminate].
          apply IHf. apply mapSet_not_nil. }
        eapply Hgrow; [|exact Hrun]. apply mapSet_not_nil.
    + exists colorMap. repeat split; try assumption.
      intros Hlt ->. apply andb_false_elim in E as [E | E].
      * apply Z.ltb_ge in E. lia.
      * cbn in E. discriminate.
Qed.

End ColourSampling.

(** X5. On a picture of fewer than 5000 pixels the step of the sampling
    loop of [analyzeColors] is zero, and the loop never ends: whatever
    the fuel, the run is still in the loop when it is used up. *)
Theorem analyzeColors_never_ends_below_5000 (fuel : nat) (data : list Z) :
  3 <= Z.of_nat (List.length data) < 20000 ->
  AdvancedDesignAnalyzer.analyzeColors fuel data = AdvancedDesignAnalyzer.OutOfFuel.
Proof.
  intros [Hlo Hhi]. unfold AdvancedDesignAnalyzer.analyzeColors. cbv zeta.
  replace (Z.of_nat (List.length data) / 4 / 5000) with 0.
  2:{ symmetry. rewrite Z.div_div by lia. apply Z.div_small. lia. }
  destruct (dataAt_defined data 0 ltac:(lia)) as [r Hr].
  destruct (dataAt_defined data 1 ltac:(lia)) as [g Hg].
  destruct (dataAt_defined data 2 ltac:(lia)) as [b Hb].
  rewrite (sampleColors_stuck data r g b Hr Hg Hb fuel []); [reflexivity | now left].
Qed.

Lemma analyzeColors_never_ends_below_5000_witness :
  AdvancedDesignAnalyzer.analyzeColors 1000 (Inputs.uniformData 255 0 0 255 50 50)
  = AdvancedDesignAnalyzer.OutOfFuel.
Proof.
  apply analyzeColors_never_ends_below_5000.
  rewrite length_uniformData; lia.
Defined.

(** X6. On a picture of 5000 pixels or more the sampling loop of
    [analyzeColors] ends within as many turns as the array has entries.
    The palette then holds one to eight colours, none twice, and starts
    with the background colour. *)
Theorem analyzeColors_ends_from_5000 (data : list Z) :
  Z.of_nat (List.length data) mod 4 = 0 ->
  20000 <= Z.of_nat (List.length data) ->
  exists report,
    AdvancedDesignAnalyzer.analyzeColors (List.length data) data
      = AdvancedDesignAnalyzer.Done report /\
    (1 <= List.length (AdvancedDesignAnalyzer.report_palette report) <= 8)%nat /\
    NoDup (AdvancedDesignAnalyzer.report_palette report) /\
    hd_error (AdvancedDesignAnalyzer.report_palette report)
      = Some (AdvancedDesignAnalyzer.background
                (AdvancedDesignAnalyzer.report_dominantColors report)).
Proof.
  intros Hmod Hlen. unfold AdvancedDesignAnalyzer.analyzeColors. cbv zeta.
  set (step := Z.of_nat (List.length data) / 4 / 5000).
  assert (Hstep : 1 <= step).
  { subst step. rewrite Z.div_div by lia. apply Z.div_le_lower_bound; lia. }
  destruct (sampleColors_ends data step Hstep Hmod (List.length data) 0 [])
    as (m & Hrun & Hnd & Hne); try lia; [reflexivity | constructor |].
  rewrite Hrun. specialize (Hne ltac:(lia) eq_refl).
  set (sorted := Num.sortBy (fun a b => snd b - snd a <=? 0) m).
  assert (Hperm : Permutation sorted m) by apply sortBy_perm.
  assert (Hsne : sorted <> []).
  { intros E. rewrite E in Hperm. apply Permutation_nil in Hperm. contradiction. }
  eexists. split; [reflexivity|].
  cbn [AdvancedDesignAnalyzer.report_palette AdvancedDesignAnalyzer.report_dominantColors].
  refine (conj _ (conj _ _)).
  - rewrite length_map. split; [|apply firstn_le_length].
    destruct sorted; [contradiction | cbn; lia].
  - rewrite <- firstn_map. apply NoDup_firstn.
    apply (Permutation_NoDup (Permutation_sym (Permutation_map fst Hperm))). assumption.
  - destruct sorted as [|[c k] rest]; [contradiction|]. reflexivity.
Qed.

Lemma analyzeColors_ends_from_5000_witness :
  exists report,
    AdvancedDesignAnalyzer.analyzeColors
      (List.length (Inputs.uniformData 255 0 0 255 100 100))
      (Inputs.uniformData 255 0 0 255 100 100)
      = AdvancedDesignAnalyzer.Done report /\
    (1 <= List.length (AdvancedDesignAnalyzer.report_palette report) <= 8)%nat.
Proof.
  destruct (analyzeColors_ends_from_5000 (Inputs.uniformData 255 0 0 255 100 100))
    as (report & Hrun & Hlen & _).
  - rewrite length_uniformData by lia. reflexivity.
  - rewrite length_uniformData by lia. lia.
  - exists report. split; assumption.
Defined.

(** *** The text colour of the second analyzer *)

Section TextColour.
Import JS Num AdvancedDesignAnalyzer.
Local Open Scope R_scope.

Lemma getLuminanceFromHex_range hex : 0 <= getLuminanceFromHex hex <= 1.
Proof. rewrite getLuminanceFromHex_eq. apply getLuminance_range. Qed.

(** The contrast written out in the loop is [calculateColorContrast]. *)
Lemma inline_contrast background color :
  (if gtb (getLuminanceFromHex background) (getLuminanceFromHex color)
   then (getLuminanceFromHex background + 0.05) / (getLuminanceFromHex color + 0.05)
   else (getLuminanceFromHex color + 0.05) / (getLuminanceFromHex background + 0.05))
  = calculateColorContrast background color.
Proof.
  unfold calculateColorContrast. cbv zeta.
  destruct (gtb _ _) eqn:E.
  - apply gtb_true in E. now rewrite Rmax_left, Rmin_right by lra.
  - apply gtb_false in E. now rewrite Rmax_right, Rmin_left by lra.
Qed.

Lemma bestText_invariant background entries st :
  (fst st = 0 \/ fst st = calculateColorContrast background (snd st)) ->
  let st' := fold_left (bestTextStep (getLuminanceFromHex background)) entries st in
  fst st' = 0 \/ fst st' = calculateColorContrast background (snd st').
Proof.
  revert st. induction entries as [|e entries IH]; intros st Hst; cbn [fold_left];
    [exact Hst|].
  apply IH. unfold bestTextStep. cbv zeta. rewrite inline_contrast.
  destruct (gtb _ (fst st) && gtb _ 2); [right; reflexivity | exact Hst].
Qed.

Lemma contrast_with_black hex :
  calculateColorContrast hex "#000000" = (getLuminanceFromHex hex + 0.05) / 0.05.
Proof.
  unfold calculateColorContrast. cbv zeta.
  rewrite (getLuminanceFromHex_eq "#000000"), luminance_of_black.
  pose proof (getLuminanceFromHex_range hex).
  rewrite Rmax_left, Rmin_right by lra. f_equal. lra.
Qed.

Lemma contrast_with_white hex :
  calculateColorContrast hex "#FFFFFF" = 1.05 / (getLuminanceFromHex hex + 0.05).
Proof.
  unfold calculateColorContrast. cbv zeta.
  rewrite (getLuminanceFromHex_eq "#FFFFFF"), luminance_of_white.
  pose proof (getLuminanceFromHex_range hex).
  rewrite Rmax_right, Rmin_left by lra. f_equal. lra.
Qed.

Lemma findBestTextColor_contrast background colors :
  let t := findBestTextColor background colors in
  21 / 11 <= calculateColorContrast background t /\
  (0.5 < getLuminanceFromHex background \/ getLuminanceFromHex background <= 11 / 60 ->
   4.5 <= calculateColorContrast background t).
Proof.
  cbv zeta. unfold findBestTextColor.
  pose proof (bestText_invariant background (firstn 10 colors) (0, "#000000")
                (or_introl eq_refl)) as Hinv.
  cbv zeta in Hinv.
  destruct (fold_left _ (firstn 10 colors) (0, "#000000")) as [bestContrast bestColor].
  cbn [fst snd] in Hinv.
  pose proof (getLuminanceFromHex_range background) as Hbg.
  destruct (leb 4.5 bestContrast) eqn:E.
  - apply leb_true in E. destruct Hinv as [H0 | Hc]; [lra|].
    rewrite <- Hc. split; [lra | intros _; lra].
  - destruct (gtb (getLuminanceFromHex background) 0.5) eqn:El.
    + apply gtb_true in El. rewrite contrast_with_black.
      assert (H : 11 <= (getLuminanceFromHex background + 0.05) / 0.05).
      { apply Rmult_le_reg_r with 0.05; [lra|].
        unfold Rdiv. rewrite Rmult_assoc, Rinv_l by lra. lra. }
      split; [lra | intros _; lra].
    + apply gtb_false in El. rewrite contrast_with_white.
      set (L := getLuminanceFromHex background) in *.
      assert (Hd : 0 < L + 0.05) by lra.
      split.
      * apply Rmult_le_reg_r with (L + 0.05); [lra|].
        unfold Rdiv at 2. rewrite Rmult_assoc, Rinv_l by lra. lra.
      * intros [H | H]; [lra|].
        apply Rmult_le_reg_r with (L + 0.05); [lra|].
        unfold Rdiv. rewrite Rmult_assoc, Rinv_l by lra. lra.
Qed.

End TextColour.

(** X7. The text colour that [findBestTextColor] of the second analyzer
    picks has a contrast of at least 21/11 with the background, and of at
    least 4.5 when the background luminance is above 0.5 or at most
    11/60.  The bound 21/11 also holds for the text and background of
    [calculateDominantColors], empty input included. *)
Theorem second_text_colour_contrast (background : string) (colors : list (string * Z)) :
  let t := AdvancedDesignAnalyzer.findBestTextColor background colors in
  let d := AdvancedDesignAnalyzer.calculateDominantColors colors in
  (21 / 11 <= AdvancedDesignAnalyzer.calculateColorContrast background t)%R /\
  ((0.5 < AdvancedDesignAnalyzer.getLuminanceFromHex background \/
    AdvancedDesignAnalyzer.getLuminanceFromHex background <= 11 / 60)%R ->
   (4.5 <= AdvancedDesignAnalyzer.calculateColorContrast background t)%R) /\
  (21 / 11 <= AdvancedDesignAnalyzer.calculateColorContrast
                (AdvancedDesignAnalyzer.background d) (AdvancedDesignAnalyzer.text d))%R.
Proof.
  cbv zeta.
  destruct (findBestTextColor_contrast background colors) as [H1 H2].
  refine (conj H1 (conj H2 _)).
  unfold AdvancedDesignAnalyzer.calculateDominantColors.
  destruct colors as [|[bg k] rest].
  - cbn [AdvancedDesignAnalyzer.background AdvancedDesignAnalyzer.text].
    rewrite contrast_with_black, (getLuminanceFromHex_eq "#FFFFFF"), luminance_of_white.
    lra.
  - cbn [AdvancedDesignAnalyzer.background AdvancedDesignAnalyzer.text].
    apply findBestTextColor_contrast.
Qed.

(** *** Quantizing and adjusting channels *)

Section Channels.
Import JS Num AdvancedDesignAnalyzer.

Lemma rgbToHex_channels r g b :
  0 <= r <= 255 -> 0 <= g <= 255 -> 0 <= b <= 255 ->
  Hex.channels (rgbToHex r g b) = (r, g, b).
Proof.
  intros Hr Hg Hb. unfold Hex.channels.
  change (rgbToHex r g b)
    with (String "#" (concat "" (map (fun x => padLength1 (toString16 x)) [r; g; b]))).
  rewrite (hexToRgb_of_bytes padLength1) by now apply byteCheck_padLength1.
  reflexivity.
Qed.


Lemma level_range c : 0 <= c <= 255 -> 0 <= c / 8 * 8 <= 255 /\ 0 <= c - c / 8 * 8 < 8.
Proof.
  intros Hc. pose proof (Z.div_mod c 8 ltac:(lia)).
  pose proof (Z.mod_pos_bound c 8 ltac:(lia)). lia.
Qed.

Lemma level_idempotent c : c / 8 * 8 / 8 * 8 = c / 8 * 8.
Proof. now rewrite Z.div_mul by lia. Qed.

Lemma clamp_range c amount : 0 <= Z.min 255 (Z.max 0 (c + amount)) <= 255.
Proof. lia. Qed.

Lemma adjustColor_channels hex amount :
  let '(r, g, b) := Hex.channels hex in
  Hex.channels (adjustColor hex amount)
  = (Z.min 255 (Z.max 0 (r + amount)), Z.min 255 (Z.max 0 (g + amount)),
     Z.min 255 (Z.max 0 (b + amount))).
Proof.
  unfold adjustColor. destruct (Hex.channels hex) as [[r g] b].
  apply rgbToHex_channels; apply clamp_range.
Qed.

End Channels.

(** X8. For byte channels [quantizeColor] gives a colour whose channels
    are the multiples of 8 just below the given ones, less than 8 away,
    and quantizing those channels again changes nothing. *)
Theorem quantizeColor_levels (r g b : Z) :
  0 <= r <= 255 -> 0 <= g <= 255 -> 0 <= b <= 255 ->
  AdvancedDesignAnalyzer.hexToRgb (AdvancedDesignAnalyzer.quantizeColor r g b)
    = [r / 8 * 8; g / 8 * 8; b / 8 * 8] /\
  (0 <= r - r / 8 * 8 < 8 /\ 0 <= g - g / 8 * 8 < 8 /\ 0 <= b - b / 8 * 8 < 8) /\
  AdvancedDesignAnalyzer.quantizeColor (r / 8 * 8) (g / 8 * 8) (b / 8 * 8)
    = AdvancedDesignAnalyzer.quantizeColor r g b.
Proof.
  intros Hr Hg Hb.
  destruct (level_range r Hr) as [Hr1 Hr2], (level_range g Hg) as [Hg1 Hg2],
    (level_range b Hb) as [Hb1 Hb2].
  refine (conj _ (conj (conj Hr2 (conj Hg2 Hb2)) _)).
  - unfold AdvancedDesignAnalyzer.quantizeColor. cbv zeta.
    apply (hexToRgb_of_bytes padLength1); now apply byteCheck_padLength1.
  - unfold AdvancedDesignAnalyzer.quantizeColor. cbv zeta.
    now rewrite !level_idempotent.
Qed.

Lemma quantizeColor_levels_witness :
  AdvancedDesignAnalyzer.hexToRgb (AdvancedDesignAnalyzer.quantizeColor 255 10 77)
    = [248; 8; 72] /\
  AdvancedDesignAnalyzer.quantizeColor 248 8 72
    = AdvancedDesignAnalyzer.quantizeColor 255 10 77.
Proof.
  destruct (quantizeColor_levels 255 10 77) as (H1 & _ & H2); try lia.
  split; [exact H1 | exact H2].
Defined.

(** X9. [adjustColor] adds the amount to each channel of the colour and
    clamps it to a byte; two adjustments by amounts that are not negative
    are one adjustment by their sum. *)
Theorem adjustColor_clamps (hex : string) (amount1 amount2 : Z) :
  (let '(r, g, b) := Hex.channels hex in
   AdvancedDesignAnalyzer.hexToRgb (AdvancedDesignAnalyzer.adjustColor hex amount1)
   = [Z.min 255 (Z.max 0 (r + amount1)); Z.min 255 (Z.max 0 (g + amount1));
      Z.min 255 (Z.max 0 (b + amount1))]) /\
  (0 <= amount1 -> 0 <= amount2 ->
   AdvancedDesignAnalyzer.adjustColor
     (AdvancedDesignAnalyzer.adjustColor hex amount1) amount2
   = AdvancedDesignAnalyzer.adjustColor hex (amount1 + amount2)).
Proof.
  pose proof (channels_range hex) as Hc.
  pose proof (adjustColor_channels hex amount1) as H1.
  destruct (Hex.channels hex) as [[r g] b] eqn:E.
  cbv beta iota in Hc. destruct Hc as (Hr & Hg & Hb0). split.
  - unfold AdvancedDesignAnalyzer.adjustColor. rewrite E.
    apply (hexToRgb_of_bytes padLength1); apply byteCheck_padLength1; lia.
  - intros Ha Hb. unfold AdvancedDesignAnalyzer.adjustColor at 1 3.
    rewrite H1, E.
    assert (Hsum : forall c, 0 <= c <= 255 ->
              Z.min 255 (Z.max 0 (Z.min 255 (Z.max 0 (c + amount1)) + amount2))
              = Z.min 255 (Z.max 0 (c + (amount1 + amount2)))).
    { intros c Hc. rewrite (Z.max_r 0 (c + amount1)) by lia.
      destruct (Z_le_gt_dec (c + amount1) 255).
      - rewrite (Z.min_r 255 (c + amount1)) by lia. lia.
      - rewrite (Z.min_l 255 (c + amount1)) by lia. lia. }
    now rewrite !Hsum by assumption.
Qed.

Lemma adjustColor_clamps_witness :
  AdvancedDesignAnalyzer.adjustColor
    (AdvancedDesignAnalyzer.adjustColor "#f0a010" 30) 50
  = AdvancedDesignAnalyzer.adjustColor "#f0a010" (30 + 50).
Proof.
  apply (proj2 (adjustColor_clamps "#f0a010" 30 50)); lia.
Defined.

(** *** The size of the canvas *)

Lemma Math_floor_between v lo hi :
  (IZR lo <= v <= IZR hi)%R -> lo <= JS.Math_floor v <= hi.
Proof.
  intros [Hlo Hhi]. unfold JS.Math_floor.
  destruct (base_Int_part v) as [Hl Hu]. split.
  - apply Z.lt_succ_r, Z.lt_pred_lt_succ, lt_IZR.
    unfold Z.pred. rewrite plus_IZR. cbn. lra.
  - apply Z.lt_succ_r, lt_IZR. unfold Z.succ. rewrite plus_IZR. cbn. lra.
Qed.

(** X10. For a picture of at least one pixel each way [setupCanvas]
    gives a canvas that is never larger than the picture nor than 800
    either way, and that has the size of the picture when that is within
    800 both ways. *)
Theorem setupCanvas_caps_at_800 (imageWidth imageHeight : Z) :
  1 <= imageWidth -> 1 <= imageHeight ->
  let '(w, h) := AdvancedDesignAnalyzer.setupCanvas imageWidth imageHeight in
  0 <= w <= Z.min imageWidth 800 /\
  0 <= h <= Z.min imageHeight 800 /\
  (imageWidth <= 800 -> imageHeight <= 800 -> w = imageWidth /\ h = imageHeight).
Proof.
  intros Hw Hh. unfold AdvancedDesignAnalyzer.setupCanvas,
    AdvancedDesignAnalyzer.canvasScale. cbv zeta.
  set (longer := Z.max imageWidth imageHeight).
  assert (Hl : 1 <= longer) by (unfold longer; lia).
  replace (longer =? 0) with false by (symmetry; apply Z.eqb_neq; lia).
  assert (HL : (1 <= IZR longer)%R) by (apply IZR_le; lia).
  assert (HW : (1 <= IZR imageWidth <= IZR longer)%R)
    by (split; apply IZR_le; unfold longer; lia).
  assert (HH : (1 <= IZR imageHeight <= IZR longer)%R)
    by (split; apply IZR_le; unfold longer; lia).
  set (scale := Rmin 1 (800 / IZR longer)).
  assert (Hq : (0 < 800 / IZR longer)%R).
  { apply Rdiv_lt_0_compat; lra. }
  assert (Hs : (0 < scale <= 1)%R).
  { unfold scale. split; [apply Rmin_glb_lt; lra | apply Rmin_l]. }
  assert (Hcap : (IZR longer * scale <= 800)%R).
  { unfold scale. pose proof (Rmin_r 1 (800 / IZR longer)) as Hr.
    apply Rle_trans with (IZR longer * (800 / IZR longer))%R.
    - apply Rmult_le_compat_l; lra.
    - right. field. lra. }
  assert (Hside : forall side, (1 <= IZR side <= IZR longer)%R ->
            (0 <= IZR side * scale <= IZR (Z.min side 800))%R).
  { intros side Hside.
    assert (H1 : (IZR side * scale <= IZR side * 1)%R)
      by (apply Rmult_le_compat_l; lra).
    assert (H2 : (IZR side * scale <= IZR longer * scale)%R)
      by (apply Rmult_le_compat_r; lra).
    assert (H3 : (0 <= IZR side * scale)%R) by (apply Rmult_le_pos; lra).
    split; [assumption|].
    destruct (Z.min_spec side 800) as [[_ ->] | [_ ->]]; lra. }
  pose proof (Hside imageWidth HW) as Bw.
  pose proof (Hside imageHeight HH) as Bh.
  refine (conj _ (conj _ _)).
  - apply Math_floor_between. exact Bw.
  - apply Math_floor_between. exact Bh.
  - intros Hw8 Hh8.
    assert (Hone : scale = 1%R).
    { unfold scale. apply Rmin_left.
      assert (IZR longer <= 800)%R by (apply IZR_le; unfold longer; lia).
      apply Rmult_le_reg_r with (IZR longer); [lra|].
      unfold Rdiv. rewrite Rmult_assoc, Rinv_l by lra. lra. }
    rewrite Hone, !Rmult_1_r. unfold JS.Math_floor.
    split; symmetry; apply Int_part_spec; lra.
Qed.

Lemma setupCanvas_caps_at_800_witness :
  let '(w, h) := AdvancedDesignAnalyzer.setupCanvas 1600 1200 in
  0 <= w <= 800 /\ 0 <= h <= 800.
Proof.
  pose proof (setupCanvas_caps_at_800 1600 1200 ltac:(lia) ltac:(lia)) as H.
  destruct (AdvancedDesignAnalyzer.setupCanvas 1600 1200) as [w h].
  destruct H as (Hw & Hh & _). split; lia.
Defined.

(** *** Scores of the layout *)

Section LayoutScores.
Import JS Num AdvancedDesignAnalyzer.
Local Open Scope R_scope.

Lemma calculateVisualWeight_facts q :
  nonNegative q ->
  0 <= calculateVisualWeight q <= 100 /\
  (totalOf q = 0 -> calculateVisualWeight q = 50) /\
  (totalOf q <> 0 -> q0 q = q1 q -> q1 q = q2 q -> q2 q = q3 q ->
   calculateVisualWeight q = 100).
Proof.
  intros (H0 & H1 & H2 & H3). unfold calculateVisualWeight, totalOf.
  set (t := 0 + q0 q + q1 q + q2 q + q3 q).
  destruct (Req_dec_T t 0) as [E | E].
  - split; [lra|]. split; [reflexivity | intros F; contradiction].
  - assert (Ht : 0 < t) by (subst t; lra).
    set (variance := (0 + (q0 q - t / 4) ^ 2 + (q1 q - t / 4) ^ 2
                        + (q2 q - t / 4) ^ 2 + (q3 q - t / 4) ^ 2) / 4).
    assert (Hv : 0 <= variance).
    { unfold variance.
      pose proof (pow2_ge_0 (q0 q - t / 4)). pose proof (pow2_ge_0 (q1 q - t / 4)).
      pose proof (pow2_ge_0 (q2 q - t / 4)). pose proof (pow2_ge_0 (q3 q - t / 4)). lra. }
    assert (Hr : 0 <= variance / t * 100).
    { apply Rmult_le_pos; [|lra]. apply Rmult_le_pos; [assumption|].
      left. now apply Rinv_0_lt_compat. }
    split; [|split; [intros F; contradiction|intros _ A B C]].
    + split; [apply Rmax_l | apply Rmax_lub; lra].
    + assert (Hq : forall x, x = q0 q -> (x - t / 4) ^ 2 = 0).
      { intros x ->. replace (q0 q - t / 4) with 0; [lra|]. subst t. lra. }
      assert (Hvar : variance = 0).
      { unfold variance.
        rewrite (Hq (q0 q)), (Hq (q1 q)), (Hq (q2 q)), (Hq (q3 q)) by lra. lra. }
      rewrite Hvar. unfold Rdiv. rewrite !Rmult_0_l, Rminus_0_r.
      apply Rmax_right. lra.
Qed.

(** All the weight in one quarter: the variance grows with the square of
    the weight and the score falls to 0. *)
Lemma calculateVisualWeight_one_quarter w :
  6 <= w -> calculateVisualWeight (MkQuarters w 0 0 0) = 0.
Proof.
  intros Hw. unfold calculateVisualWeight, totalOf. cbn [q0 q1 q2 q3].
  destruct (Req_dec_T (0 + w + 0 + 0 + 0) 0) as [E | _]; [lra|].
  replace ((0 + (w - (0 + w + 0 + 0 + 0) / 4) ^ 2 + (0 - (0 + w + 0 + 0 + 0) / 4) ^ 2
              + (0 - (0 + w + 0 + 0 + 0) / 4) ^ 2 + (0 - (0 + w + 0 + 0 + 0) / 4) ^ 2)
           / 4 / (0 + w + 0 + 0 + 0) * 100)
    with (75 / 4 * w) by (field; lra).
  apply Rmax_left. lra.
Qed.

Lemma calculateBalance_zero q : totalOf q = 0 -> calculateBalance q = 50%Z.
Proof.
  intros Ht. unfold calculateBalance.
  destruct (Req_dec_T (totalOf q) 0) as [_ | E]; [reflexivity | contradiction].
Qed.

Lemma calculateBalance_balanced q :
  totalOf q <> 0 ->
  q0 q + q2 q = q1 q + q3 q -> q0 q + q1 q = q2 q + q3 q ->
  calculateBalance q = 100%Z.
Proof.
  intros Ht Hh Hv. unfold calculateBalance.
  destruct (Req_dec_T (totalOf q) 0) as [E | _]; [contradiction|].
  rewrite Hh, Hv, !Rminus_diag. unfold Rdiv. rewrite !Rmult_0_l, Rabs_R0.
  replace ((100 - 0 * 100 + (100 - 0 * 100)) * / 2) with (IZR 100) by lra.
  apply Math_round_IZR.
Qed.

Lemma calculateBalance_one_quarter w :
  0 < w -> calculateBalance (MkQuarters w 0 0 0) = 0%Z.
Proof.
  intros Hw. unfold calculateBalance, totalOf. cbn [q0 q1 q2 q3].
  destruct (Req_dec_T (0 + w + 0 + 0 + 0) 0) as [E | _]; [lra|].
  replace ((w + 0 - (0 + 0)) / (0 + w + 0 + 0 + 0)) with 1 by (field; lra).
  rewrite Rabs_R1.
  replace ((100 - 1 * 100 + (100 - 1 * 100)) / 2) with (IZR 0) by lra.
  apply Math_round_IZR.
Qed.

End LayoutScores.

(** X11. For weights that are not negative the visual-weight score lies
    between 0 and 100.  It is 50 when all weights are zero and 100 when
    the four weights are equal and not zero; it is 0 when all the weight
    is in the top-left quarter and is 6 or more. *)
Theorem visual_weight_score (q : AdvancedDesignAnalyzer.Quarters) :
  nonNegative q ->
  (0 <= AdvancedDesignAnalyzer.calculateVisualWeight q <= 100)%R /\
  (AdvancedDesignAnalyzer.totalOf q = 0%R ->
   AdvancedDesignAnalyzer.calculateVisualWeight q = 50%R) /\
  (AdvancedDesignAnalyzer.totalOf q <> 0%R ->
   AdvancedDesignAnalyzer.q0 q = AdvancedDesignAnalyzer.q1 q ->
   AdvancedDesignAnalyzer.q1 q = AdvancedDesignAnalyzer.q2 q ->
   AdvancedDesignAnalyzer.q2 q = AdvancedDesignAnalyzer.q3 q ->
   AdvancedDesignAnalyzer.calculateVisualWeight q = 100%R) /\
  (forall w, (6 <= w)%R ->
     AdvancedDesignAnalyzer.calculateVisualWeight
       (AdvancedDesignAnalyzer.MkQuarters w 0 0 0) = 0%R).
Proof.
  intros Hq. destruct (calculateVisualWeight_facts q Hq) as (Hr & Hz & He).
  refine (conj Hr (conj Hz (conj He _))).
  apply calculateVisualWeight_one_quarter.
Qed.

Lemma visual_weight_score_witness :
  (0 <= AdvancedDesignAnalyzer.calculateVisualWeight
          (AdvancedDesignAnalyzer.MkQuarters 3 1 2 2) <= 100)%R.
Proof.
  apply (visual_weight_score (AdvancedDesignAnalyzer.MkQuarters 3 1 2 2)).
  unfold nonNegative. cbn. lra.
Defined.

(** X12. For weights that are not negative the balance score lies
    between 0 and 100.  It is 50 when all four weights are zero.  When
    they are not all zero, it is 100 if left and right weigh the same and
    top and bottom weigh the same; and it is 0 when all the weight is in
    the top-left quarter. *)
Theorem balance_score (q : AdvancedDesignAnalyzer.Quarters) :
  nonNegative q ->
  0 <= AdvancedDesignAnalyzer.calculateBalance q <= 100 /\
  (AdvancedDesignAnalyzer.totalOf q = 0%R ->
   AdvancedDesignAnalyzer.calculateBalance q = 50) /\
  (AdvancedDesignAnalyzer.totalOf q <> 0%R ->
   (AdvancedDesignAnalyzer.q0 q + AdvancedDesignAnalyzer.q2 q
    = AdvancedDesignAnalyzer.q1 q + AdvancedDesignAnalyzer.q3 q)%R ->
   (AdvancedDesignAnalyzer.q0 q + AdvancedDesignAnalyzer.q1 q
    = AdvancedDesignAnalyzer.q2 q + AdvancedDesignAnalyzer.q3 q)%R ->
   AdvancedDesignAnalyzer.calculateBalance q = 100) /\
  (forall w, (0 < w)%R ->
     AdvancedDesignAnalyzer.calculateBalance (AdvancedDesignAnalyzer.MkQuarters w 0 0 0) = 0).
Proof.
  intros Hq. refine (conj (calculateBalance_range q Hq) (conj _ (conj _ _))).
  - apply calculateBalance_zero.
  - apply calculateBalance_balanced.
  - apply calculateBalance_one_quarter.
Qed.

Lemma balance_score_witness :
  0 <= AdvancedDesignAnalyzer.calculateBalance
         (AdvancedDesignAnalyzer.MkQuarters 3 1 2 2) <= 100.
Proof.
  apply (balance_score (AdvancedDesignAnalyzer.MkQuarters 3 1 2 2)).
  unfold nonNegative. cbn. lra.
Defined.

(** X13. For weights that are not negative the symmetry score is a
    number exactly when the top-left weight is above zero or the three
    other weights all are; where it is a number it lies between 50 and
    100, and four equal weights above zero give 100. *)
Theorem symmetry_score (q : AdvancedDesignAnalyzer.Quarters) :
  nonNegative q ->
  ((exists s, AdvancedDesignAnalyzer.calculateSymmetry q = Some s) <->
   (0 < AdvancedDesignAnalyzer.q0 q \/
    (0 < AdvancedDesignAnalyzer.q1 q /\ 0 < AdvancedDesignAnalyzer.q2 q /\
     0 < AdvancedDesignAnalyzer.q3 q))%R) /\
  (forall s, AdvancedDesignAnalyzer.calculateSymmetry q = Some s -> 50 <= s <= 100) /\
  (forall w, (0 < w)%R ->
     AdvancedDesignAnalyzer.calculateSymmetry (AdvancedDesignAnalyzer.MkQuarters w w w w)
     = Some 100).
Proof.
  intros Hq. refine (conj (calculateSymmetry_defined q Hq) (conj _ _)).
  - intros s. now apply calculateSymmetry_range.
  - intros w Hw. apply equal_weights_100. assumption.
Qed.

Lemma symmetry_score_witness :
  exists s,
    AdvancedDesignAnalyzer.calculateSymmetry (AdvancedDesignAnalyzer.MkQuarters 3 1 2 2)
    = Some s.
Proof.
  apply (proj1 (symmetry_score (AdvancedDesignAnalyzer.MkQuarters 3 1 2 2)
                  ltac:(unfold nonNegative; cbn; lra))).
  left. cbn. lra.
Defined.

(** *** Reference colours, grey pixels and duplicates *)

Section FirstAnalyzerFacts.
Import JS Num Random AIDesignAnalyzer.

Lemma quantizeToWebColors_In hex : In (quantizeToWebColors hex) webColors.
Proof.
  destruct (search_found hex (nth 0 webColors "") webColors ltac:(discriminate))
    as (i & Hi & _).
  eapply nth_error_In. exact Hi.
Qed.

Lemma webColors_fixed w : In w webColors -> quantizeToWebColors w = w.
Proof.
  intros Hw. unfold quantizeToWebColors. rewrite nearestIn_sq.
  assert (Hall : forallb (fun c => String.eqb
                    (Quantize.nearestInSq webColors (nth 0 webColors "") c) c)
                  webColors = true) by (vm_compute; reflexivity).
  rewrite forallb_forall in Hall. apply String.eqb_eq. now apply Hall.
Qed.

Lemma isGray_spread r g b :
  isGray r g b = true <-> Z.max r (Z.max g b) - Z.min r (Z.min g b) < 20.
Proof.
  unfold isGray. cbv zeta. rewrite !andb_true_iff, !Z.ltb_lt. lia.
Qed.

Lemma removeDuplicatesFrom_facts seen items :
  let result := removeDuplicatesFrom seen items in
  NoDup (map dedupKey result) /\
  (forall x, In x result -> In x items /\ ~ In (dedupKey x) seen) /\
  (forall x, In x items -> In (dedupKey x) seen \/ In (dedupKey x) (map dedupKey result)).
Proof.
  cbv zeta. revert seen.
  induction items as [|item t IH]; intros seen; cbn [removeDuplicatesFrom].
  - cbn [map]. split; [constructor|]. split; intros x [].
  - destruct (existsb (String.eqb (dedupKey item)) seen) eqn:E.
    + apply existsb_eqb_In in E.
      destruct (IH seen) as (Hnd & Hin & Hcov). repeat split; try assumption.
      * right. now apply Hin.
      * now apply Hin.
      * intros x [<- | Hx]; [now left | now apply Hcov].
    + assert (Hnew : ~ In (dedupKey item) seen).
      { intros H. apply existsb_eqb_In in H. congruence. }
      destruct (IH (dedupKey item :: seen)) as (Hnd & Hin & Hcov).
      cbn [map]. repeat split.
      * constructor; [|assumption].
        intros H. apply in_map_iff in H as (y & Ey & Hy).
        apply Hin in Hy as [_ Hy]. apply Hy. left. now symmetry.
      * destruct H as [<- | H]; [now left | right; now apply Hin].
      * destruct H as [<- | H]; [assumption|].
        apply Hin in H as [_ H]. intros F. apply H. now right.
      * intros x [<- | Hx]; [right; now left|].
        destruct (Hcov x Hx) as [[<- | Hs] | Hr];
          [right; now left | now left | right; now right].
Qed.

Lemma times_push_length (gen : Rand string) k items rng n :
  List.length (fst (times k (fun acc => bind gen (fun s => ret (acc ++ [s])%list))
                      items rng n))
  = (List.length items + k)%nat.
Proof.
  revert items n. induction k as [|k IH]; intros items n; cbn [times].
  - cbn. lia.
  - unfold bind at 1. unfold bind at 1.
    destruct (gen rng n) as [s n1]. unfold ret at 1.
    rewrite IH, length_app. cbn. lia.
Qed.

Lemma fillUpTo_length k gen items rng n :
  (List.length items <= k)%nat ->
  List.length (fst (fillUpTo k gen items rng n)) = k.
Proof.
  intros Hle. unfold fillUpTo. rewrite times_push_length. lia.
Qed.

End FirstAnalyzerFacts.

(** X14. Every colour of the reference palette quantizes to itself, so
    quantizing twice is quantizing once. *)
Theorem quantize_idempotent (hex : string) :
  (forall w, In w AIDesignAnalyzer.webColors -> AIDesignAnalyzer.quantizeToWebColors w = w) /\
  AIDesignAnalyzer.quantizeToWebColors (AIDesignAnalyzer.quantizeToWebColors hex)
  = AIDesignAnalyzer.quantizeToWebColors hex.
Proof.
  split; [apply webColors_fixed|].
  apply webColors_fixed, quantizeToWebColors_In.
Qed.

(** X15. A pixel counts as grey exactly when its largest and its
    smallest channel are less than 20 apart. *)
Theorem isGray_iff_spread_below_20 (r g b : Z) :
  AIDesignAnalyzer.isGray r g b = true <->
  Z.max r (Z.max g b) - Z.min r (Z.min g b) < 20.
Proof. apply isGray_spread. Qed.

(** X16. [removeDuplicates] keeps items of its input only, no two of
    them with the same letters-only lower-case key, and the key of every
    input item is the key of a kept item. *)
Theorem removeDuplicates_keys (items : list string) :
  let result := AIDesignAnalyzer.removeDuplicates items in
  NoDup (map AIDesignAnalyzer.dedupKey result) /\
  (forall x, In x result -> In x items) /\
  (forall x, In x items ->
     In (AIDesignAnalyzer.dedupKey x) (map AIDesignAnalyzer.dedupKey result)).
Proof.
  cbv zeta. unfold AIDesignAnalyzer.removeDuplicates.
  destruct (removeDuplicatesFrom_facts [] items) as (Hnd & Hin & Hcov).
  refine (conj Hnd (conj _ _)).
  - intros x Hx. now apply Hin.
  - intros x Hx. destruct (Hcov x Hx) as [[] | H]. exact H.
Qed.

(** X17. The feedback of the first analyzer always holds exactly three
    strengths and four suggestions. *)
Theorem feedback_three_and_four (colors : AIDesignAnalyzer.DominantColors)
    (palette : list string) (contrast : R) (rng : Random.Rng) (n : nat) :
  let notes :=
    fst (AIDesignAnalyzer.generateAdvancedHumanFeedback colors palette contrast rng n) in
  List.length (fst notes) = 3%nat /\ List.length (snd notes) = 4%nat.
Proof.
  cbv zeta.
  assert (H : exists s g n',
             AIDesignAnalyzer.generateAdvancedHumanFeedback colors palette contrast rng n
             = ((s, g), n') /\ List.length s = 3%nat /\ List.length g = 4%nat).
  { unfold AIDesignAnalyzer.generateAdvancedHumanFeedback. cbv zeta.
    unfold Random.bind.
    destruct (AIDesignAnalyzer.generateLayoutFeedback rng n) as [layoutFeedback n1].
    destruct (AIDesignAnalyzer.generateUXFeedback rng n1) as [uxFeedback n2].
    match goal with
    | |- context [AIDesignAnalyzer.fillUpTo 3 ?gen (firstn 3 ?l)] =>
        pose proof (fillUpTo_length 3 gen (firstn 3 l) rng n2
                      (firstn_le_length 3 l)) as Hs;
        destruct (AIDesignAnalyzer.fillUpTo 3 gen (firstn 3 l) rng n2)
          as [uniqueStrengths n3]
    end.
    match goal with
    | |- context [AIDesignAnalyzer.fillUpTo 4 ?gen (firstn 4 ?l)] =>
        pose proof (fillUpTo_length 4 gen (firstn 4 l) rng n3
                      (firstn_le_length 4 l)) as Hg;
        destruct (AIDesignAnalyzer.fillUpTo 4 gen (firstn 4 l) rng n3)
          as [uniqueSuggestions n4]
    end.
    cbn [fst] in Hs, Hg. unfold Random.ret.
    exists uniqueStrengths, uniqueSuggestions, n4. repeat split; assumption. }
  destruct H as (s & g & n' & E & Hs & Hg). rewrite E. cbn [fst snd]. split; assumption.
Qed.

(** *** What the sampler returns *)

Section SamplerFacts.
Import JS Num Random AIDesignAnalyzer.





End SamplerFacts.


(** *** Complements, roles and scores of the first analyzer *)

Section RolesAndScores.
Import JS Num Random AIDesignAnalyzer.


Lemma Math_floor_mono x y : (x <= y)%R -> Math_floor x <= Math_floor y.
Proof.
  intros Hxy. unfold Math_floor.
  destruct (base_Int_part x) as [Hx _]. destruct (base_Int_part y) as [_ Hy].
  apply Z.lt_succ_r, lt_IZR. unfold Z.succ. rewrite plus_IZR. lra.
Qed.

Lemma tally_keys colors m :
  Forall (fun k => In k webColors) (map fst m) ->
  Forall (fun k => In k webColors) (map fst (fold_left tally colors m)).
Proof.
  revert m. induction colors as [|c colors IH]; intros m Hm; cbn [fold_left];
    [assumption|].
  apply IH. unfold tally. rewrite mapSet_keys.
  destruct (existsb _ (map fst m)); [assumption|].
  apply Forall_app. split; [assumption|].
  constructor; [apply quantizeToWebColors_In | constructor].
Qed.

Lemma topColorsOf_reference colors :
  Forall (fun k => In k webColors) (topColorsOf colors).
Proof.
  unfold topColorsOf.
  set (m := fold_left tally colors []).
  assert (Hm : Forall (fun k => In k webColors) (map fst m))
    by (apply tally_keys; constructor).
  set (sorted := sortBy (fun a b => snd b - snd a <=? 0) m).
  assert (Hperm : Permutation sorted m) by apply sortBy_perm.
  rewrite Forall_forall in Hm |- *. intros k Hk.
  apply Hm. apply in_map_iff in Hk as (e & <- & He).
  apply in_map. apply (Permutation_in _ Hperm). eapply In_firstn. exact He.
Qed.

Lemma black_white_reference : In "#000000" webColors /\ In "#FFFFFF" webColors.
Proof. split; unfold webColors; cbn; tauto. Qed.

Lemma findBestBackgroundColor_reference top :
  Forall (fun k => In k webColors) top -> In (findBestBackgroundColor top) webColors.
Proof.
  intros Ht. rewrite Forall_forall in Ht. unfold findBestBackgroundColor.
  destruct (filter _ top) as [|c rest] eqn:E.
  - destruct top as [|c top]; cbn [nth_error orString]; [apply black_white_reference|].
    destruct c; [apply black_white_reference | apply Ht; now left].
  - apply Ht. assert (H : In c (filter (fun color => gtb (getLightness color) 60) top))
      by (rewrite E; now left).
    now apply filter_In in H.
Qed.

Lemma findBestTextColor_reference top background :
  Forall (fun k => In k webColors) top -> In (findBestTextColor top background) webColors.
Proof.
  intros Ht. unfold findBestTextColor.
  assert (Hinv : forall st, In (fst st) webColors ->
            In (fst (fold_left (textStep background) top st)) webColors).
  { induction Ht as [|c top Hc Ht IH]; intros st Hst; cbn [fold_left]; [assumption|].
    apply IH. unfold textStep.
    destruct (String.eqb c background); [assumption|].
    destruct (gtb _ (snd st)); assumption. }
  specialize (Hinv ("#000000", 0%R) (proj1 black_white_reference)).
  destruct (fold_left (textStep background) top ("#000000", 0%R)) as [best mc].
  destruct (ltb mc 3); [|exact Hinv].
  destruct (gtb _ 50); apply black_white_reference.
Qed.

Lemma dominant_reference colors rng n :
  let d := fst (calculateAdvancedDominantColors colors rng n) in
  In (background d) webColors /\ In (text d) webColors.
Proof.
  cbv zeta. destruct colors as [|c colors].
  - cbn. unfold webColors. cbn. tauto.
  - destruct (dominant_of_sample c colors rng n) as [Hb Ht]. rewrite Hb, Ht.
    split.
    + apply findBestBackgroundColor_reference, topColorsOf_reference.
    + apply findBestTextColor_reference, topColorsOf_reference.
Qed.

End RolesAndScores.


(** X20. For every list of sampled colours the background and the text
    colour are both colours of the reference palette, and they are not
    the same colour string. *)
Theorem background_and_text_roles (colors : list string) (rng : Random.Rng) (n : nat) :
  let d := fst (AIDesignAnalyzer.calculateAdvancedDominantColors colors rng n) in
  In (AIDesignAnalyzer.background d) AIDesignAnalyzer.webColors /\
  In (AIDesignAnalyzer.text d) AIDesignAnalyzer.webColors /\
  AIDesignAnalyzer.text d <> AIDesignAnalyzer.background d.
Proof.
  cbv zeta. destruct (dominant_reference colors rng n) as [Hb Ht].
  refine (conj Hb (conj Ht _)). apply background_text_differ.
Qed.

(** X21. The readability score never falls when the contrast rises; it
    lies between 40 and 100, and it is 100 from a contrast of 8.75 on. *)
Theorem readability_rises_with_contrast (c1 c2 : R) :
  (c1 <= c2)%R ->
  AIDesignAnalyzer.calculateReadabilityScore c1
    <= AIDesignAnalyzer.calculateReadabilityScore c2 /\
  40 <= AIDesignAnalyzer.calculateReadabilityScore c1 <= 100 /\
  ((8.75 <= c1)%R -> AIDesignAnalyzer.calculateReadabilityScore c1 = 100).
Proof.
  intros Hc. unfold AIDesignAnalyzer.calculateReadabilityScore.
  pose proof (Math_floor_mono (c1 * 8 + 30) (c2 * 8 + 30) ltac:(lra)) as Hm.
  refine (conj _ (conj _ _)); [lia | lia |].
  intros H. pose proof (Math_floor_mono (IZR 100) (c1 * 8 + 30) ltac:(lra)) as H100.
  replace (JS.Math_floor (IZR 100)) with 100 in H100; [lia|].
  unfold JS.Math_floor. apply Int_part_spec. lra.
Qed.

Lemma readability_rises_with_contrast_witness :
  AIDesignAnalyzer.calculateReadabilityScore 3
    <= AIDesignAnalyzer.calculateReadabilityScore 7.
Proof.
  apply (readability_rises_with_contrast 3 7). lra.
Defined.

(** X22. A completed analysis of the first analyzer has a readability
    score from 40 to 100, a colour score from 70 to 95, a layout score
    from 75 to 95, a visual-hierarchy score from 65 to 94, a spacing
    score from 70 to 94 and an overall score from 64 to 96. *)
Theorem completed_analysis_scores (file : AIDesignAnalyzer.File)
    (rng : Random.Rng) (n : nat) :
  Observed.usable file ->
  exists r,
    fst (AIDesignAnalyzer.analyzeDesign file rng n) = AIDesignAnalyzer.Returned r /\
    let a := AIDesignAnalyzer.analysis (AIDesignAnalyzer.feedback r) in
    40 <= AIDesignAnalyzer.textReadability a <= 100 /\
    70 <= AIDesignAnalyzer.colorScore a <= 95 /\
    75 <= AIDesignAnalyzer.layoutScore a <= 95 /\
    65 <= AIDesignAnalyzer.visualHierarchy a <= 94 /\
    70 <= AIDesignAnalyzer.spacingScore a <= 94 /\
    64 <= AIDesignAnalyzer.overallScore (AIDesignAnalyzer.feedback r) <= 96.
Proof.
  intros (image & Hdec & Hw & Hh).
  destruct (analyzeDesign_usable file image rng n Hdec Hw Hh)
    as (d & p & c & fb & nv & E).
  cbv zeta in E. eexists. split; [exact E|].
  cbn [AIDesignAnalyzer.feedback AIDesignAnalyzer.analysis AIDesignAnalyzer.overallScore
       AIDesignAnalyzer.textReadability AIDesignAnalyzer.colorScore
       AIDesignAnalyzer.layoutScore AIDesignAnalyzer.visualHierarchy
       AIDesignAnalyzer.spacingScore].
  assert (Ht : 40 <= AIDesignAnalyzer.calculateReadabilityScore c <= 100)
    by (unfold AIDesignAnalyzer.calculateReadabilityScore; lia).
  assert (Hc : 70 <= AIDesignAnalyzer.calculateAdvancedColorScore p d <= 95).
  { unfold AIDesignAnalyzer.calculateAdvancedColorScore. cbv zeta.
    destruct (Num.gtb _ 7); [lia|]. destruct (Num.gtb _ 4.5); lia. }
  assert (Hl : 75 <= AIDesignAnalyzer.analyzeLayout
                      (AIDesignAnalyzer.width image) (AIDesignAnalyzer.height image) <= 95).
  { unfold AIDesignAnalyzer.analyzeLayout. destruct (_ =? 0); [lia|]. cbv zeta.
    destruct (Num.ltb _ _), (Num.ltb _ _), (Num.ltb _ _); lia. }
  pose proof (Random.draw_range rng nv) as [Hv0 Hv1].
  pose proof (Random.draw_range rng (S nv)) as [Hs0 Hs1].
  assert (Hv : 0 <= JS.Math_floor (Random.draw rng nv * 30) <= 29).
  { pose proof (Math_floor_range (Random.draw rng nv * 30) 30 ltac:(lra)). lia. }
  assert (Hs : 0 <= JS.Math_floor (Random.draw rng (S nv) * 25) <= 24).
  { pose proof (Math_floor_range (Random.draw rng (S nv) * 25) 25 ltac:(lra)). lia. }
  repeat (split; [lia|]).
  unfold AIDesignAnalyzer.overallOf.
  cbn [AIDesignAnalyzer.textReadability AIDesignAnalyzer.colorScore
       AIDesignAnalyzer.layoutScore AIDesignAnalyzer.visualHierarchy
       AIDesignAnalyzer.spacingScore].
  match goal with
  | |- _ <= JS.Math_round (IZR ?sum / 5) <= _ =>
      assert (Hsum : 320 <= sum <= 478) by lia;
      destruct Hsum as [Hlo Hhi]; apply IZR_le in Hlo, Hhi;
      apply Math_round_range; lra
  end.
Qed.

Lemma completed_analysis_scores_witness :
  exists r,
    fst (AIDesignAnalyzer.analyzeDesign Observed.redPixelFile Inputs.rngHalf 0%nat)
      = AIDesignAnalyzer.Returned r /\
    64 <= AIDesignAnalyzer.overallScore (AIDesignAnalyzer.feedback r) <= 96.
Proof.
  destruct (completed_analysis_scores Observed.redPixelFile Inputs.rngHalf 0%nat)
    as (r & Hr & Hs).
  - exists (Inputs.uniformImage 255 0 0 255 1 1). repeat split.
  - exists r. split; [exact Hr | apply Hs].
Defined.

(** *** Measured contrast *)

Section MeasuredContrast.
Import JS Num Random AdvancedDesignAnalyzer.
Local Open Scope R_scope.

Lemma luminanceAt_defined data index :
  (0 <= index)%Z -> (index + 2 < Z.of_nat (List.length data))%Z ->
  exists l, luminanceAt data index = Some l.
Proof.
  intros H0 H2. unfold luminanceAt.
  destruct (dataAt_defined data index ltac:(lia)) as [r ->].
  destruct (dataAt_defined data (index + 1) ltac:(lia)) as [g ->].
  destruct (dataAt_defined data (index + 2) ltac:(lia)) as [b ->].
  eauto.
Qed.

Lemma getPixelLuminance_inside data width height x y :
  imageData data width height ->
  (0 <= x < width)%Z -> (0 <= y < height)%Z ->
  exists l, getPixelLuminance data width x y = Some l /\ 0 <= l <= 1.
Proof.
  intros [Hb Hlen] Hx Hy. unfold getPixelLuminance.
  destruct (luminanceAt_defined data ((y * width + x) * 4)) as [l Hl]; [nia | nia |].
  exists l. split; [assumption|]. eapply luminanceAt_range; eassumption.
Qed.

Lemma ratioOf_range l1 l2 :
  0 <= l1 <= 1 -> 0 <= l2 <= 1 -> ratioInRange (ratioOf (Some l1) (Some l2)).
Proof.
  intros H1 H2. unfold ratioOf, divide.
  assert (Hmin : 0 <= Rmin l1 l2) by (apply Rmin_glb; lra).
  destruct (Req_dec_T (Rmin l1 l2 + 0.05) 0) as [E | _]; [lra|].
  eexists. split; [reflexivity|]. split; [apply ratio_ge_1; lra | now apply ratio_le_21].
Qed.

Lemma sample_coordinate (rng : Rng) i side :
  (10 <= side)%Z -> (0 <= Math_floor (draw rng i * IZR (side - 10)) < side)%Z.
Proof.
  intros Hs. pose proof (draw_range rng i) as [H0 H1].
  assert (Hd : 0 <= IZR (side - 10)) by (apply IZR_le; lia).
  assert (Hle : IZR (side - 10) <= IZR side - 10) by (rewrite minus_IZR; lra).
  assert (Hv : IZR 0 <= draw rng i * IZR (side - 10) <= IZR (side - 1)).
  { split; [apply Rmult_le_pos; lra|].
    apply Rle_trans with (1 * IZR (side - 10)); [apply Rmult_le_compat_r; lra|].
    rewrite (minus_IZR side 1). lra. }
  pose proof (Math_floor_between _ _ _ Hv). lia.
Qed.

Lemma contrastSample_range data width height contrasts rng n :
  imageData data width height -> (10 <= width)%Z -> (10 <= height)%Z ->
  Forall ratioInRange contrasts ->
  let st := contrastSample data width height contrasts rng n in
  Forall ratioInRange (fst st) /\
  List.length (fst st) = S (List.length contrasts) /\ snd st = (n + 4)%nat.
Proof.
  intros Hd Hw Hh Hc. cbv zeta. unfold contrastSample, bind, Math_random, ret.
  cbn [fst snd].
  destruct (getPixelLuminance_inside data width height _ _ Hd
              (sample_coordinate rng n width Hw)
              (sample_coordinate rng (S n) height Hh)) as (l1 & -> & Hl1).
  destruct (getPixelLuminance_inside data width height _ _ Hd
              (sample_coordinate rng (S (S n)) width Hw)
              (sample_coordinate rng (S (S (S n))) height Hh)) as (l2 & -> & Hl2).
  refine (conj _ (conj _ _)).
  - apply Forall_app. split; [assumption|].
    constructor; [now apply ratioOf_range | constructor].
  - rewrite length_app. cbn. lia.
  - lia.
Qed.

Lemma times_contrastSample data width height k contrasts rng n :
  imageData data width height -> (10 <= width)%Z -> (10 <= height)%Z ->
  Forall ratioInRange contrasts ->
  let st := times k (contrastSample data width height) contrasts rng n in
  Forall ratioInRange (fst st) /\
  List.length (fst st) = (List.length contrasts + k)%nat /\ snd st = (n + 4 * k)%nat.
Proof.
  intros Hd Hw Hh. revert contrasts n.
  induction k as [|k IH]; intros contrasts n Hc; cbn [times].
  - cbn. refine (conj Hc (conj _ _)); lia.
  - cbv zeta. unfold bind.
    destruct (contrastSample_range data width height contrasts rng n Hd Hw Hh Hc)
      as (H1 & H2 & H3).
    destruct (contrastSample data width height contrasts rng n) as [c1 n1].
    cbn [fst snd] in H1, H2, H3. subst n1.
    destruct (IH c1 (n + 4)%nat H1) as (I1 & I2 & I3).
    refine (conj I1 (conj _ _)); lia.
Qed.

(** The sum of contrasts that are numbers from 1 to 21. *)
Lemma sumOf_range contrasts :
  Forall ratioInRange contrasts ->
  forall s0, exists s,
    fold_left (fun sum c =>
                 match sum, c with
                 | Some sum, Some c => Some (sum + c)
                 | _, _ => None
                 end) contrasts (Some s0) = Some s /\
    s0 + IZR (Z.of_nat (List.length contrasts)) <= s
      <= s0 + 21 * IZR (Z.of_nat (List.length contrasts)).
Proof.
  induction 1 as [|c cs (x & -> & Hx) Hcs IH]; intros s0; cbn [fold_left].
  - exists s0. split; [reflexivity|]. cbn. lra.
  - destruct (IH (s0 + x)) as (s & Hs & Hr). exists s. split; [assumption|].
    cbn [List.length]. rewrite Nat2Z.inj_succ, succ_IZR. lra.
Qed.

Lemma calculateOverallContrast_range contrasts :
  contrasts <> [] -> Forall ratioInRange contrasts ->
  exists o, calculateOverallContrast contrasts = Some o /\ 1 <= o <= 21 /\
            o * IZR (Z.of_nat (List.length contrasts))
            = match sumOf contrasts with Some s => s | None => 0 end.
Proof.
  intros Hne Hc. unfold calculateOverallContrast, sumOf.
  destruct (sumOf_range contrasts Hc 0) as (s & -> & Hs).
  set (len := IZR (Z.of_nat (List.length contrasts))) in *.
  assert (Hlen : 1 <= len).
  { unfold len. apply IZR_le. destruct contrasts; [contradiction | cbn; lia]. }
  unfold divide. destruct (Req_dec_T len 0) as [E | _]; [lra|].
  assert (Havg : 1 <= s / len <= 21).
  { split.
    - apply Rmult_le_reg_r with len; [lra|].
      unfold Rdiv. rewrite Rmult_assoc, Rinv_l by lra. lra.
    - apply Rmult_le_reg_r with len; [lra|].
      unfold Rdiv. rewrite Rmult_assoc, Rinv_l by lra. lra. }
  eexists. split; [reflexivity|].
  rewrite (Rmax_right 1 (s / len)), (Rmin_right 21 (s / len)) by lra.
  split; [assumption|]. field. lra.
Qed.

(** The local contrast on bytes keeps both extremes in [[0,1]]. *)
Lemma localStep_unit data width x y st d :
  bytes data ->
  (forall lo hi, st = Some (lo, hi) -> 0 <= lo <= 1 /\ 0 <= hi <= 1) ->
  forall lo hi, localStep data width x y st d = Some (lo, hi) ->
                0 <= lo <= 1 /\ 0 <= hi <= 1.
Proof.
  intros Hb Hst lo hi. unfold localStep.
  destruct st as [[lo0 hi0]|]; [|discriminate].
  unfold getPixelLuminance.
  destruct (luminanceAt data _) as [l|] eqn:El; [|discriminate].
  intros [= <- <-]. destruct (Hst lo0 hi0 eq_refl) as [Hlo Hhi].
  pose proof (luminanceAt_range _ _ _ Hb El) as Hl.
  split; split;
    try (apply Rmin_glb; lra); try (apply Rmax_lub; lra).
  - eapply Rle_trans; [apply Rmin_l | lra].
  - eapply Rle_trans; [|apply Rmax_l]. lra.
Qed.

Lemma calculateLocalContrast_le_21 data width x y radius c :
  bytes data -> calculateLocalContrast data width x y radius = Some c -> c <= 21.
Proof.
  intros Hb. unfold calculateLocalContrast.
  assert (Hinv : forall ds st,
            (forall lo hi, st = Some (lo, hi) -> 0 <= lo <= 1 /\ 0 <= hi <= 1) ->
            forall lo hi, fold_left (localStep data width x y) ds st = Some (lo, hi) ->
                          0 <= lo <= 1 /\ 0 <= hi <= 1).
  { induction ds as [|d ds IH]; intros st Hst lo hi; cbn [fold_left]; [apply Hst|].
    apply IH. now apply localStep_unit. }
  specialize (Hinv (window radius) (Some (1, 0))).
  destruct (fold_left _ (window radius) (Some (1, 0))) as [[lo hi]|]; [|discriminate].
  destruct (Hinv ltac:(intros ? ? [= <- <-]; lra) lo hi eq_refl) as [Hlo Hhi].
  unfold divide. destruct (Req_dec_T (lo + 0.05) 0); [discriminate|].
  intros [= <-].
  apply Rmult_le_reg_r with (lo + 0.05); [lra|].
  unfold Rdiv. rewrite Rmult_assoc, Rinv_l by lra. lra.
Qed.

Lemma textContrastStep_state data width y st x :
  textState data st -> textState data (textContrastStep data width y st x).
Proof.
  intros Hst. unfold textContrastStep.
  destruct (calculateLocalContrast data width x y 5) as [c|] eqn:E; [|assumption].
  destruct (gtb c 3) eqn:Ec; [|assumption].
  apply gtb_true in Ec. unfold textState in *. right.
  destruct st as [sum count]. cbn [fst snd] in *.
  destruct Hst as [[-> ->] | (Hc & Hlo & Hhi)].
  - rewrite plus_IZR. refine (conj _ (conj _ _)); [lia | lra |].
    intros Hb. pose proof (calculateLocalContrast_le_21 _ _ _ _ _ _ Hb E). lra.
  - rewrite plus_IZR. refine (conj _ (conj _ _)); [lia | lra |].
    intros Hb. pose proof (calculateLocalContrast_le_21 _ _ _ _ _ _ Hb E).
    specialize (Hhi Hb). lra.
Qed.

Lemma estimateTextContrast_range data width height :
  3 < estimateTextContrast data width height /\
  (bytes data -> estimateTextContrast data width height <= 21) /\
  ((width <= 20)%Z \/ (height <= 20)%Z -> estimateTextContrast data width height = 4.5).
Proof.
  unfold estimateTextContrast.
  assert (Hrow : forall y xs st, textState data st ->
            textState data (fold_left (textContrastStep data width y) xs st)).
  { intros y xs. induction xs as [|x xs IH]; intros st Hst; cbn [fold_left];
      [assumption|]. apply IH. now apply textContrastStep_state. }
  assert (Hall : forall ys st, textState data st ->
            textState data
              (fold_left (fun st y =>
                            fold_left (textContrastStep data width y)
                                      (countUp 10 (width - 10) 20) st) ys st)).
  { induction ys as [|y ys IH]; intros st Hst; cbn [fold_left]; [assumption|].
    apply IH. now apply Hrow. }
  assert (Hempty : forall bound, (bound <= 20)%Z -> countUp 10 (bound - 10) 20 = []).
  { intros bound Hb. unfold countUp.
    replace (Z.to_nat ((bound - 10 - 10 + 20 - 1) / 20)) with 0%nat; [reflexivity|].
    assert ((bound - 10 - 10 + 20 - 1) / 20 <= 0)%Z; [|lia].
    apply Z.lt_succ_r. apply Z.div_lt_upper_bound; lia. }
  assert (Hnone : (width <= 20)%Z \/ (height <= 20)%Z ->
            fold_left (fun st y =>
                         fold_left (textContrastStep data width y)
                                   (countUp 10 (width - 10) 20) st)
                      (countUp 10 (height - 10) 20) (0, 0%Z) = (0, 0%Z)).
  { intros [Hw | Hh].
    - rewrite (Hempty width Hw). generalize (countUp 10 (height - 10) 20).
      induction l as [|y ys IH]; cbn [fold_left]; [reflexivity | exact IH].
    - now rewrite (Hempty height Hh). }
  specialize (Hall (countUp 10 (height - 10) 20) (0, 0%Z) (or_introl (conj eq_refl eq_refl))).
  unfold textState in Hall.
  refine (conj _ (conj _ _)).
  - destruct (fold_left _ _ (0, 0%Z)) as [sum count].
    destruct Hall as [[Hc Hs] | (Hc & Hlo & Hhi)]; cbn [fst snd] in *.
    + subst count. cbn. lra.
    + replace (count >? 0)%Z with true by (symmetry; apply Z.gtb_lt; lia).
      assert (Hp : 0 < IZR count) by (apply IZR_lt; lia).
      apply Rmult_lt_reg_r with (IZR count); [assumption|].
      unfold Rdiv. rewrite Rmult_assoc, Rinv_l by lra. lra.
  - intros Hb. destruct (fold_left _ _ (0, 0%Z)) as [sum count].
    destruct Hall as [[Hc Hs] | (Hc & Hlo & Hhi)]; cbn [fst snd] in *.
    + subst count. cbn. lra.
    + replace (count >? 0)%Z with true by (symmetry; apply Z.gtb_lt; lia).
      assert (Hp : 0 < IZR count) by (apply IZR_lt; lia). specialize (Hhi Hb).
      apply Rmult_le_reg_r with (IZR count); [assumption|].
      unfold Rdiv. rewrite Rmult_assoc, Rinv_l by lra. lra.
  - intros Hsmall. now rewrite (Hnone Hsmall).
Qed.

End MeasuredContrast.

(** X23. The text contrast [estimateTextContrast] is always above 3, on
    a pixel array of bytes it is at most 21, and it is the default 4.5
    for a picture that is at most 20 pixels wide or high. *)
Theorem text_contrast_above_3 (data : list Z) (width height : Z) :
  (3 < AdvancedDesignAnalyzer.estimateTextContrast data width height)%R /\
  (bytes data ->
   (AdvancedDesignAnalyzer.estimateTextContrast data width height <= 21)%R) /\
  (width <= 20 \/ height <= 20 ->
   AdvancedDesignAnalyzer.estimateTextContrast data width height = 4.5%R).
Proof. apply estimateTextContrast_range. Qed.

(** X24. For a picture at least 10 pixels wide and high [analyzeContrast]
    reads exactly 400 draws; its overall contrast is the mean of the 100
    sampled ratios, a number from 1 to 21, and its element contrast is a
    number above 1.4 and at most 21. *)
Theorem analyzeContrast_in_range (data : list Z) (width height : Z)
    (rng : Random.Rng) (n : nat) :
  imageData data width height -> 10 <= width -> 10 <= height ->
  let samples := fst (AdvancedDesignAnalyzer.sampleContrast data width height rng n) in
  let report := fst (AdvancedDesignAnalyzer.analyzeContrast data width height rng n) in
  snd (AdvancedDesignAnalyzer.analyzeContrast data width height rng n) = (n + 400)%nat /\
  List.length samples = 100%nat /\ Forall ratioInRange samples /\
  exists o e,
    AdvancedDesignAnalyzer.report_overallContrast report = Some o /\
    (1 <= o <= 21)%R /\
    (o * 100 = match AdvancedDesignAnalyzer.sumOf samples with
               | Some s => s | None => 0 end)%R /\
    AdvancedDesignAnalyzer.report_elementContrast report = Some e /\
    (1.4 < e <= 21)%R.
Proof.
  intros Hd Hw Hh. cbv zeta.
  unfold AdvancedDesignAnalyzer.analyzeContrast, AdvancedDesignAnalyzer.sampleContrast.
  unfold Random.bind, Random.ret.
  destruct (times_contrastSample data width height 100 [] rng n Hd Hw Hh (Forall_nil _))
    as (Hall & Hlen & Hn).
  destruct (Random.times 100 _ [] rng n) as [samples n'].
  cbn [fst snd] in *. subst n'.
  destruct (calculateOverallContrast_range samples) as (o & Ho & Hor & Hmean);
    [intros ->; discriminate Hlen | assumption |].
  rewrite Hlen in Hmean. change (IZR (Z.of_nat (0 + 100))) with 100%R in Hmean.
  destruct (estimateTextContrast_range data width height) as (Ht3 & Ht21 & _).
  specialize (Ht21 (proj1 Hd)).
  refine (conj _ (conj Hlen (conj Hall _))); [lia|].
  exists o. eexists.
  cbn [AdvancedDesignAnalyzer.report_overallContrast
       AdvancedDesignAnalyzer.report_elementContrast].
  rewrite Ho. refine (conj eq_refl (conj Hor (conj Hmean (conj eq_refl _)))). lra.
Qed.

Lemma analyzeContrast_in_range_witness :
  snd (AdvancedDesignAnalyzer.analyzeContrast
         (Inputs.uniformData 255 0 0 255 30 30) 30 30 Inputs.rngHalf 0%nat)
  = 400%nat.
Proof.
  apply (analyzeContrast_in_range (Inputs.uniformData 255 0 0 255 30 30) 30 30
           Inputs.rngHalf 0%nat).
  - split; [apply bytes_uniformData; lia | apply length_uniformData; lia].
  - lia.
  - lia.
Defined.

(** *** Layout and colour scores of the second analyzer *)

Section LayoutOfPicture.
Import JS Num AdvancedDesignAnalyzer.
Local Open Scope R_scope.

Lemma getSaturation_nonneg r g b :
  (0 <= r <= 255)%Z -> (0 <= g <= 255)%Z -> (0 <= b <= 255)%Z ->
  0 <= getSaturation r g b <= 1.
Proof.
  intros Hr Hg Hb. unfold getSaturation.
  set (hi := IZR (Z.max (Z.max r g) b) / 255).
  set (lo := IZR (Z.min (Z.min r g) b) / 255).
  assert (Hlo : 0 <= lo).
  { unfold lo. apply Rmult_le_pos; [apply IZR_le; lia | lra]. }
  assert (Hle : lo <= hi).
  { unfold lo, hi. apply Rmult_le_compat_r; [lra | apply IZR_le; lia]. }
  destruct (Req_dec_T hi 0) as [E | E]; [lra|].
  assert (Hhi : 0 < hi) by lra.
  split.
  - apply Rmult_le_pos; [lra | left; now apply Rinv_0_lt_compat].
  - apply Rmult_le_reg_r with hi; [assumption|].
    unfold Rdiv. rewrite Rmult_assoc, Rinv_l by lra. lra.
Qed.

Lemma addWeight_nonNegative q i weight :
  nonNegative q -> 0 <= weight -> nonNegative (addWeight q i weight).
Proof.
  intros (H0 & H1 & H2 & H3) Hw. unfold nonNegative, addWeight.
  destruct i as [|[p|[p|p|]|]|]; cbn [q0 q1 q2 q3];
    refine (conj _ (conj _ (conj _ _))); lra.
Qed.

Lemma weighPixel_nonNegative data width height qw qh y x q :
  imageData data width height ->
  (0 <= x < width)%Z -> (0 <= y < height)%Z -> nonNegative q ->
  exists q', weighPixel data width qw qh y x (Some q) = Some q' /\ nonNegative q'.
Proof.
  intros [Hb Hlen] Hx Hy Hq. unfold weighPixel.
  set (index := ((y * width + x) * 4)%Z).
  assert (Hi : (0 <= index /\ index + 2 < Z.of_nat (List.length data))%Z)
    by (unfold index; nia).
  destruct (dataAt_defined data index ltac:(lia)) as [r Er].
  destruct (dataAt_defined data (index + 1) ltac:(lia)) as [g Eg].
  destruct (dataAt_defined data (index + 2) ltac:(lia)) as [b Eb].
  rewrite Er, Eg, Eb. unfold bytes in Hb. rewrite Forall_forall in Hb.
  assert (Hr : (0 <= r <= 255)%Z) by (apply Hb; eapply dataAt_In; eassumption).
  assert (Hg : (0 <= g <= 255)%Z) by (apply Hb; eapply dataAt_In; eassumption).
  assert (Hbl : (0 <= b <= 255)%Z) by (apply Hb; eapply dataAt_In; eassumption).
  eexists. split; [reflexivity|].
  apply addWeight_nonNegative; [assumption|].
  pose proof (getLuminance_rgb_range r g b Hr Hg Hbl).
  pose proof (getSaturation_nonneg r g b Hr Hg Hbl).
  apply Rmult_le_pos; lra.
Qed.

Lemma analyzeVisualWeight_nonNegative data width height :
  imageData data width height ->
  exists q, analyzeVisualWeight data width height = Some q /\ nonNegative q.
Proof.
  intros Hd. unfold analyzeVisualWeight.
  assert (Hrow : forall y xs q,
            (0 <= y < height)%Z -> Forall (fun x => (0 <= x < width)%Z) xs ->
            nonNegative q ->
            exists q',
              fold_left (fun quarters x =>
                           weighPixel data width (width / 2) (height / 2) y x quarters)
                        xs (Some q) = Some q' /\ nonNegative q').
  { intros y xs q Hy Hxs. revert q.
    induction Hxs as [|x xs Hx Hxs IH]; intros q Hq; cbn [fold_left]; [eauto|].
    destruct (weighPixel_nonNegative data width height (width / 2) (height / 2)
                y x q Hd Hx Hy Hq) as (q' & -> & Hq').
    now apply IH. }
  assert (Hxs : Forall (fun x => (0 <= x < width)%Z) (everySecond width)).
  { apply Forall_forall. intros x. apply everySecond_range. }
  assert (Hys : Forall (fun y => (0 <= y < height)%Z) (everySecond height)).
  { apply Forall_forall. intros y. apply everySecond_range. }
  assert (Hq0 : nonNegative (MkQuarters 0 0 0 0)).
  { unfold nonNegative. cbn [q0 q1 q2 q3]. lra. }
  revert Hq0. generalize (MkQuarters 0 0 0 0) as q.
  induction Hys as [|y ys Hy Hys IH]; intros q Hq; cbn [fold_left]; [eauto|].
  destruct (Hrow y (everySecond width) q Hy Hxs Hq) as (q' & -> & Hq').
  now apply IH.
Qed.

Lemma harmony_steps pairs acc :
  (0 <= acc)%Z -> (acc mod 5 = 0)%Z ->
  let total :=
    fold_left (fun acc p =>
                 let contrast := calculateColorContrast (fst p) (snd p) in
                 if gtb contrast 2 && ltb contrast 8 then (acc + 5)%Z else acc)
              pairs acc in
  (acc <= total <= acc + 5 * Z.of_nat (List.length pairs))%Z /\ (total mod 5 = 0)%Z.
Proof.
  cbv zeta. revert acc.
  induction pairs as [|p pairs IH]; intros acc H0 H5; cbn [fold_left List.length].
  - split; [lia | assumption].
  - destruct (gtb _ 2 && ltb _ 8).
    + destruct (IH (acc + 5)%Z ltac:(lia)) as [Hr Hm].
      { rewrite <- (Z.mul_1_l 5) at 1. rewrite Z.mod_add by lia. assumption. }
      split; [lia | assumption].
    + destruct (IH acc H0 H5) as [Hr Hm]. split; [lia | assumption].
Qed.

Lemma calculateColorHarmony_steps palette :
  (0 <= calculateColorHarmony palette <= 20)%Z /\
  (calculateColorHarmony palette mod 5 = 0)%Z.
Proof.
  unfold calculateColorHarmony.
  destruct (harmony_steps (pairsOf palette) 0 ltac:(lia) eq_refl) as [Hr Hm].
  cbv zeta in Hr, Hm.
  set (total := fold_left _ (pairsOf palette) 0%Z) in *.
  destruct (Z.min_spec 20 total) as [[_ ->] | [Hle ->]]; [|split; [lia | assumption]].
  split; [lia | reflexivity].
Qed.

End LayoutOfPicture.

(** X25. On the pixel array of a picture [analyzeVisualWeight] gives four
    weights none of which is negative, so that [analyzeLayout] returns a
    balance and a visual weight from 0 to 100 and the grid quality 50;
    where the symmetry is a number, the layout score that
    [calculateScores] forms of the three is at most 250/3. *)
Theorem layout_of_picture (data : list Z) (width height : Z) :
  imageData data width height ->
  exists q l,
    AdvancedDesignAnalyzer.analyzeVisualWeight data width height = Some q /\
    nonNegative q /\
    AdvancedDesignAnalyzer.analyzeLayout data width height = Some l /\
    isScore (AdvancedDesignAnalyzer.balance l) /\
    isScore (AdvancedDesignAnalyzer.visualWeight l) /\
    AdvancedDesignAnalyzer.gridQuality l = 50%R /\
    forall text colors contrast score,
      AdvancedDesignAnalyzer.layoutScore
        (AdvancedDesignAnalyzer.calculateScores text colors l contrast) = Some score ->
      (100 / 3 <= score <= 250 / 3)%R.
Proof.
  intros Hd.
  destruct (analyzeVisualWeight_nonNegative data width height Hd) as (q & Eq & Hq).
  exists q. eexists. unfold AdvancedDesignAnalyzer.analyzeLayout. rewrite Eq.
  cbv zeta.
  assert (Hgrid : AdvancedDesignAnalyzer.analyzeGridAlignment data width height = 50).
  { unfold AdvancedDesignAnalyzer.analyzeGridAlignment.
    rewrite (detectAlignmentLines_zero data width height (proj1 Hd)). reflexivity. }
  pose proof (calculateBalance_range q Hq) as Hbal.
  pose proof (proj1 (calculateVisualWeight_facts q Hq)) as Hvw.
  refine (conj eq_refl (conj Hq (conj eq_refl _))).
  cbn [AdvancedDesignAnalyzer.balance AdvancedDesignAnalyzer.visualWeight
       AdvancedDesignAnalyzer.gridQuality AdvancedDesignAnalyzer.symmetry].
  rewrite Hgrid.
  assert (Hb : (0 <= IZR (AdvancedDesignAnalyzer.calculateBalance q) <= 100)%R).
  { split; apply IZR_le; lia. }
  refine (conj Hb (conj Hvw (conj eq_refl _))).
  intros text colors contrast score.
  unfold AdvancedDesignAnalyzer.calculateScores.
  cbn [AdvancedDesignAnalyzer.layoutScore AdvancedDesignAnalyzer.symmetry
       AdvancedDesignAnalyzer.balance AdvancedDesignAnalyzer.gridQuality].
  destruct (AdvancedDesignAnalyzer.calculateSymmetry q) as [s|] eqn:Es;
    cbn [option_map]; [|discriminate].
  intros [= <-].
  pose proof (calculateSymmetry_range q s Hq Es) as Hs.
  assert (Hs' : (50 <= IZR s <= 100)%R) by (split; apply IZR_le; lia).
  lra.
Qed.

Lemma layout_of_picture_witness :
  exists q l,
    AdvancedDesignAnalyzer.analyzeVisualWeight
      (Inputs.uniformData 255 0 0 255 30 30) 30 30 = Some q /\
    nonNegative q /\
    AdvancedDesignAnalyzer.analyzeLayout
      (Inputs.uniformData 255 0 0 255 30 30) 30 30 = Some l /\
    isScore (AdvancedDesignAnalyzer.balance l) /\
    isScore (AdvancedDesignAnalyzer.visualWeight l) /\
    AdvancedDesignAnalyzer.gridQuality l = 50%R /\
    forall text colors contrast score,
      AdvancedDesignAnalyzer.layoutScore
        (AdvancedDesignAnalyzer.calculateScores text colors l contrast) = Some score ->
      (100 / 3 <= score <= 250 / 3)%R.
Proof.
  apply (layout_of_picture (Inputs.uniformData 255 0 0 255 30 30) 30 30).
  split; [apply bytes_uniformData; lia | apply length_uniformData; lia].
Defined.

(** X26. The colour score of the second analyzer is 40 for a palette of
    fewer than three colours; otherwise it is 50, plus five for each
    colour up to 30, plus a harmony bonus that is a multiple of 5 from 0
    to 20: a number from 65 to 100 which the final cap at 100 never
    lowers. *)
Theorem colour_score_steps (palette : list string) :
  let n := Z.of_nat (List.length palette) in
  let harmony := AdvancedDesignAnalyzer.calculateColorHarmony palette in
  0 <= harmony <= 20 /\ harmony mod 5 = 0 /\
  (n < 3 -> AdvancedDesignAnalyzer.calculateColorScore palette = 40) /\
  (3 <= n ->
   AdvancedDesignAnalyzer.calculateColorScore palette = 50 + Z.min (n * 5) 30 + harmony /\
   65 <= AdvancedDesignAnalyzer.calculateColorScore palette <= 100).
Proof.
  cbv zeta.
  destruct (calculateColorHarmony_steps palette) as [Hr Hm].
  refine (conj Hr (conj Hm (conj _ _)));
    intros Hn; unfold AdvancedDesignAnalyzer.calculateColorScore.
  - replace (Z.of_nat (List.length palette) <? 3) with true
      by (symmetry; apply Z.ltb_lt; lia).
    reflexivity.
  - replace (Z.of_nat (List.length palette) <? 3) with false
      by (symmetry; apply Z.ltb_ge; lia).
    cbv zeta. lia.
Qed.

(** *** Values computed by the embedding *)

Example rgbToHex_ex1 : AIDesignAnalyzer.rgbToHex 255 10 0 = "#ff0a00".
Proof. reflexivity. Qed.

Example rgbToHex_ex2 : AdvancedDesignAnalyzer.rgbToHex 255 10 0 = "#ff0a00".
Proof. reflexivity. Qed.

Example hexToRgb_ex1 : Hex.hexToRgb "#FF0a10" = [255; 10; 16].
Proof. reflexivity. Qed.

Example hexToRgb_ex2 : Hex.hexToRgb "ff0a10" = [255; 10; 16].
Proof. reflexivity. Qed.

Example hexToRgb_ex3 : Hex.hexToRgb "#ff0a1" = [0; 0; 0].
Proof. reflexivity. Qed.
